(** * ASM64: a shallow embedding of the two-pass 6502/6510 assembler

    The development follows the C sources: [lexer.c], [symbols.c],
    [expr.c], [opcodes.c], [parser.c] and [assembler.c].  Machine integers
    are [Z] with the wrap-around written out, C strings are [list ascii]
    (source text, indexed by offsets) or [string] (names), the 64 KiB image
    is a finite map, and every function that mutates the assembler takes
    and returns the state explicitly. *)

From Stdlib Require Import ZArith List String Ascii Bool Lia DecimalString.
From stdpp Require Import base tactics option list gmap.
Import ListNotations.

#[local] Open Scope Z_scope.

(** ** Machine integers *)

(** [int32_t]: two's complement wrap-around of a mathematical integer. *)
Definition to_int32 (z : Z) : Z := (z + 2147483648) mod 4294967296 - 2147483648.

(** [uint32_t], [uint16_t] and [uint8_t] conversions. *)
Definition to_uint32 (z : Z) : Z := z mod 4294967296.
Definition to_uint16 (z : Z) : Z := z mod 65536.
Definition to_uint8 (z : Z) : Z := z mod 256.

Definition INT_MIN : Z := -2147483648.

(** ** Characters *)

Definition code (c : ascii) : Z := Z.of_nat (nat_of_ascii c).
Definition chr (z : Z) : ascii := ascii_of_nat (Z.to_nat z).

Definition NUL : ascii := "000"%char.
Definition LF : ascii := "010"%char.
Definition CR : ascii := "013"%char.
Definition TAB : ascii := "009"%char.
Definition DQUOTE : ascii := "034"%char.
Definition SQUOTE : ascii := "039"%char.
Definition BACKSLASH : ascii := "092"%char.

(** [toupper] of [<ctype.h>] in the C locale, on an [unsigned char]. *)
Definition toupper (c : ascii) : ascii :=
  if (97 <=? code c) && (code c <=? 122) then chr (code c - 32) else c.

(** * The lexer ([lexer.c]) *)

Module Lexer.

Definition is_alpha (c : ascii) : bool :=
  ((97 <=? code c) && (code c <=? 122)) || ((65 <=? code c) && (code c <=? 90))
  || Ascii.eqb c "_".

Definition is_digit (c : ascii) : bool := (48 <=? code c) && (code c <=? 57).

Definition is_hex_digit (c : ascii) : bool :=
  is_digit c || ((97 <=? code c) && (code c <=? 102))
  || ((65 <=? code c) && (code c <=? 70)).

Definition is_binary_digit (c : ascii) : bool := Ascii.eqb c "0" || Ascii.eqb c "1".

Definition is_alnum (c : ascii) : bool := is_alpha c || is_digit c.

Inductive TokenType : Set :=
| TOK_EOF | TOK_EOL
| TOK_NUMBER | TOK_STRING | TOK_CHAR
| TOK_IDENTIFIER | TOK_LOCAL_LABEL | TOK_ANON_BACK | TOK_ANON_FWD
| TOK_DIRECTIVE | TOK_MACRO_CALL
| TOK_PLUS | TOK_MINUS | TOK_STAR | TOK_SLASH | TOK_PERCENT | TOK_AMP
| TOK_PIPE | TOK_CARET | TOK_TILDE | TOK_BANG | TOK_LT | TOK_GT | TOK_EQ
| TOK_NE | TOK_LE | TOK_GE | TOK_LSHIFT | TOK_RSHIFT
| TOK_LPAREN | TOK_RPAREN | TOK_LBRACE | TOK_RBRACE | TOK_LBRACKET
| TOK_RBRACKET | TOK_COMMA | TOK_COLON | TOK_HASH
| TOK_ERROR.

(** [Token.start] points either into the source buffer or, for the tokens
    built by [error_token], at the message. *)
Inductive TokenStart : Set :=
| InSource (offset : nat)
| Message (text : string).

Record Token : Set := mkToken {
  tok_type : TokenType;
  tok_start : TokenStart;
  tok_length : Z;
  tok_line : Z;
  tok_column : Z;
  tok_number : Z;                       (* value.number *)
  tok_string : option (list ascii)      (* value.string, for TOK_STRING *)
}.

(** The source is the NUL-terminated buffer without its terminator; the
    pointers [current] and [line_start] are offsets into it. *)
Record Lexer : Set := mkLexer {
  source : list ascii;
  current : nat;
  line_start : nat;
  line : Z
}.

Definition char_at (src : list ascii) (p : nat) : ascii := nth p src NUL.

Definition set_current (lex : Lexer) (p : nat) : Lexer :=
  mkLexer (source lex) p (line_start lex) (line lex).

Definition is_at_end (lex : Lexer) : bool := Ascii.eqb (char_at (source lex) (current lex)) NUL.

Definition peek (lex : Lexer) : ascii := char_at (source lex) (current lex).

Definition advance (lex : Lexer) : ascii * Lexer :=
  (peek lex, set_current lex (S (current lex))).

Definition match_char (lex : Lexer) (expected : ascii) : bool * Lexer :=
  if is_at_end lex then (false, lex)
  else if negb (Ascii.eqb (peek lex) expected) then (false, lex)
  else (true, set_current lex (S (current lex))).

Definition make_token (lex : Lexer) (type : TokenType) (start : nat) : Token :=
  mkToken type (InSource start)
          (Z.of_nat (current lex) - Z.of_nat start)
          (line lex)
          (Z.of_nat start - Z.of_nat (line_start lex) + 1)
          0 None.

Definition error_token (lex : Lexer) (message : string) : Token :=
  mkToken TOK_ERROR (Message message)
          (Z.of_nat (String.length message))
          (line lex)
          (Z.of_nat (current lex) - Z.of_nat (line_start lex) + 1)
          0 None.

Definition with_number (tok : Token) (n : Z) : Token :=
  mkToken (tok_type tok) (tok_start tok) (tok_length tok) (tok_line tok)
          (tok_column tok) n (tok_string tok).

Definition with_string (tok : Token) (s : list ascii) : Token :=
  mkToken (tok_type tok) (tok_start tok) (tok_length tok) (tok_line tok)
          (tok_column tok) (tok_number tok) (Some s).

(** [while (p(peek(lex))) advance(lex);] for a class [p] that rejects NUL:
    the number of characters the loop consumes from the text that remains. *)
Fixpoint scan (p : ascii -> bool) (rest : list ascii) : nat :=
  match rest with
  | c :: rest' => if p c then S (scan p rest') else O
  | [] => O
  end.

Definition remaining (lex : Lexer) : list ascii := skipn (current lex) (source lex).

Definition advance_while (p : ascii -> bool) (lex : Lexer) : Lexer :=
  set_current lex (current lex + scan p (remaining lex))%nat.

Definition is_blank (c : ascii) : bool :=
  Ascii.eqb c " " || Ascii.eqb c TAB || Ascii.eqb c CR.

Definition in_comment (c : ascii) : bool :=
  negb (Ascii.eqb c NUL) && negb (Ascii.eqb c LF).

(** The [for (;;)] of [skip_whitespace]; every round but the last consumes
    a character, so [S (length (remaining lex))] rounds are enough. *)
Fixpoint skip_whitespace_loop (fuel : nat) (lex : Lexer) : Lexer :=
  match fuel with
  | O => lex
  | S fuel' =>
      let c := peek lex in
      if is_blank c then skip_whitespace_loop fuel' (snd (advance lex))
      else if Ascii.eqb c ";" then skip_whitespace_loop fuel' (advance_while in_comment lex)
      else lex
  end.

Definition skip_whitespace (lex : Lexer) : Lexer :=
  skip_whitespace_loop (S (length (remaining lex))) lex.

(** *** Numeric literals *)

Definition hex_value (c : ascii) : Z :=
  if (48 <=? code c) && (code c <=? 57) then code c - 48
  else if (97 <=? code c) && (code c <=? 102) then code c - 97 + 10
  else code c - 65 + 10.

(** The loop of [parse_hex]: [None] is the early error return. *)
Fixpoint hex_loop (rest : list ascii) (value : Z) (digits : Z) (used : nat)
  : option Z * Z * nat :=
  match rest with
  | c :: rest' =>
      if is_hex_digit c then
        let value' := to_int32 (Z.lor (Z.shiftl value 4) (hex_value c)) in
        let digits' := digits + 1 in
        if 8 <? digits' then (None, digits', S used)
        else hex_loop rest' value' digits' (S used)
      else (Some value, digits, used)
  | [] => (Some value, digits, used)
  end.

Definition parse_hex (lex : Lexer) (start : nat) : Token * Lexer :=
  match hex_loop (remaining lex) 0 0 O with
  | (r, digits, used) =>
      let lex' := set_current lex (current lex + used)%nat in
      match r with
      | None => (error_token lex' "hex number too large", lex')
      | Some value =>
          if digits =? 0 then (error_token lex' "expected hex digits after $", lex')
          else (with_number (make_token lex' TOK_NUMBER start) value, lex')
      end
  end.

Fixpoint binary_loop (rest : list ascii) (value : Z) (digits : Z) (used : nat)
  : option Z * Z * nat :=
  match rest with
  | c :: rest' =>
      if is_binary_digit c then
        let value' := to_int32 (Z.lor (Z.shiftl value 1) (code c - 48)) in
        let digits' := digits + 1 in
        if 32 <? digits' then (None, digits', S used)
        else binary_loop rest' value' digits' (S used)
      else (Some value, digits, used)
  | [] => (Some value, digits, used)
  end.

Definition parse_binary (lex : Lexer) (start : nat) : Token * Lexer :=
  match binary_loop (remaining lex) 0 0 O with
  | (r, digits, used) =>
      let lex' := set_current lex (current lex + used)%nat in
      match r with
      | None => (error_token lex' "binary number too large", lex')
      | Some value =>
          if digits =? 0 then (error_token lex' "expected binary digits after %", lex')
          else (with_number (make_token lex' TOK_NUMBER start) value, lex')
      end
  end.

(** The loop of [parse_decimal].  [new_value] is an [int32_t]: the product
    and sum wrap around, and the only overflow test is [new_value < value]. *)
Fixpoint decimal_loop (rest : list ascii) (value : Z) (used : nat) : option Z * nat :=
  match rest with
  | c :: rest' =>
      if is_digit c then
        let new_value := to_int32 (value * 10 + (code c - 48)) in
        if new_value <? value then (None, S used)
        else decimal_loop rest' new_value (S used)
      else (Some value, used)
  | [] => (Some value, used)
  end.

Definition parse_decimal (lex : Lexer) (start : nat) : Token * Lexer :=
  let lex0 := set_current lex start in
  match decimal_loop (remaining lex0) 0 O with
  | (r, used) =>
      let lex' := set_current lex0 (start + used)%nat in
      match r with
      | None => (error_token lex' "decimal number too large", lex')
      | Some value => (with_number (make_token lex' TOK_NUMBER start) value, lex')
      end
  end.


(** *** Character and string literals *)

(** The [switch (esc)] shared by [parse_char] and [parse_string]. *)
Definition escape_value (esc : ascii) : option Z :=
  if Ascii.eqb esc "n" then Some 13
  else if Ascii.eqb esc "r" then Some 13
  else if Ascii.eqb esc "t" then Some 9
  else if Ascii.eqb esc BACKSLASH then Some 92
  else if Ascii.eqb esc SQUOTE then Some 39
  else if Ascii.eqb esc DQUOTE then Some 34
  else if Ascii.eqb esc "0" then Some 0
  else None.

Definition parse_char (lex : Lexer) (start : nat) : Token * Lexer :=
  if is_at_end lex then (error_token lex "unterminated character literal", lex)
  else
    let (c, lex1) := advance lex in
    let r :=
      if Ascii.eqb c BACKSLASH then
        if is_at_end lex1 then inl (error_token lex1 "unterminated escape sequence", lex1)
        else
          let (esc, lex2) := advance lex1 in
          match escape_value esc with
          | Some v => inr (v, lex2)
          | None => inl (error_token lex2 "unknown escape sequence", lex2)
          end
      else inr (code c, lex1) in
    match r with
    | inl e => e
    | inr (value, lex2) =>
        let (ok, lex3) := match_char lex2 SQUOTE in
        if ok then (with_number (make_token lex3 TOK_CHAR start) value, lex3)
        else (error_token lex3 "unterminated character literal", lex3)
    end.

(** The loop of [parse_string]: [None] is the return on an unknown escape;
    otherwise the buffer and the number of characters consumed. *)
Fixpoint string_loop (rest : list ascii) (buf : list ascii) (used : nat)
  : option (list ascii) * nat :=
  match rest with
  | c :: rest' =>
      if Ascii.eqb c NUL || Ascii.eqb c DQUOTE || Ascii.eqb c LF then (Some buf, used)
      else if Ascii.eqb c BACKSLASH then
        match rest' with
        | esc :: rest'' =>
            if Ascii.eqb esc NUL then string_loop rest' (buf ++ [c]) (S used)
            else match escape_value esc with
                 | Some v => string_loop rest'' (buf ++ [chr v]) (S (S used))
                 | None => (None, S (S used))
                 end
        | [] => string_loop rest' (buf ++ [c]) (S used)
        end
      else string_loop rest' (buf ++ [c]) (S used)
  | [] => (Some buf, used)
  end.

Definition parse_string (lex : Lexer) (start : nat) : Token * Lexer :=
  match string_loop (remaining lex) [] O with
  | (r, used) =>
      let lex' := set_current lex (current lex + used)%nat in
      match r with
      | None => (error_token lex' "unknown escape sequence", lex')
      | Some buf =>
          if is_at_end lex' || Ascii.eqb (peek lex') LF
          then (error_token lex' "unterminated string", lex')
          else
            let lex'' := snd (advance lex') in
            (with_string (make_token lex'' TOK_STRING start) buf, lex'')
      end
  end.

(** *** Identifiers, directives, [+] and [-] *)

Definition parse_identifier (lex : Lexer) (start : nat) : Token * Lexer :=
  let lex' := advance_while is_alnum lex in
  (make_token lex' TOK_IDENTIFIER start, lex').

Definition parse_local_label (lex : Lexer) (start : nat) : Token * Lexer :=
  let lex' := advance_while is_alnum lex in
  (make_token lex' TOK_LOCAL_LABEL start, lex').

Definition parse_directive (lex : Lexer) (start : nat) : Token * Lexer :=
  let first := peek lex in
  if is_alpha first then
    let lex' := advance_while is_alnum (snd (advance lex)) in
    (make_token lex' TOK_DIRECTIVE start, lex')
  else if is_digit first then
    let peek_pos := current lex in
    let lex' := advance_while is_digit (snd (advance lex)) in
    let len := (current lex' - peek_pos)%nat in
    let c0 := char_at (source lex) peek_pos in
    let c1 := char_at (source lex) (S peek_pos) in
    if Nat.eqb len 2 &&
       ((Ascii.eqb c0 "0" && Ascii.eqb c1 "8") || (Ascii.eqb c0 "1" && Ascii.eqb c1 "6")
        || (Ascii.eqb c0 "2" && Ascii.eqb c1 "4") || (Ascii.eqb c0 "3" && Ascii.eqb c1 "2"))
    then (make_token lex' TOK_DIRECTIVE start, lex')
    else
      let lex'' := set_current lex' peek_pos in
      (make_token lex'' TOK_BANG start, lex'')
  else (make_token lex TOK_BANG start, lex).

(** The look-behind of [parse_macro_or_anon]: [p] walks from [start] down to
    [line_start]; [n] is [p - line_start]. *)
Fixpoint only_whitespace_before (src : list ascii) (line_start : nat) (n : nat) : bool :=
  match n with
  | O => true
  | S n' =>
      let c := char_at src (line_start + n') in
      if Ascii.eqb c ":" then true
      else if negb (Ascii.eqb c " " || Ascii.eqb c TAB) then false
      else only_whitespace_before src line_start n'
  end.

Definition is_plus (c : ascii) : bool := Ascii.eqb c "+".
Definition is_minus (c : ascii) : bool := Ascii.eqb c "-".

Definition parse_macro_or_anon (lex : Lexer) (start : nat) : Token * Lexer :=
  let plus_count := 1 + Z.of_nat (scan is_plus (remaining lex)) in
  let lex1 := advance_while is_plus lex in
  if (plus_count =? 1) && is_alpha (peek lex1) then
    if only_whitespace_before (source lex1) (line_start lex1) (start - line_start lex1)
    then
      let lex2 := advance_while is_alnum lex1 in
      (make_token lex2 TOK_MACRO_CALL start, lex2)
    else (make_token lex1 TOK_PLUS start, lex1)
  else
    let c := peek lex1 in
    if (plus_count =? 1) &&
       (is_digit c || Ascii.eqb c "$" || Ascii.eqb c "%" || Ascii.eqb c "("
        || Ascii.eqb c SQUOTE || Ascii.eqb c "*" || Ascii.eqb c "<" || Ascii.eqb c ">"
        || Ascii.eqb c "-" || Ascii.eqb c "~" || Ascii.eqb c "!")
    then (make_token lex1 TOK_PLUS start, lex1)
    else (with_number (make_token lex1 TOK_ANON_FWD start) plus_count, lex1).

Definition parse_anon_back (lex : Lexer) (start : nat) : Token * Lexer :=
  let minus_count := 1 + Z.of_nat (scan is_minus (remaining lex)) in
  let lex1 := advance_while is_minus lex in
  let c := peek lex1 in
  if (minus_count =? 1) &&
     (is_digit c || Ascii.eqb c "$" || Ascii.eqb c "%" || Ascii.eqb c "(" || is_alpha c)
  then (make_token lex1 TOK_MINUS start, lex1)
  else (with_number (make_token lex1 TOK_ANON_BACK start) minus_count, lex1).

Definition lexer_init (src : list ascii) : Lexer := mkLexer src O O 1.

(** The final [switch (c)] of [lexer_next]. *)
Definition single_char_token (c : ascii) : option TokenType :=
  if Ascii.eqb c "*" then Some TOK_STAR
  else if Ascii.eqb c "/" then Some TOK_SLASH
  else if Ascii.eqb c "%" then Some TOK_PERCENT
  else if Ascii.eqb c "&" then Some TOK_AMP
  else if Ascii.eqb c "|" then Some TOK_PIPE
  else if Ascii.eqb c "^" then Some TOK_CARET
  else if Ascii.eqb c "~" then Some TOK_TILDE
  else if Ascii.eqb c "!" then Some TOK_BANG
  else if Ascii.eqb c "=" then Some TOK_EQ
  else if Ascii.eqb c "(" then Some TOK_LPAREN
  else if Ascii.eqb c ")" then Some TOK_RPAREN
  else if Ascii.eqb c "{" then Some TOK_LBRACE
  else if Ascii.eqb c "}" then Some TOK_RBRACE
  else if Ascii.eqb c "[" then Some TOK_LBRACKET
  else if Ascii.eqb c "]" then Some TOK_RBRACKET
  else if Ascii.eqb c "," then Some TOK_COMMA
  else if Ascii.eqb c ":" then Some TOK_COLON
  else if Ascii.eqb c "#" then Some TOK_HASH
  else if Ascii.eqb c "." then Some TOK_ERROR
  else None.

Definition lexer_next (lex0 : Lexer) : Token * Lexer :=
  let lex := skip_whitespace lex0 in
  if is_at_end lex then (make_token lex TOK_EOF (current lex), lex)
  else
    let start := current lex in
    let (c, lex1) := advance lex in
    if Ascii.eqb c LF then
      (make_token lex1 TOK_EOL start,
       mkLexer (source lex1) (current lex1) (current lex1) (line lex1 + 1))
    else if Ascii.eqb c "$" then parse_hex lex1 start
    else if Ascii.eqb c "%" && is_binary_digit (peek lex1) then parse_binary lex1 start
    else if is_digit c then parse_decimal lex1 start
    else if Ascii.eqb c SQUOTE then parse_char lex1 start
    else if Ascii.eqb c DQUOTE then parse_string lex1 start
    else if is_alpha c then parse_identifier lex1 start
    else if Ascii.eqb c "." && is_alpha (peek lex1) then parse_local_label lex1 start
    else if Ascii.eqb c "!" && is_alnum (peek lex1) then parse_directive lex1 start
    else if Ascii.eqb c "+" then parse_macro_or_anon lex1 start
    else if Ascii.eqb c "-" then parse_anon_back lex1 start
    else if Ascii.eqb c "<" then
      let (m1, l1) := match_char lex1 "<" in
      if m1 then (make_token l1 TOK_LSHIFT start, l1) else
      let (m2, l2) := match_char lex1 "=" in
      if m2 then (make_token l2 TOK_LE start, l2) else
      let (m3, l3) := match_char lex1 ">" in
      if m3 then (make_token l3 TOK_NE start, l3) else
      (make_token lex1 TOK_LT start, lex1)
    else if Ascii.eqb c ">" then
      let (m1, l1) := match_char lex1 ">" in
      if m1 then (make_token l1 TOK_RSHIFT start, l1) else
      let (m2, l2) := match_char lex1 "=" in
      if m2 then (make_token l2 TOK_GE start, l2) else
      (make_token lex1 TOK_GT start, lex1)
    else
      match single_char_token c with
      | Some ty => (make_token lex1 ty start, lex1)
      | None => (error_token lex1 "unexpected character", lex1)
      end.

(** The text a token covers ([token_text]). *)
Definition token_text (src : list ascii) (tok : Token) : list ascii :=
  match tok_start tok with
  | InSource p => firstn (Z.to_nat (tok_length tok)) (skipn p src)
  | Message m => list_ascii_of_string m
  end.




End Lexer.

Definition src_of (s : string) : list ascii := list_ascii_of_string s.


(** * The symbol store and the anonymous-label tracker ([symbols.c]) *)

Module Symbols.

(** [SymbolFlags] *)
Definition SYM_NONE : Z := 0.
Definition SYM_DEFINED : Z := 1.
Definition SYM_ZEROPAGE : Z := 2.
Definition SYM_CONSTANT : Z := 4.
Definition SYM_REFERENCED : Z := 8.
Definition SYM_LOCAL : Z := 16.
Definition SYM_EXPORTED : Z := 32.
Definition SYM_FORCE_UPDATE : Z := 64.

(** [flags & bit] as a truth value. *)
Definition has_flag (flags bit : Z) : bool := negb (Z.land flags bit =? 0).

Record Symbol : Set := mkSymbol {
  name : string;
  display_name : string;
  value : Z;            (* int32_t *)
  flags : Z;            (* uint8_t *)
  file : string;
  line : Z
}.

(** The hash table: [buckets] is the array of chains, heads first. *)
Record SymbolTable : Set := mkSymbolTable {
  buckets : list (list Symbol);
  size : Z;
  count : Z
}.

(** [hash = ((hash << 5) + hash) + toupper(c)] on an [unsigned int]. *)
Fixpoint hash_loop (str : string) (hash : Z) : Z :=
  match str with
  | EmptyString => hash
  | String c str' =>
      hash_loop str' (to_uint32 (to_uint32 (to_uint32 (Z.shiftl hash 5) + hash) + code (toupper c)))
  end.

Definition hash_symbol (str : string) : Z := hash_loop str 5381.

Fixpoint str_equal_nocase (a b : string) : bool :=
  match a, b with
  | String ca a', String cb b' =>
      if negb (Ascii.eqb (toupper ca) (toupper cb)) then false
      else str_equal_nocase a' b'
  | EmptyString, EmptyString => true
  | _, _ => false
  end.

Definition symbol_table_create (size : Z) : SymbolTable :=
  mkSymbolTable (repeat [] (Z.to_nat size)) size 0.

Definition bucket_of (table : SymbolTable) (nm : string) : nat :=
  Z.to_nat (hash_symbol nm mod size table).

Definition chain_at (table : SymbolTable) (b : nat) : list Symbol :=
  nth b (buckets table) [].

Definition set_value_flags (sym : Symbol) (v f : Z) : Symbol :=
  mkSymbol (name sym) (display_name sym) v f (file sym) (line sym).

(** The chain walk of [symbol_define].  [None]: no entry carries the name;
    [Some (None, chain)]: the entry is a constant and the call is refused;
    [Some (Some sym, chain')]: the entry was updated in place. *)
Fixpoint chain_define (chain : list Symbol) (nm : string) (v fl : Z)
  : option (option Symbol * list Symbol) :=
  match chain with
  | [] => None
  | sym :: chain' =>
      if str_equal_nocase (name sym) nm then
        if has_flag (flags sym) SYM_CONSTANT then
          if has_flag fl SYM_FORCE_UPDATE then
            let f1 := to_uint8 (Z.land (flags sym) (Z.lnot SYM_CONSTANT)) in
            let sym' := set_value_flags sym v
                          (to_uint8 (Z.lor f1 (Z.lor (Z.land fl (Z.lnot SYM_FORCE_UPDATE)) SYM_DEFINED))) in
            Some (Some sym', sym' :: chain')
          else Some (None, chain)
        else
          let sym' := set_value_flags sym v
                        (to_uint8 (Z.lor (flags sym) (Z.lor (Z.land fl (Z.lnot SYM_FORCE_UPDATE)) SYM_DEFINED))) in
          Some (Some sym', sym' :: chain')
      else
        match chain_define chain' nm v fl with
        | None => None
        | Some (r, chain'') => Some (r, sym :: chain'')
        end
  end.

Definition set_bucket (table : SymbolTable) (b : nat) (chain : list Symbol) (cnt : Z) : SymbolTable :=
  mkSymbolTable (<[b := chain]> (buckets table)) (size table) cnt.

(** [symbol_define] on a table and a name that are not null; allocation
    does not fail.  The result is the returned pointer ([None] for NULL)
    and the table afterwards. *)
Definition symbol_define (table : SymbolTable) (nm : string) (v : Z) (fl : Z)
                         (fi : string) (ln : Z) : option Symbol * SymbolTable :=
  let bucket := bucket_of table nm in
  match chain_define (chain_at table bucket) nm v fl with
  | Some (Some sym', chain') => (Some sym', set_bucket table bucket chain' (count table))
  | Some (None, _) => (None, table)
  | None =>
      let sym := mkSymbol nm nm v (to_uint8 (Z.lor fl SYM_DEFINED)) fi ln in
      (Some sym, set_bucket table bucket (sym :: chain_at table bucket) (count table + 1))
  end.

(** The entry a granted update leaves: the value is overwritten, CONSTANT
    is cleared first if it was set, then the request's bits without
    FORCE_UPDATE and DEFINED are or-ed in. *)
Definition updated (old : Symbol) (v fl : Z) : Symbol :=
  let kept := if has_flag (flags old) SYM_CONSTANT
              then to_uint8 (Z.land (flags old) (Z.lnot SYM_CONSTANT)) else flags old in
  set_value_flags old v
    (to_uint8 (Z.lor kept (Z.lor (Z.land fl (Z.lnot SYM_FORCE_UPDATE)) SYM_DEFINED))).

(** The name as the hash and the comparison see it. *)
Fixpoint upper (s : string) : string :=
  match s with
  | String c s' => String (toupper c) (upper s')
  | EmptyString => EmptyString
  end.

(** A table as [symbol_table_create] builds it for a positive size: the
    array has [size] chains. *)
Definition table_ok (table : SymbolTable) : bool :=
  (0 <? size table) && Nat.eqb (length (buckets table)) (Z.to_nat (size table)).

Fixpoint chain_lookup (chain : list Symbol) (nm : string) : option Symbol :=
  match chain with
  | [] => None
  | sym :: chain' => if str_equal_nocase (name sym) nm then Some sym else chain_lookup chain' nm
  end.

Definition symbol_lookup (table : SymbolTable) (nm : string) : option Symbol :=
  chain_lookup (chain_at table (bucket_of table nm)) nm.

Definition symbol_is_defined (table : SymbolTable) (nm : string) : bool :=
  match symbol_lookup table nm with
  | Some sym => has_flag (flags sym) SYM_DEFINED
  | None => false
  end.

(** *** Anonymous labels *)

Record AnonLabel : Set := mkAnonLabel {
  address : Z;          (* uint16_t *)
  afile : string;
  aline : Z
}.

(** The two arrays with their counts (the length of each list); growing an
    array does not fail.  [anon_reset_pass] and [anon_clear] only reset
    counts, so entries beyond a count are never read again and are dropped
    here. *)
Record AnonLabels : Set := mkAnonLabels {
  forward : list AnonLabel;
  forward_index : Z;
  backward : list AnonLabel
}.

Definition forward_count (anon : AnonLabels) : Z := Z.of_nat (length (forward anon)).
Definition backward_count (anon : AnonLabels) : Z := Z.of_nat (length (backward anon)).

Definition anon_create : AnonLabels := mkAnonLabels [] 0 [].

Definition anon_reset_pass (anon : AnonLabels) : AnonLabels :=
  mkAnonLabels (forward anon) 0 [].

Definition anon_clear (anon : AnonLabels) : AnonLabels := mkAnonLabels [] 0 [].

Definition anon_define_forward (anon : AnonLabels) (addr : Z) (fi : string) (ln : Z) : AnonLabels :=
  mkAnonLabels (forward anon ++ [mkAnonLabel (to_uint16 addr) fi ln])
               (forward_index anon) (backward anon).

Definition anon_define_backward (anon : AnonLabels) (addr : Z) (fi : string) (ln : Z) : AnonLabels :=
  mkAnonLabels (forward anon) (forward_index anon)
               (backward anon ++ [mkAnonLabel (to_uint16 addr) fi ln]).

(** A read of [arr[i]]; the callers have checked the index. *)
Definition label_at (arr : list AnonLabel) (i : Z) : Z :=
  match arr !! Z.to_nat i with
  | Some l => to_uint16 (address l)
  | None => 0
  end.

Definition anon_resolve_forward (anon : option AnonLabels) (cnt : Z) : Z :=
  match anon with
  | None => -1
  | Some a =>
      if cnt <? 1 then -1
      else
        let target_index := forward_index a + cnt - 1 in
        if forward_count a <=? target_index then -1
        else label_at (forward a) target_index
  end.

Definition anon_resolve_backward (anon : option AnonLabels) (cnt : Z) : Z :=
  match anon with
  | None => -1
  | Some a =>
      if cnt <? 1 then -1
      else
        let target_index := backward_count a - cnt in
        if target_index <? 0 then -1
        else label_at (backward a) target_index
  end.

Definition anon_advance_forward (anon : option AnonLabels) : option AnonLabels :=
  match anon with
  | None => None
  | Some a =>
      if forward_index a <? forward_count a
      then Some (mkAnonLabels (forward a) (forward_index a + 1) (backward a))
      else Some a
  end.

End Symbols.

(** * Expressions ([expr.c]) *)

Module Expr.

Import Symbols.

Inductive UnaryOp : Set := UNARY_NEG | UNARY_NOT | UNARY_COMP | UNARY_LOW | UNARY_HIGH.

Inductive BinaryOp : Set :=
| BINARY_ADD | BINARY_SUB | BINARY_MUL | BINARY_DIV | BINARY_MOD
| BINARY_AND | BINARY_OR | BINARY_XOR | BINARY_SHL | BINARY_SHR
| BINARY_EQ | BINARY_NE | BINARY_LT | BINARY_GT | BINARY_LE | BINARY_GE.

Inductive Expr : Set :=
| EXPR_NUMBER (number : Z)
| EXPR_SYMBOL (symbol : string)
| EXPR_CURRENT
| EXPR_UNARY (op : UnaryOp) (operand : Expr)
| EXPR_BINARY (op : BinaryOp) (left right : Expr).

Record ExprResult : Set := mkResult {
  value : Z;
  defined : bool;
  is_zeropage : bool
}.

(** [atoi]: leading white space, an optional sign, then decimal digits;
    the result is an [int]. *)
Definition is_space (c : ascii) : bool :=
  Ascii.eqb c " " || ((9 <=? code c) && (code c <=? 13)).

Fixpoint atoi_digits (s : string) (acc : Z) : Z :=
  match s with
  | String c s' => if Lexer.is_digit c then atoi_digits s' (acc * 10 + (code c - 48)) else acc
  | EmptyString => acc
  end.

Fixpoint atoi (s : string) : Z :=
  match s with
  | String c s' =>
      if is_space c then atoi s'
      else if Ascii.eqb c "-" then to_int32 (- atoi_digits s' 0)
      else if Ascii.eqb c "+" then to_int32 (atoi_digits s' 0)
      else to_int32 (atoi_digits s 0)
  | EmptyString => 0
  end.

(** [name + n] for a name of at least [n] characters. *)
Fixpoint string_drop (n : nat) (s : string) : string :=
  match n, s with
  | S n', String _ s' => string_drop n' s'
  | _, _ => s
  end.

(** [mangle_local_name]: the caller has checked that the name starts
    with a dot. *)
Definition mangle_local_name (nm : string) (zone : option string) : string :=
  let local_part := string_drop 1 nm in
  match zone with
  | None => "_global." ++ local_part
  | Some z =>
      match z with
      | EmptyString => "_global." ++ local_part
      | _ => z ++ "." ++ local_part
      end
  end%string.

Definition starts_with_dot (nm : string) : bool :=
  match nm with
  | String c _ => Ascii.eqb c "."
  | EmptyString => false
  end.

Definition in_byte_range (v : Z) : bool := (0 <=? v) && (v <=? 255).

(** Shift counts: the hardware uses the low five bits of the count. *)
Definition shift_count (r : Z) : Z := Z.land r 31.

Definition eval_unary (op : UnaryOp) (operand : ExprResult) : ExprResult :=
  match op with
  | UNARY_NEG => mkResult (to_int32 (- value operand)) (defined operand) false
  | UNARY_NOT => mkResult (if value operand =? 0 then 1 else 0) (defined operand) false
  | UNARY_COMP => mkResult (Z.lnot (value operand)) (defined operand) false
  | UNARY_LOW => mkResult (Z.land (value operand) 255) (defined operand) true
  | UNARY_HIGH => mkResult (Z.land (Z.shiftr (value operand) 8) 255) (defined operand) true
  end.

Definition bool_int (b : bool) : Z := if b then 1 else 0.

Definition binary_value (op : BinaryOp) (l r : Z) : Z :=
  match op with
  | BINARY_ADD => to_int32 (l + r)
  | BINARY_SUB => to_int32 (l - r)
  | BINARY_MUL => to_int32 (l * r)
  | BINARY_DIV => if r =? 0 then 0 else to_int32 (Z.quot l r)
  | BINARY_MOD => if r =? 0 then 0 else to_int32 (Z.rem l r)
  | BINARY_AND => Z.land l r
  | BINARY_OR => Z.lor l r
  | BINARY_XOR => Z.lxor l r
  | BINARY_SHL => to_int32 (Z.shiftl l (shift_count r))
  | BINARY_SHR => to_int32 (Z.shiftr (to_uint32 l) (shift_count r))
  | BINARY_EQ => bool_int (l =? r)
  | BINARY_NE => bool_int (negb (l =? r))
  | BINARY_LT => bool_int (l <? r)
  | BINARY_GT => bool_int (r <? l)
  | BINARY_LE => bool_int (l <=? r)
  | BINARY_GE => bool_int (r <=? l)
  end.

Definition eval_binary (op : BinaryOp) (l r : ExprResult) : ExprResult :=
  let d := defined l && defined r in
  let v := binary_value op (value l) (value r) in
  mkResult v d (if d then in_byte_range v else false).

(** The [EXPR_SYMBOL] case of [expr_eval]. *)
Definition eval_symbol (nm : string) (symbols : option SymbolTable)
                       (anon : option AnonLabels) (pass : Z) (current_zone : option string)
  : ExprResult * option AnonLabels :=
  if String.prefix "__anon_fwd_" nm then
    let cnt := atoi (string_drop 11 nm) in
    if pass =? 1 then (mkResult 0 false false, anon)
    else
      let addr := anon_resolve_forward anon cnt in
      let r := if addr <? 0 then mkResult 0 false false
               else mkResult addr true (addr <=? 255) in
      (r, anon_advance_forward anon)
  else if String.prefix "__anon_back_" nm then
    let cnt := atoi (string_drop 12 nm) in
    let addr := anon_resolve_backward anon cnt in
    if addr <? 0 then (mkResult 0 false false, anon)
    else (mkResult addr true (addr <=? 255), anon)
  else
    match symbols with
    | None => (mkResult 0 false false, anon)
    | Some table =>
        let nm' := if starts_with_dot nm then mangle_local_name nm current_zone else nm in
        match symbol_lookup table nm' with
        | Some sym =>
            if has_flag (flags sym) SYM_DEFINED then
              (mkResult (Symbols.value sym) true
                        (has_flag (flags sym) SYM_ZEROPAGE || in_byte_range (Symbols.value sym)),
               anon)
            else (mkResult 0 false false, anon)
        | None => (mkResult 0 false false, anon)
        end
    end.

(** [expr_eval] on an expression that is not null.  The tracker is threaded
    through the evaluation because a forward reference advances its cursor. *)
Fixpoint expr_eval (expr : Expr) (symbols : option SymbolTable) (anon : option AnonLabels)
                   (pc : Z) (pass : Z) (current_zone : option string)
  : ExprResult * option AnonLabels :=
  match expr with
  | EXPR_NUMBER n => (mkResult n true (in_byte_range n), anon)
  | EXPR_CURRENT => (mkResult pc true (pc <=? 255), anon)
  | EXPR_SYMBOL nm => eval_symbol nm symbols anon pass current_zone
  | EXPR_UNARY op e =>
      let (operand, anon1) := expr_eval e symbols anon pc pass current_zone in
      (eval_unary op operand, anon1)
  | EXPR_BINARY op l r =>
      let (lv, anon1) := expr_eval l symbols anon pc pass current_zone in
      let (rv, anon2) := expr_eval r symbols anon1 pc pass current_zone in
      (eval_binary op lv rv, anon2)
  end.

(** [expr_eval] on a pointer that may be null. *)
Definition expr_eval_opt (expr : option Expr) (symbols : option SymbolTable)
                         (anon : option AnonLabels) (pc : Z) (pass : Z)
                         (current_zone : option string)
  : ExprResult * option AnonLabels :=
  match expr with
  | None => (mkResult 0 false false, anon)
  | Some e => expr_eval e symbols anon pc pass current_zone
  end.



Definition anon_back_count (nm : string) : option Z :=
  if String.prefix "__anon_fwd_" nm then None
  else if String.prefix "__anon_back_" nm then Some (atoi (string_drop 12 nm))
  else None.

(** The symbol [nm] occurs in the expression. *)
Fixpoint contains_symbol (nm : string) (e : Expr) : bool :=
  match e with
  | EXPR_SYMBOL nm' => String.eqb nm' nm
  | EXPR_UNARY _ e' => contains_symbol nm e'
  | EXPR_BINARY _ l r => contains_symbol nm l || contains_symbol nm r
  | _ => false
  end.




End Expr.


(** * The opcode table ([opcodes.h], [opcodes.c]) *)

Module Opcodes.

Inductive AddressingMode : Set :=
| ADDR_IMPLIED | ADDR_ACCUMULATOR | ADDR_IMMEDIATE
| ADDR_ZEROPAGE | ADDR_ZEROPAGE_X | ADDR_ZEROPAGE_Y
| ADDR_ABSOLUTE | ADDR_ABSOLUTE_X | ADDR_ABSOLUTE_Y
| ADDR_INDIRECT | ADDR_INDIRECT_X | ADDR_INDIRECT_Y
| ADDR_RELATIVE | ADDR_INVALID.

Definition mode_eqb (a b : AddressingMode) : bool :=
  match a, b with
  | ADDR_IMPLIED, ADDR_IMPLIED | ADDR_ACCUMULATOR, ADDR_ACCUMULATOR
  | ADDR_IMMEDIATE, ADDR_IMMEDIATE | ADDR_ZEROPAGE, ADDR_ZEROPAGE
  | ADDR_ZEROPAGE_X, ADDR_ZEROPAGE_X | ADDR_ZEROPAGE_Y, ADDR_ZEROPAGE_Y
  | ADDR_ABSOLUTE, ADDR_ABSOLUTE | ADDR_ABSOLUTE_X, ADDR_ABSOLUTE_X
  | ADDR_ABSOLUTE_Y, ADDR_ABSOLUTE_Y | ADDR_INDIRECT, ADDR_INDIRECT
  | ADDR_INDIRECT_X, ADDR_INDIRECT_X | ADDR_INDIRECT_Y, ADDR_INDIRECT_Y
  | ADDR_RELATIVE, ADDR_RELATIVE | ADDR_INVALID, ADDR_INVALID => true
  | _, _ => false
  end.

Record OpcodeEntry : Set := mkOpcode {
  mnemonic : string;
  mode : AddressingMode;
  opcode : Z;
  size : Z;
  cycles : Z;
  page_penalty : Z
}.

#[local] Open Scope string_scope.

(** [opcode_table], without its sentinel. *)
Definition opcode_table : list OpcodeEntry := [
  mkOpcode "ADC" ADDR_IMMEDIATE 105 2 2 0;
  mkOpcode "ADC" ADDR_ZEROPAGE 101 2 3 0;
  mkOpcode "ADC" ADDR_ZEROPAGE_X 117 2 4 0;
  mkOpcode "ADC" ADDR_ABSOLUTE 109 3 4 0;
  mkOpcode "ADC" ADDR_ABSOLUTE_X 125 3 4 1;
  mkOpcode "ADC" ADDR_ABSOLUTE_Y 121 3 4 1;
  mkOpcode "ADC" ADDR_INDIRECT_X 97 2 6 0;
  mkOpcode "ADC" ADDR_INDIRECT_Y 113 2 5 1;
  mkOpcode "AND" ADDR_IMMEDIATE 41 2 2 0;
  mkOpcode "AND" ADDR_ZEROPAGE 37 2 3 0;
  mkOpcode "AND" ADDR_ZEROPAGE_X 53 2 4 0;
  mkOpcode "AND" ADDR_ABSOLUTE 45 3 4 0;
  mkOpcode "AND" ADDR_ABSOLUTE_X 61 3 4 1;
  mkOpcode "AND" ADDR_ABSOLUTE_Y 57 3 4 1;
  mkOpcode "AND" ADDR_INDIRECT_X 33 2 6 0;
  mkOpcode "AND" ADDR_INDIRECT_Y 49 2 5 1;
  mkOpcode "ASL" ADDR_ACCUMULATOR 10 1 2 0;
  mkOpcode "ASL" ADDR_ZEROPAGE 6 2 5 0;
  mkOpcode "ASL" ADDR_ZEROPAGE_X 22 2 6 0;
  mkOpcode "ASL" ADDR_ABSOLUTE 14 3 6 0;
  mkOpcode "ASL" ADDR_ABSOLUTE_X 30 3 7 0;
  mkOpcode "BCC" ADDR_RELATIVE 144 2 2 1;
  mkOpcode "BCS" ADDR_RELATIVE 176 2 2 1;
  mkOpcode "BEQ" ADDR_RELATIVE 240 2 2 1;
  mkOpcode "BMI" ADDR_RELATIVE 48 2 2 1;
  mkOpcode "BNE" ADDR_RELATIVE 208 2 2 1;
  mkOpcode "BPL" ADDR_RELATIVE 16 2 2 1;
  mkOpcode "BVC" ADDR_RELATIVE 80 2 2 1;
  mkOpcode "BVS" ADDR_RELATIVE 112 2 2 1;
  mkOpcode "BIT" ADDR_ZEROPAGE 36 2 3 0;
  mkOpcode "BIT" ADDR_ABSOLUTE 44 3 4 0;
  mkOpcode "BRK" ADDR_IMPLIED 0 1 7 0;
  mkOpcode "CLC" ADDR_IMPLIED 24 1 2 0;
  mkOpcode "CLD" ADDR_IMPLIED 216 1 2 0;
  mkOpcode "CLI" ADDR_IMPLIED 88 1 2 0;
  mkOpcode "CLV" ADDR_IMPLIED 184 1 2 0;
  mkOpcode "CMP" ADDR_IMMEDIATE 201 2 2 0;
  mkOpcode "CMP" ADDR_ZEROPAGE 197 2 3 0;
  mkOpcode "CMP" ADDR_ZEROPAGE_X 213 2 4 0;
  mkOpcode "CMP" ADDR_ABSOLUTE 205 3 4 0;
  mkOpcode "CMP" ADDR_ABSOLUTE_X 221 3 4 1;
  mkOpcode "CMP" ADDR_ABSOLUTE_Y 217 3 4 1;
  mkOpcode "CMP" ADDR_INDIRECT_X 193 2 6 0;
  mkOpcode "CMP" ADDR_INDIRECT_Y 209 2 5 1;
  mkOpcode "CPX" ADDR_IMMEDIATE 224 2 2 0;
  mkOpcode "CPX" ADDR_ZEROPAGE 228 2 3 0;
  mkOpcode "CPX" ADDR_ABSOLUTE 236 3 4 0;
  mkOpcode "CPY" ADDR_IMMEDIATE 192 2 2 0;
  mkOpcode "CPY" ADDR_ZEROPAGE 196 2 3 0;
  mkOpcode "CPY" ADDR_ABSOLUTE 204 3 4 0;
  mkOpcode "DEC" ADDR_ZEROPAGE 198 2 5 0;
  mkOpcode "DEC" ADDR_ZEROPAGE_X 214 2 6 0;
  mkOpcode "DEC" ADDR_ABSOLUTE 206 3 6 0;
  mkOpcode "DEC" ADDR_ABSOLUTE_X 222 3 7 0;
  mkOpcode "DEX" ADDR_IMPLIED 202 1 2 0;
  mkOpcode "DEY" ADDR_IMPLIED 136 1 2 0;
  mkOpcode "EOR" ADDR_IMMEDIATE 73 2 2 0;
  mkOpcode "EOR" ADDR_ZEROPAGE 69 2 3 0;
  mkOpcode "EOR" ADDR_ZEROPAGE_X 85 2 4 0;
  mkOpcode "EOR" ADDR_ABSOLUTE 77 3 4 0;
  mkOpcode "EOR" ADDR_ABSOLUTE_X 93 3 4 1;
  mkOpcode "EOR" ADDR_ABSOLUTE_Y 89 3 4 1;
  mkOpcode "EOR" ADDR_INDIRECT_X 65 2 6 0;
  mkOpcode "EOR" ADDR_INDIRECT_Y 81 2 5 1;
  mkOpcode "INC" ADDR_ZEROPAGE 230 2 5 0;
  mkOpcode "INC" ADDR_ZEROPAGE_X 246 2 6 0;
  mkOpcode "INC" ADDR_ABSOLUTE 238 3 6 0;
  mkOpcode "INC" ADDR_ABSOLUTE_X 254 3 7 0;
  mkOpcode "INX" ADDR_IMPLIED 232 1 2 0;
  mkOpcode "INY" ADDR_IMPLIED 200 1 2 0;
  mkOpcode "JMP" ADDR_ABSOLUTE 76 3 3 0;
  mkOpcode "JMP" ADDR_INDIRECT 108 3 5 0;
  mkOpcode "JSR" ADDR_ABSOLUTE 32 3 6 0;
  mkOpcode "LDA" ADDR_IMMEDIATE 169 2 2 0;
  mkOpcode "LDA" ADDR_ZEROPAGE 165 2 3 0;
  mkOpcode "LDA" ADDR_ZEROPAGE_X 181 2 4 0;
  mkOpcode "LDA" ADDR_ABSOLUTE 173 3 4 0;
  mkOpcode "LDA" ADDR_ABSOLUTE_X 189 3 4 1;
  mkOpcode "LDA" ADDR_ABSOLUTE_Y 185 3 4 1;
  mkOpcode "LDA" ADDR_INDIRECT_X 161 2 6 0;
  mkOpcode "LDA" ADDR_INDIRECT_Y 177 2 5 1;
  mkOpcode "LDX" ADDR_IMMEDIATE 162 2 2 0;
  mkOpcode "LDX" ADDR_ZEROPAGE 166 2 3 0;
  mkOpcode "LDX" ADDR_ZEROPAGE_Y 182 2 4 0;
  mkOpcode "LDX" ADDR_ABSOLUTE 174 3 4 0;
  mkOpcode "LDX" ADDR_ABSOLUTE_Y 190 3 4 1;
  mkOpcode "LDY" ADDR_IMMEDIATE 160 2 2 0;
  mkOpcode "LDY" ADDR_ZEROPAGE 164 2 3 0;
  mkOpcode "LDY" ADDR_ZEROPAGE_X 180 2 4 0;
  mkOpcode "LDY" ADDR_ABSOLUTE 172 3 4 0;
  mkOpcode "LDY" ADDR_ABSOLUTE_X 188 3 4 1;
  mkOpcode "LSR" ADDR_ACCUMULATOR 74 1 2 0;
  mkOpcode "LSR" ADDR_ZEROPAGE 70 2 5 0;
  mkOpcode "LSR" ADDR_ZEROPAGE_X 86 2 6 0;
  mkOpcode "LSR" ADDR_ABSOLUTE 78 3 6 0;
  mkOpcode "LSR" ADDR_ABSOLUTE_X 94 3 7 0;
  mkOpcode "NOP" ADDR_IMPLIED 234 1 2 0;
  mkOpcode "ORA" ADDR_IMMEDIATE 9 2 2 0;
  mkOpcode "ORA" ADDR_ZEROPAGE 5 2 3 0;
  mkOpcode "ORA" ADDR_ZEROPAGE_X 21 2 4 0;
  mkOpcode "ORA" ADDR_ABSOLUTE 13 3 4 0;
  mkOpcode "ORA" ADDR_ABSOLUTE_X 29 3 4 1;
  mkOpcode "ORA" ADDR_ABSOLUTE_Y 25 3 4 1;
  mkOpcode "ORA" ADDR_INDIRECT_X 1 2 6 0;
  mkOpcode "ORA" ADDR_INDIRECT_Y 17 2 5 1;
  mkOpcode "PHA" ADDR_IMPLIED 72 1 3 0;
  mkOpcode "PHP" ADDR_IMPLIED 8 1 3 0;
  mkOpcode "PLA" ADDR_IMPLIED 104 1 4 0;
  mkOpcode "PLP" ADDR_IMPLIED 40 1 4 0;
  mkOpcode "ROL" ADDR_ACCUMULATOR 42 1 2 0;
  mkOpcode "ROL" ADDR_ZEROPAGE 38 2 5 0;
  mkOpcode "ROL" ADDR_ZEROPAGE_X 54 2 6 0;
  mkOpcode "ROL" ADDR_ABSOLUTE 46 3 6 0;
  mkOpcode "ROL" ADDR_ABSOLUTE_X 62 3 7 0;
  mkOpcode "ROR" ADDR_ACCUMULATOR 106 1 2 0;
  mkOpcode "ROR" ADDR_ZEROPAGE 102 2 5 0;
  mkOpcode "ROR" ADDR_ZEROPAGE_X 118 2 6 0;
  mkOpcode "ROR" ADDR_ABSOLUTE 110 3 6 0;
  mkOpcode "ROR" ADDR_ABSOLUTE_X 126 3 7 0;
  mkOpcode "RTI" ADDR_IMPLIED 64 1 6 0;
  mkOpcode "RTS" ADDR_IMPLIED 96 1 6 0;
  mkOpcode "SBC" ADDR_IMMEDIATE 233 2 2 0;
  mkOpcode "SBC" ADDR_ZEROPAGE 229 2 3 0;
  mkOpcode "SBC" ADDR_ZEROPAGE_X 245 2 4 0;
  mkOpcode "SBC" ADDR_ABSOLUTE 237 3 4 0;
  mkOpcode "SBC" ADDR_ABSOLUTE_X 253 3 4 1;
  mkOpcode "SBC" ADDR_ABSOLUTE_Y 249 3 4 1;
  mkOpcode "SBC" ADDR_INDIRECT_X 225 2 6 0;
  mkOpcode "SBC" ADDR_INDIRECT_Y 241 2 5 1;
  mkOpcode "SEC" ADDR_IMPLIED 56 1 2 0;
  mkOpcode "SED" ADDR_IMPLIED 248 1 2 0;
  mkOpcode "SEI" ADDR_IMPLIED 120 1 2 0;
  mkOpcode "STA" ADDR_ZEROPAGE 133 2 3 0;
  mkOpcode "STA" ADDR_ZEROPAGE_X 149 2 4 0;
  mkOpcode "STA" ADDR_ABSOLUTE 141 3 4 0;
  mkOpcode "STA" ADDR_ABSOLUTE_X 157 3 5 0;
  mkOpcode "STA" ADDR_ABSOLUTE_Y 153 3 5 0;
  mkOpcode "STA" ADDR_INDIRECT_X 129 2 6 0;
  mkOpcode "STA" ADDR_INDIRECT_Y 145 2 6 0;
  mkOpcode "STX" ADDR_ZEROPAGE 134 2 3 0;
  mkOpcode "STX" ADDR_ZEROPAGE_Y 150 2 4 0;
  mkOpcode "STX" ADDR_ABSOLUTE 142 3 4 0;
  mkOpcode "STY" ADDR_ZEROPAGE 132 2 3 0;
  mkOpcode "STY" ADDR_ZEROPAGE_X 148 2 4 0;
  mkOpcode "STY" ADDR_ABSOLUTE 140 3 4 0;
  mkOpcode "TAX" ADDR_IMPLIED 170 1 2 0;
  mkOpcode "TAY" ADDR_IMPLIED 168 1 2 0;
  mkOpcode "TSX" ADDR_IMPLIED 186 1 2 0;
  mkOpcode "TXA" ADDR_IMPLIED 138 1 2 0;
  mkOpcode "TXS" ADDR_IMPLIED 154 1 2 0;
  mkOpcode "TYA" ADDR_IMPLIED 152 1 2 0;
  mkOpcode "LAX" ADDR_ZEROPAGE 167 2 3 0;
  mkOpcode "LAX" ADDR_ZEROPAGE_Y 183 2 4 0;
  mkOpcode "LAX" ADDR_ABSOLUTE 175 3 4 0;
  mkOpcode "LAX" ADDR_ABSOLUTE_Y 191 3 4 1;
  mkOpcode "LAX" ADDR_INDIRECT_X 163 2 6 0;
  mkOpcode "LAX" ADDR_INDIRECT_Y 179 2 5 1;
  mkOpcode "SAX" ADDR_ZEROPAGE 135 2 3 0;
  mkOpcode "SAX" ADDR_ZEROPAGE_Y 151 2 4 0;
  mkOpcode "SAX" ADDR_ABSOLUTE 143 3 4 0;
  mkOpcode "SAX" ADDR_INDIRECT_X 131 2 6 0;
  mkOpcode "DCP" ADDR_ZEROPAGE 199 2 5 0;
  mkOpcode "DCP" ADDR_ZEROPAGE_X 215 2 6 0;
  mkOpcode "DCP" ADDR_ABSOLUTE 207 3 6 0;
  mkOpcode "DCP" ADDR_ABSOLUTE_X 223 3 7 0;
  mkOpcode "DCP" ADDR_ABSOLUTE_Y 219 3 7 0;
  mkOpcode "DCP" ADDR_INDIRECT_X 195 2 8 0;
  mkOpcode "DCP" ADDR_INDIRECT_Y 211 2 8 0;
  mkOpcode "DCM" ADDR_ZEROPAGE 199 2 5 0;
  mkOpcode "DCM" ADDR_ZEROPAGE_X 215 2 6 0;
  mkOpcode "DCM" ADDR_ABSOLUTE 207 3 6 0;
  mkOpcode "DCM" ADDR_ABSOLUTE_X 223 3 7 0;
  mkOpcode "DCM" ADDR_ABSOLUTE_Y 219 3 7 0;
  mkOpcode "DCM" ADDR_INDIRECT_X 195 2 8 0;
  mkOpcode "DCM" ADDR_INDIRECT_Y 211 2 8 0;
  mkOpcode "ISC" ADDR_ZEROPAGE 231 2 5 0;
  mkOpcode "ISC" ADDR_ZEROPAGE_X 247 2 6 0;
  mkOpcode "ISC" ADDR_ABSOLUTE 239 3 6 0;
  mkOpcode "ISC" ADDR_ABSOLUTE_X 255 3 7 0;
  mkOpcode "ISC" ADDR_ABSOLUTE_Y 251 3 7 0;
  mkOpcode "ISC" ADDR_INDIRECT_X 227 2 8 0;
  mkOpcode "ISC" ADDR_INDIRECT_Y 243 2 8 0;
  mkOpcode "ISB" ADDR_ZEROPAGE 231 2 5 0;
  mkOpcode "ISB" ADDR_ZEROPAGE_X 247 2 6 0;
  mkOpcode "ISB" ADDR_ABSOLUTE 239 3 6 0;
  mkOpcode "ISB" ADDR_ABSOLUTE_X 255 3 7 0;
  mkOpcode "ISB" ADDR_ABSOLUTE_Y 251 3 7 0;
  mkOpcode "ISB" ADDR_INDIRECT_X 227 2 8 0;
  mkOpcode "ISB" ADDR_INDIRECT_Y 243 2 8 0;
  mkOpcode "INS" ADDR_ZEROPAGE 231 2 5 0;
  mkOpcode "INS" ADDR_ZEROPAGE_X 247 2 6 0;
  mkOpcode "INS" ADDR_ABSOLUTE 239 3 6 0;
  mkOpcode "INS" ADDR_ABSOLUTE_X 255 3 7 0;
  mkOpcode "INS" ADDR_ABSOLUTE_Y 251 3 7 0;
  mkOpcode "INS" ADDR_INDIRECT_X 227 2 8 0;
  mkOpcode "INS" ADDR_INDIRECT_Y 243 2 8 0;
  mkOpcode "SLO" ADDR_ZEROPAGE 7 2 5 0;
  mkOpcode "SLO" ADDR_ZEROPAGE_X 23 2 6 0;
  mkOpcode "SLO" ADDR_ABSOLUTE 15 3 6 0;
  mkOpcode "SLO" ADDR_ABSOLUTE_X 31 3 7 0;
  mkOpcode "SLO" ADDR_ABSOLUTE_Y 27 3 7 0;
  mkOpcode "SLO" ADDR_INDIRECT_X 3 2 8 0;
  mkOpcode "SLO" ADDR_INDIRECT_Y 19 2 8 0;
  mkOpcode "ASO" ADDR_ZEROPAGE 7 2 5 0;
  mkOpcode "ASO" ADDR_ZEROPAGE_X 23 2 6 0;
  mkOpcode "ASO" ADDR_ABSOLUTE 15 3 6 0;
  mkOpcode "ASO" ADDR_ABSOLUTE_X 31 3 7 0;
  mkOpcode "ASO" ADDR_ABSOLUTE_Y 27 3 7 0;
  mkOpcode "ASO" ADDR_INDIRECT_X 3 2 8 0;
  mkOpcode "ASO" ADDR_INDIRECT_Y 19 2 8 0;
  mkOpcode "RLA" ADDR_ZEROPAGE 39 2 5 0;
  mkOpcode "RLA" ADDR_ZEROPAGE_X 55 2 6 0;
  mkOpcode "RLA" ADDR_ABSOLUTE 47 3 6 0;
  mkOpcode "RLA" ADDR_ABSOLUTE_X 63 3 7 0;
  mkOpcode "RLA" ADDR_ABSOLUTE_Y 59 3 7 0;
  mkOpcode "RLA" ADDR_INDIRECT_X 35 2 8 0;
  mkOpcode "RLA" ADDR_INDIRECT_Y 51 2 8 0;
  mkOpcode "SRE" ADDR_ZEROPAGE 71 2 5 0;
  mkOpcode "SRE" ADDR_ZEROPAGE_X 87 2 6 0;
  mkOpcode "SRE" ADDR_ABSOLUTE 79 3 6 0;
  mkOpcode "SRE" ADDR_ABSOLUTE_X 95 3 7 0;
  mkOpcode "SRE" ADDR_ABSOLUTE_Y 91 3 7 0;
  mkOpcode "SRE" ADDR_INDIRECT_X 67 2 8 0;
  mkOpcode "SRE" ADDR_INDIRECT_Y 83 2 8 0;
  mkOpcode "LSE" ADDR_ZEROPAGE 71 2 5 0;
  mkOpcode "LSE" ADDR_ZEROPAGE_X 87 2 6 0;
  mkOpcode "LSE" ADDR_ABSOLUTE 79 3 6 0;
  mkOpcode "LSE" ADDR_ABSOLUTE_X 95 3 7 0;
  mkOpcode "LSE" ADDR_ABSOLUTE_Y 91 3 7 0;
  mkOpcode "LSE" ADDR_INDIRECT_X 67 2 8 0;
  mkOpcode "LSE" ADDR_INDIRECT_Y 83 2 8 0;
  mkOpcode "RRA" ADDR_ZEROPAGE 103 2 5 0;
  mkOpcode "RRA" ADDR_ZEROPAGE_X 119 2 6 0;
  mkOpcode "RRA" ADDR_ABSOLUTE 111 3 6 0;
  mkOpcode "RRA" ADDR_ABSOLUTE_X 127 3 7 0;
  mkOpcode "RRA" ADDR_ABSOLUTE_Y 123 3 7 0;
  mkOpcode "RRA" ADDR_INDIRECT_X 99 2 8 0;
  mkOpcode "RRA" ADDR_INDIRECT_Y 115 2 8 0;
  mkOpcode "ANC" ADDR_IMMEDIATE 11 2 2 0;
  mkOpcode "ANC2" ADDR_IMMEDIATE 43 2 2 0;
  mkOpcode "ALR" ADDR_IMMEDIATE 75 2 2 0;
  mkOpcode "ASR" ADDR_IMMEDIATE 75 2 2 0;
  mkOpcode "ARR" ADDR_IMMEDIATE 107 2 2 0;
  mkOpcode "XAA" ADDR_IMMEDIATE 139 2 2 0;
  mkOpcode "ANE" ADDR_IMMEDIATE 139 2 2 0;
  mkOpcode "AHX" ADDR_ABSOLUTE_Y 159 3 5 0;
  mkOpcode "AHX" ADDR_INDIRECT_Y 147 2 6 0;
  mkOpcode "SHA" ADDR_ABSOLUTE_Y 159 3 5 0;
  mkOpcode "SHA" ADDR_INDIRECT_Y 147 2 6 0;
  mkOpcode "TAS" ADDR_ABSOLUTE_Y 155 3 5 0;
  mkOpcode "SHS" ADDR_ABSOLUTE_Y 155 3 5 0;
  mkOpcode "SHX" ADDR_ABSOLUTE_Y 158 3 5 0;
  mkOpcode "SXA" ADDR_ABSOLUTE_Y 158 3 5 0;
  mkOpcode "SHY" ADDR_ABSOLUTE_X 156 3 5 0;
  mkOpcode "SYA" ADDR_ABSOLUTE_X 156 3 5 0;
  mkOpcode "LAS" ADDR_ABSOLUTE_Y 187 3 4 1;
  mkOpcode "LAR" ADDR_ABSOLUTE_Y 187 3 4 1;
  mkOpcode "USB" ADDR_IMMEDIATE 235 2 2 0;
  mkOpcode "DOP" ADDR_IMMEDIATE 128 2 2 0;
  mkOpcode "DOP" ADDR_ZEROPAGE 4 2 3 0;
  mkOpcode "DOP" ADDR_ZEROPAGE_X 20 2 4 0;
  mkOpcode "TOP" ADDR_ABSOLUTE 12 3 4 0;
  mkOpcode "TOP" ADDR_ABSOLUTE_X 28 3 4 1;
  mkOpcode "JAM" ADDR_IMPLIED 2 1 0 0;
  mkOpcode "KIL" ADDR_IMPLIED 2 1 0 0;
  mkOpcode "HLT" ADDR_IMPLIED 2 1 0 0
].

#[local] Close Scope string_scope.

(** [strcasecmp_local]: the difference of the first pair of characters
    that differ after [toupper], or of the terminators. *)
Fixpoint strcasecmp_local (s1 s2 : string) : Z :=
  match s1, s2 with
  | String a s1', String b s2' =>
      let c1 := code (toupper a) in
      let c2 := code (toupper b) in
      if negb (c1 =? c2) then c1 - c2 else strcasecmp_local s1' s2'
  | String a _, EmptyString => code (toupper a)
  | EmptyString, String b _ => - code (toupper b)
  | EmptyString, EmptyString => 0
  end.

Definition entry_matches (mn : string) (md : AddressingMode) (e : OpcodeEntry) : bool :=
  (strcasecmp_local (mnemonic e) mn =? 0) && mode_eqb (mode e) md.

(** [opcode_find], after [opcodes_init] has counted the whole table. *)
Definition opcode_find (mn : string) (md : AddressingMode) : option OpcodeEntry :=
  List.find (entry_matches mn md) opcode_table.

(** Absolute forms take three bytes and zero-page forms two. *)
Definition form_size_ok (e : OpcodeEntry) : bool :=
  match mode e with
  | ADDR_ABSOLUTE | ADDR_ABSOLUTE_X | ADDR_ABSOLUTE_Y => size e =? 3
  | ADDR_ZEROPAGE | ADDR_ZEROPAGE_X | ADDR_ZEROPAGE_Y => size e =? 2
  | _ => true
  end.

End Opcodes.


(** * Statements and addressing-mode selection ([parser.h], [parser.c]) *)

Module Parser.

Import Expr Opcodes.

Record LabelInfo : Set := mkLabel {
  lname : string;
  is_local : bool;
  is_anon_fwd : bool;
  is_anon_back : bool
}.

Record InstructionInfo : Set := mkInstruction {
  imnemonic : string;
  imode : AddressingMode;
  operand : option Expr;
  iopcode : Z;
  isize : Z;
  icycles : Z;
  ipage_penalty : Z
}.

Record DirectiveInfo : Set := mkDirective {
  dname : string;               (* without the leading ! *)
  args : list Expr;
  string_arg : option string
}.

Record AssignmentInfo : Set := mkAssignment {
  aname : string;
  avalue : option Expr          (* NULL when the right-hand side did not parse *)
}.

Record MacroCallInfo : Set := mkMacroCall {
  mname : string;
  margs : list string
}.

(** [StatementType] with the member of the union that goes with it. *)
Inductive StatementBody : Set :=
| STMT_EMPTY
| STMT_LABEL
| STMT_INSTRUCTION (info : InstructionInfo)
| STMT_DIRECTIVE (dir : DirectiveInfo)
| STMT_ASSIGNMENT (assign : AssignmentInfo)
| STMT_MACRO_CALL (call : MacroCallInfo)
| STMT_ERROR (error_msg : option string).

Record Statement : Set := mkStatement {
  body : StatementBody;
  sline : Z;
  label : option LabelInfo
}.

(** What [parse_operand] returns. *)
Record OperandInfo : Set := mkOperand {
  expr : option Expr;
  has_hash : bool;
  has_x_index : bool;
  has_y_index : bool;
  is_indirect : bool
}.

(** [strcasecmp(a, b) == 0] *)
Definition strcaseeq (a b : string) : bool := strcasecmp_local a b =? 0.

Definition is_branch_instruction (mn : string) : bool :=
  existsb (strcaseeq mn) ["BCC"; "BCS"; "BEQ"; "BMI"; "BNE"; "BPL"; "BVC"; "BVS"]%string.

Definition is_accumulator_optional (mn : string) : bool :=
  existsb (strcaseeq mn) ["ASL"; "LSR"; "ROL"; "ROR"]%string.

Definition found (r : option OpcodeEntry) : bool :=
  match r with Some _ => true | None => false end.

(** The operand is the bare name [A] of a shift or rotate. *)
Definition is_explicit_accumulator (mn : string) (ex : Expr) : bool :=
  match ex with
  | EXPR_SYMBOL nm => strcaseeq nm "A" && is_accumulator_optional mn
  | _ => false
  end.

(** An operand that leaves the choice between a zero-page and an absolute
    form: not a branch target, not immediate, not indirect, not [A]. *)
Definition is_direct_operand (mn : string) (o : OperandInfo) : bool :=
  negb (is_branch_instruction mn) && negb (has_hash o) && negb (is_indirect o)
  && match expr o with
     | Some ex => negb (is_explicit_accumulator mn ex)
     | None => false
     end.

Definition is_absolute_form (md : AddressingMode) : bool :=
  match md with
  | ADDR_ABSOLUTE | ADDR_ABSOLUTE_X | ADDR_ABSOLUTE_Y => true
  | _ => false
  end.

Definition detect_addressing_mode (mn : string) (e : option Expr)
    (has_hash has_x_index has_y_index is_indirect : bool)
    (value : Z) (value_known : bool) : AddressingMode :=
  if is_branch_instruction mn then ADDR_RELATIVE
  else if has_hash then ADDR_IMMEDIATE
  else
    match e with
    | None =>
        if is_accumulator_optional mn && found (opcode_find mn ADDR_ACCUMULATOR)
        then ADDR_ACCUMULATOR else ADDR_IMPLIED
    | Some ex =>
        if is_explicit_accumulator mn ex then ADDR_ACCUMULATOR
        else if is_indirect then
          if has_x_index then ADDR_INDIRECT_X
          else if has_y_index then ADDR_INDIRECT_Y
          else ADDR_INDIRECT
        else if has_x_index then
          if value_known && (0 <=? value) && (value <=? 255)
             && found (opcode_find mn ADDR_ZEROPAGE_X)
          then ADDR_ZEROPAGE_X else ADDR_ABSOLUTE_X
        else if has_y_index then
          if value_known && (0 <=? value) && (value <=? 255)
             && found (opcode_find mn ADDR_ZEROPAGE_Y)
          then ADDR_ZEROPAGE_Y else ADDR_ABSOLUTE_Y
        else
          if value_known && (0 <=? value) && (value <=? 255)
             && found (opcode_find mn ADDR_ZEROPAGE)
          then ADDR_ZEROPAGE else ADDR_ABSOLUTE
    end.

Definition instruction_of (mn : string) (md : AddressingMode) (e : option Expr)
                          (op : OpcodeEntry) : InstructionInfo :=
  mkInstruction mn md e (opcode op) (size op) (cycles op) (page_penalty op).

(** [parse_instruction], from the operand that [parse_operand] has read:
    the operand is evaluated against the symbols known so far (without the
    anonymous-label tracker and without a zone), the mode is chosen and the
    opcode looked up. *)
Definition parse_instruction (symbols : Symbols.SymbolTable) (pc : Z) (pass : Z)
                             (mn : string) (o : OperandInfo) : StatementBody :=
  let (value, value_known) :=
    match expr o with
    | Some ex =>
        let r := fst (expr_eval ex (Some symbols) None pc pass None) in
        (Expr.value r, defined r)
    | None => (0, false)
    end in
  let md := detect_addressing_mode mn (expr o) (has_hash o) (has_x_index o)
                                   (has_y_index o) (is_indirect o) value value_known in
  match opcode_find mn md with
  | Some op => STMT_INSTRUCTION (instruction_of mn md (expr o) op)
  | None =>
      if negb value_known && (pass =? 1) then
        match opcode_find mn ADDR_ABSOLUTE with
        | Some op => STMT_INSTRUCTION (instruction_of mn ADDR_ABSOLUTE (expr o) op)
        | None => STMT_ERROR (Some "invalid addressing mode for instruction"%string)
        end
      else STMT_ERROR (Some "invalid addressing mode for instruction"%string)
  end.

(** A source line as the parser reads it, before [parse_instruction] has
    resolved the mode of an instruction. *)
Inductive LineBody : Set :=
| LINE_EMPTY
| LINE_LABEL
| LINE_INSTRUCTION (mn : string) (o : OperandInfo)
| LINE_DIRECTIVE (dir : DirectiveInfo)
| LINE_ASSIGNMENT (assign : AssignmentInfo)
| LINE_ERROR (error_msg : option string).

Record SourceLine : Set := mkLine {
  lbody : LineBody;
  lline : Z;
  llabel : option LabelInfo
}.

(** The statement [parser_parse_line] builds for a line. *)
Definition parser_parse_line (symbols : Symbols.SymbolTable) (pc : Z) (pass : Z)
                             (l : SourceLine) : Statement :=
  let b :=
    match lbody l with
    | LINE_EMPTY => STMT_EMPTY
    | LINE_LABEL => STMT_LABEL
    | LINE_INSTRUCTION mn o => parse_instruction symbols pc pass mn o
    | LINE_DIRECTIVE d => STMT_DIRECTIVE d
    | LINE_ASSIGNMENT a => STMT_ASSIGNMENT a
    | LINE_ERROR m => STMT_ERROR m
    end in
  mkStatement b (lline l) (llabel l).

End Parser.

(** * The assembly driver ([assembler.c]) *)

Module Assembler.

Import Symbols Expr Opcodes Parser.

(** Modelled from the spec: [assembler.h] is not among the sources.  The
    image is "a flat 64 KiB byte array plus a parallel 64 KiB boolean
    written array", the program counters are 16-bit, and the limits on
    errors, warnings and nesting are constants of that header, carried here
    in the state. *)
Definition ASM_MEMORY_SIZE : Z := 65536.

Inductive Level : Set := LEVEL_ERROR | LEVEL_WARNING.

(** A line printed by [assembler_error] or [assembler_warning]; the message
    is the format string, or its argument where the format is a lone %s. *)
Record Diagnostic : Set := mkDiagnostic {
  level : Level;
  dfile : string;
  dline : Z;
  message : string
}.

Inductive CpuType : Set := CPU_6502 | CPU_6510 | CPU_65C02.

Record CondEntry : Set := mkCond {
  active : bool;
  parent_active : bool;
  else_seen : bool;
  cfilename : string;
  cline_number : Z
}.

Record AssembledLine : Set := mkAssembledLine {
  stmt : Statement;
  laddress : Z;                 (* uint16_t address *)
  zone : option string;
  byte_count : Z;
  bytes : list Z;
  lcycles : Z;
  lpage_penalty : Z
}.

Record Assembler : Type := mkAssembler {
  memory : gmap Z Z   (* uint8_t memory[ASM_MEMORY_SIZE] *);
  written : gset Z   (* the cells of written[] that hold 1 *);
  pc : Z   (* uint16_t *);
  real_pc : Z   (* uint16_t *);
  org : Z;
  lowest_addr : Z;
  highest_addr : Z;
  in_pseudopc : bool;
  pass : Z;
  errors : Z;
  warnings : Z;
  diagnostics : list Diagnostic   (* what was printed to stderr, oldest first *);
  symbols : SymbolTable;
  anon_labels : AnonLabels;
  current_zone : option string;
  current_file : string;
  current_line : Z;
  lines : list AssembledLine   (* in the order stored *);
  cond_stack : list CondEntry   (* innermost entry first *);
  loop_depth : Z;
  cpu_type : CpuType;
  anon_zone_counter : Z   (* the static counter of the zone directive *);
  max_errors : Z   (* ASM_MAX_ERRORS *);
  max_warnings : Z   (* ASM_MAX_WARNINGS *);
  binary_files : list (string * list Z)   (* the files !binary can open *)
}.

Definition set_memory (a : Assembler) (v : gmap Z Z) : Assembler :=
  mkAssembler v (written a) (pc a) (real_pc a) (org a) (lowest_addr a) (highest_addr a) (in_pseudopc a) (pass a) (errors a) (warnings a) (diagnostics a) (symbols a) (anon_labels a) (current_zone a) (current_file a) (current_line a) (lines a) (cond_stack a) (loop_depth a) (cpu_type a) (anon_zone_counter a) (max_errors a) (max_warnings a) (binary_files a).

Definition set_written (a : Assembler) (v : gset Z) : Assembler :=
  mkAssembler (memory a) v (pc a) (real_pc a) (org a) (lowest_addr a) (highest_addr a) (in_pseudopc a) (pass a) (errors a) (warnings a) (diagnostics a) (symbols a) (anon_labels a) (current_zone a) (current_file a) (current_line a) (lines a) (cond_stack a) (loop_depth a) (cpu_type a) (anon_zone_counter a) (max_errors a) (max_warnings a) (binary_files a).

Definition set_pc (a : Assembler) (v : Z) : Assembler :=
  mkAssembler (memory a) (written a) v (real_pc a) (org a) (lowest_addr a) (highest_addr a) (in_pseudopc a) (pass a) (errors a) (warnings a) (diagnostics a) (symbols a) (anon_labels a) (current_zone a) (current_file a) (current_line a) (lines a) (cond_stack a) (loop_depth a) (cpu_type a) (anon_zone_counter a) (max_errors a) (max_warnings a) (binary_files a).

Definition set_real_pc (a : Assembler) (v : Z) : Assembler :=
  mkAssembler (memory a) (written a) (pc a) v (org a) (lowest_addr a) (highest_addr a) (in_pseudopc a) (pass a) (errors a) (warnings a) (diagnostics a) (symbols a) (anon_labels a) (current_zone a) (current_file a) (current_line a) (lines a) (cond_stack a) (loop_depth a) (cpu_type a) (anon_zone_counter a) (max_errors a) (max_warnings a) (binary_files a).

Definition set_org (a : Assembler) (v : Z) : Assembler :=
  mkAssembler (memory a) (written a) (pc a) (real_pc a) v (lowest_addr a) (highest_addr a) (in_pseudopc a) (pass a) (errors a) (warnings a) (diagnostics a) (symbols a) (anon_labels a) (current_zone a) (current_file a) (current_line a) (lines a) (cond_stack a) (loop_depth a) (cpu_type a) (anon_zone_counter a) (max_errors a) (max_warnings a) (binary_files a).

Definition set_lowest_addr (a : Assembler) (v : Z) : Assembler :=
  mkAssembler (memory a) (written a) (pc a) (real_pc a) (org a) v (highest_addr a) (in_pseudopc a) (pass a) (errors a) (warnings a) (diagnostics a) (symbols a) (anon_labels a) (current_zone a) (current_file a) (current_line a) (lines a) (cond_stack a) (loop_depth a) (cpu_type a) (anon_zone_counter a) (max_errors a) (max_warnings a) (binary_files a).

Definition set_highest_addr (a : Assembler) (v : Z) : Assembler :=
  mkAssembler (memory a) (written a) (pc a) (real_pc a) (org a) (lowest_addr a) v (in_pseudopc a) (pass a) (errors a) (warnings a) (diagnostics a) (symbols a) (anon_labels a) (current_zone a) (current_file a) (current_line a) (lines a) (cond_stack a) (loop_depth a) (cpu_type a) (anon_zone_counter a) (max_errors a) (max_warnings a) (binary_files a).

Definition set_in_pseudopc (a : Assembler) (v : bool) : Assembler :=
  mkAssembler (memory a) (written a) (pc a) (real_pc a) (org a) (lowest_addr a) (highest_addr a) v (pass a) (errors a) (warnings a) (diagnostics a) (symbols a) (anon_labels a) (current_zone a) (current_file a) (current_line a) (lines a) (cond_stack a) (loop_depth a) (cpu_type a) (anon_zone_counter a) (max_errors a) (max_warnings a) (binary_files a).

Definition set_pass (a : Assembler) (v : Z) : Assembler :=
  mkAssembler (memory a) (written a) (pc a) (real_pc a) (org a) (lowest_addr a) (highest_addr a) (in_pseudopc a) v (errors a) (warnings a) (diagnostics a) (symbols a) (anon_labels a) (current_zone a) (current_file a) (current_line a) (lines a) (cond_stack a) (loop_depth a) (cpu_type a) (anon_zone_counter a) (max_errors a) (max_warnings a) (binary_files a).

Definition set_errors (a : Assembler) (v : Z) : Assembler :=
  mkAssembler (memory a) (written a) (pc a) (real_pc a) (org a) (lowest_addr a) (highest_addr a) (in_pseudopc a) (pass a) v (warnings a) (diagnostics a) (symbols a) (anon_labels a) (current_zone a) (current_file a) (current_line a) (lines a) (cond_stack a) (loop_depth a) (cpu_type a) (anon_zone_counter a) (max_errors a) (max_warnings a) (binary_files a).

Definition set_warnings (a : Assembler) (v : Z) : Assembler :=
  mkAssembler (memory a) (written a) (pc a) (real_pc a) (org a) (lowest_addr a) (highest_addr a) (in_pseudopc a) (pass a) (errors a) v (diagnostics a) (symbols a) (anon_labels a) (current_zone a) (current_file a) (current_line a) (lines a) (cond_stack a) (loop_depth a) (cpu_type a) (anon_zone_counter a) (max_errors a) (max_warnings a) (binary_files a).

Definition set_diagnostics (a : Assembler) (v : list Diagnostic) : Assembler :=
  mkAssembler (memory a) (written a) (pc a) (real_pc a) (org a) (lowest_addr a) (highest_addr a) (in_pseudopc a) (pass a) (errors a) (warnings a) v (symbols a) (anon_labels a) (current_zone a) (current_file a) (current_line a) (lines a) (cond_stack a) (loop_depth a) (cpu_type a) (anon_zone_counter a) (max_errors a) (max_warnings a) (binary_files a).

Definition set_symbols (a : Assembler) (v : SymbolTable) : Assembler :=
  mkAssembler (memory a) (written a) (pc a) (real_pc a) (org a) (lowest_addr a) (highest_addr a) (in_pseudopc a) (pass a) (errors a) (warnings a) (diagnostics a) v (anon_labels a) (current_zone a) (current_file a) (current_line a) (lines a) (cond_stack a) (loop_depth a) (cpu_type a) (anon_zone_counter a) (max_errors a) (max_warnings a) (binary_files a).

Definition set_anon_labels (a : Assembler) (v : AnonLabels) : Assembler :=
  mkAssembler (memory a) (written a) (pc a) (real_pc a) (org a) (lowest_addr a) (highest_addr a) (in_pseudopc a) (pass a) (errors a) (warnings a) (diagnostics a) (symbols a) v (current_zone a) (current_file a) (current_line a) (lines a) (cond_stack a) (loop_depth a) (cpu_type a) (anon_zone_counter a) (max_errors a) (max_warnings a) (binary_files a).

Definition set_current_zone (a : Assembler) (v : option string) : Assembler :=
  mkAssembler (memory a) (written a) (pc a) (real_pc a) (org a) (lowest_addr a) (highest_addr a) (in_pseudopc a) (pass a) (errors a) (warnings a) (diagnostics a) (symbols a) (anon_labels a) v (current_file a) (current_line a) (lines a) (cond_stack a) (loop_depth a) (cpu_type a) (anon_zone_counter a) (max_errors a) (max_warnings a) (binary_files a).

Definition set_current_file (a : Assembler) (v : string) : Assembler :=
  mkAssembler (memory a) (written a) (pc a) (real_pc a) (org a) (lowest_addr a) (highest_addr a) (in_pseudopc a) (pass a) (errors a) (warnings a) (diagnostics a) (symbols a) (anon_labels a) (current_zone a) v (current_line a) (lines a) (cond_stack a) (loop_depth a) (cpu_type a) (anon_zone_counter a) (max_errors a) (max_warnings a) (binary_files a).

Definition set_current_line (a : Assembler) (v : Z) : Assembler :=
  mkAssembler (memory a) (written a) (pc a) (real_pc a) (org a) (lowest_addr a) (highest_addr a) (in_pseudopc a) (pass a) (errors a) (warnings a) (diagnostics a) (symbols a) (anon_labels a) (current_zone a) (current_file a) v (lines a) (cond_stack a) (loop_depth a) (cpu_type a) (anon_zone_counter a) (max_errors a) (max_warnings a) (binary_files a).

Definition set_lines (a : Assembler) (v : list AssembledLine) : Assembler :=
  mkAssembler (memory a) (written a) (pc a) (real_pc a) (org a) (lowest_addr a) (highest_addr a) (in_pseudopc a) (pass a) (errors a) (warnings a) (diagnostics a) (symbols a) (anon_labels a) (current_zone a) (current_file a) (current_line a) v (cond_stack a) (loop_depth a) (cpu_type a) (anon_zone_counter a) (max_errors a) (max_warnings a) (binary_files a).

Definition set_cond_stack (a : Assembler) (v : list CondEntry) : Assembler :=
  mkAssembler (memory a) (written a) (pc a) (real_pc a) (org a) (lowest_addr a) (highest_addr a) (in_pseudopc a) (pass a) (errors a) (warnings a) (diagnostics a) (symbols a) (anon_labels a) (current_zone a) (current_file a) (current_line a) (lines a) v (loop_depth a) (cpu_type a) (anon_zone_counter a) (max_errors a) (max_warnings a) (binary_files a).

Definition set_cpu_type (a : Assembler) (v : CpuType) : Assembler :=
  mkAssembler (memory a) (written a) (pc a) (real_pc a) (org a) (lowest_addr a) (highest_addr a) (in_pseudopc a) (pass a) (errors a) (warnings a) (diagnostics a) (symbols a) (anon_labels a) (current_zone a) (current_file a) (current_line a) (lines a) (cond_stack a) (loop_depth a) v (anon_zone_counter a) (max_errors a) (max_warnings a) (binary_files a).

Definition set_anon_zone_counter (a : Assembler) (v : Z) : Assembler :=
  mkAssembler (memory a) (written a) (pc a) (real_pc a) (org a) (lowest_addr a) (highest_addr a) (in_pseudopc a) (pass a) (errors a) (warnings a) (diagnostics a) (symbols a) (anon_labels a) (current_zone a) (current_file a) (current_line a) (lines a) (cond_stack a) (loop_depth a) (cpu_type a) v (max_errors a) (max_warnings a) (binary_files a).

Definition assembler_create (default_org max_err max_warn : Z) : Assembler :=
  mkAssembler ∅ ∅ default_org default_org default_org 65535 0 false 1 0 0 []
              (symbol_table_create 1024) anon_create None EmptyString 0 [] [] 0
              CPU_6510 0 max_err max_warn [].

(** *** Diagnostics *)

Definition report (a : Assembler) (lv : Level) (msg : string) : list Diagnostic :=
  diagnostics a ++ [mkDiagnostic lv (current_file a) (current_line a) msg].

Definition assembler_error (a : Assembler) (msg : string) : Assembler :=
  if max_errors a <=? errors a then a
  else set_errors (set_diagnostics a (report a LEVEL_ERROR msg)) (errors a + 1).

Definition assembler_warning (a : Assembler) (msg : string) : Assembler :=
  if max_warnings a <=? warnings a then a
  else set_warnings (set_diagnostics a (report a LEVEL_WARNING msg)) (warnings a + 1).

(** *** Code emission *)

(** [uint16_t output_addr = as->in_pseudopc ? as->real_pc : as->pc;] *)
Definition output_addr (a : Assembler) : Z :=
  to_uint16 (if in_pseudopc a then real_pc a else pc a).

Definition assembler_emit_byte (a : Assembler) (byte : Z) : Assembler :=
  let out := output_addr a in
  let a1 := if out <? lowest_addr a then set_lowest_addr a out else a in
  let a2 := if highest_addr a1 <? out then set_highest_addr a1 out else a1 in
  let a3 := set_memory a2 (<[out := to_uint8 byte]> (memory a2)) in
  let a4 := set_written a3 ({[out]} ∪ written a3) in
  let a5 := set_pc a4 (to_uint16 (pc a4 + 1)) in
  set_real_pc a5 (to_uint16 (real_pc a5 + 1)).

Definition assembler_emit_word (a : Assembler) (word : Z) : Assembler :=
  let w := to_uint16 word in
  assembler_emit_byte (assembler_emit_byte a (Z.land w 255)) (Z.land (Z.shiftr w 8) 255).

Definition assembler_emit_bytes (a : Assembler) (bs : list Z) : Assembler :=
  fold_left assembler_emit_byte bs a.

Definition assembler_set_pc (a : Assembler) (new_pc : Z) : Assembler :=
  let a1 := set_pc a (to_uint16 new_pc) in
  let a2 := if in_pseudopc a1 then a1 else set_real_pc a1 (pc a1) in
  if (pass a2 =? 1) && (Z.of_nat (length (lines a2)) =? 0) then set_org a2 (pc a2) else a2.

Definition assembler_advance_pc (a : Assembler) (cnt : Z) : Assembler :=
  set_real_pc (set_pc a (to_uint16 (pc a + cnt))) (to_uint16 (real_pc a + cnt)).

(** [assembler_calc_branch_offset]: both parameters are [uint16_t]. *)
Definition assembler_calc_branch_offset (target pc : Z) : Z :=
  let offset := target - (pc + 2) in
  if (offset <? -128) || (127 <? offset) then INT_MIN else offset.

Definition assembler_is_zeropage (addr : Z) : bool := (0 <=? addr) && (addr <=? 255).

(** The cell [memory[addr]] of the zero-initialised image. *)
Definition memory_at (a : Assembler) (addr : Z) : Z := default 0 (memory a !! addr).

(** *** Line storage and labels *)

Definition add_assembled_line (a : Assembler) (st : Statement) (addr : Z) : Assembler :=
  let (cy, pp) :=
    match body st with
    | STMT_INSTRUCTION info => (icycles info, ipage_penalty info)
    | _ => (0, 0)
    end in
  set_lines a (lines a ++ [mkAssembledLine st (to_uint16 addr) (current_zone a) 0 [] cy pp]).

Definition define_symbol (a : Assembler) (nm : string) (v fl : Z) : Assembler :=
  set_symbols a (snd (symbol_define (symbols a) nm v fl (current_file a) (current_line a))).

Definition define_label (a : Assembler) (l : LabelInfo) : Assembler :=
  let fl := if assembler_is_zeropage (pc a) then Z.lor SYM_DEFINED SYM_ZEROPAGE else SYM_DEFINED in
  if is_anon_fwd l then
    set_anon_labels a (anon_define_forward (anon_labels a) (pc a) (current_file a) (current_line a))
  else if is_anon_back l then
    set_anon_labels a (anon_define_backward (anon_labels a) (pc a) (current_file a) (current_line a))
  else if is_local l then
    let local_part := if starts_with_dot (lname l) then string_drop 1 (lname l) else lname l in
    let mangled :=
      match current_zone a with
      | Some z => (z ++ "." ++ local_part)%string
      | None => ("_global." ++ local_part)%string
      end in
    define_symbol a mangled (pc a) fl
  else
    set_current_zone (define_symbol a (lname l) (pc a) fl) (Some (lname l)).

(** *** Instructions *)

(** [expr_eval] with the driver's symbols, tracker, PC, pass and zone; the
    tracker is shared, so its cursor moves in the driver's state. *)
Definition eval (a : Assembler) (e : option Expr) : ExprResult * Assembler :=
  let (r, anon') :=
    expr_eval_opt e (Some (symbols a)) (Some (anon_labels a)) (pc a) (pass a) (current_zone a) in
  (r, match anon' with Some an => set_anon_labels a an | None => a end).

Definition zeropage_form (md : AddressingMode) : option AddressingMode :=
  match md with
  | ADDR_ABSOLUTE => Some ADDR_ZEROPAGE
  | ADDR_ABSOLUTE_X => Some ADDR_ZEROPAGE_X
  | ADDR_ABSOLUTE_Y => Some ADDR_ZEROPAGE_Y
  | _ => None
  end.

Definition set_mode_opcode (info : InstructionInfo) (md : AddressingMode) (opc : Z) : InstructionInfo :=
  mkInstruction (imnemonic info) md (operand info) opc (isize info) (icycles info)
                (ipage_penalty info).

(** The pass-2 re-evaluation of the addressing mode, for a known operand. *)
Definition reselect_mode (info : InstructionInfo) (operand_value : Z) : InstructionInfo :=
  let new_mode :=
    if assembler_is_zeropage operand_value then
      match zeropage_form (imode info) with
      | Some zp => if found (opcode_find (imnemonic info) zp) then zp else imode info
      | None => imode info
      end
    else imode info in
  if negb (mode_eqb new_mode (imode info)) then
    match opcode_find (imnemonic info) new_mode with
    | Some op => if size op =? isize info then set_mode_opcode info new_mode (opcode op) else info
    | None => info
    end
  else info.

Definition emit_operand (a : Assembler) (sz : Z) (operand_value : Z) : Assembler :=
  if sz =? 1 then a
  else if sz =? 2 then assembler_emit_byte a (Z.land operand_value 255)
  else if sz =? 3 then assembler_emit_word a (Z.land operand_value 65535)
  else a.

(** The modes for which [assembler_assemble_instruction] looks at the
    operand. *)
Definition evaluates_operand (md : AddressingMode) : bool :=
  match md with
  | ADDR_ACCUMULATOR | ADDR_IMPLIED => false
  | _ => true
  end.

Definition found_operand (e : option Expr) : bool :=
  match e with Some _ => true | None => false end.

(** [assembler_assemble_instruction]: the return value, the state, and the
    instruction record of the statement, which pass 2 may rewrite. *)
Definition assembler_assemble_instruction (a : Assembler) (info : InstructionInfo)
  : Z * Assembler * InstructionInfo :=
  match imode info with
  | ADDR_ACCUMULATOR | ADDR_IMPLIED =>
      if pass a =? 2 then (0, assembler_emit_byte a (iopcode info), info)
      else (0, assembler_advance_pc a 1, info)
  | _ =>
      let '(operand_value, value_defined, a1) :=
        match operand info with
        | Some e => let (r, a1) := eval a (Some e) in (value r, defined r, a1)
        | None => (0, true, a)
        end in
      if found_operand (operand info) && (pass a1 =? 2) && negb value_defined then
        (-1, assembler_error a1 "undefined symbol in operand", info)
      else
        match imode info with
        | ADDR_RELATIVE =>
            if pass a1 =? 2 then
              let offset := assembler_calc_branch_offset (to_uint16 operand_value) (to_uint16 (pc a1)) in
              if offset =? INT_MIN then
                (-1, assembler_error a1 "branch target out of range", info)
              else
                (0, assembler_emit_byte (assembler_emit_byte a1 (iopcode info))
                                        (Z.land offset 255), info)
            else (0, assembler_advance_pc a1 2, info)
        | _ =>
            let info' :=
              if (pass a1 =? 2) && value_defined then reselect_mode info operand_value
              else info in
            if pass a1 =? 2 then
              (0, emit_operand (assembler_emit_byte a1 (iopcode info')) (isize info') operand_value,
               info')
            else (0, assembler_advance_pc a1 (isize info'), info')
        end
  end.

(** *** Data directives *)

(** The bytes of a C string: the characters before the first NUL. *)
Fixpoint c_string_bytes (s : string) : list Z :=
  match s with
  | String c s' => if Ascii.eqb c NUL then [] else code c :: c_string_bytes s'
  | EmptyString => []
  end.

Definition strlen (s : string) : Z := Z.of_nat (length (c_string_bytes s)).

Fixpoint byte_loop (a : Assembler) (es : list Expr) : Z * Assembler :=
  match es with
  | [] => (0, a)
  | e :: es' =>
      let (r, a1) := eval a (Some e) in
      if (pass a1 =? 2) && negb (defined r) then
        (-1, assembler_error a1 "undefined symbol in !byte directive")
      else if pass a1 =? 2 then
        let a2 := if (value r <? -128) || (255 <? value r)
                  then assembler_warning a1 "byte value $%X truncated" else a1 in
        byte_loop (assembler_emit_byte a2 (Z.land (value r) 255)) es'
      else byte_loop (assembler_advance_pc a1 1) es'
  end.

Definition assemble_byte_directive (a : Assembler) (dir : DirectiveInfo) : Z * Assembler :=
  byte_loop a (args dir).

Fixpoint word_loop (a : Assembler) (es : list Expr) : Z * Assembler :=
  match es with
  | [] => (0, a)
  | e :: es' =>
      let (r, a1) := eval a (Some e) in
      if (pass a1 =? 2) && negb (defined r) then
        (-1, assembler_error a1 "undefined symbol in !word directive")
      else if pass a1 =? 2 then
        word_loop (assembler_emit_word a1 (Z.land (value r) 65535)) es'
      else word_loop (assembler_advance_pc a1 2) es'
  end.

Definition assemble_word_directive (a : Assembler) (dir : DirectiveInfo) : Z * Assembler :=
  word_loop a (args dir).

Definition assemble_text_directive (a : Assembler) (dir : DirectiveInfo) : Z * Assembler :=
  match string_arg dir with
  | None => (-1, assembler_error a "!text requires a string argument")
  | Some s =>
      if pass a =? 2 then (0, assembler_emit_bytes a (c_string_bytes s))
      else (0, assembler_advance_pc a (strlen s))
  end.

(** [for (i = 0; i < count; i++) assembler_emit_byte(as, fill_value);] *)
Definition emit_repeat (a : Assembler) (cnt : Z) (byte : Z) : Assembler :=
  assembler_emit_bytes a (repeat byte (Z.to_nat cnt)).

Definition assemble_fill_directive (a : Assembler) (dir : DirectiveInfo) : Z * Assembler :=
  match args dir with
  | [] => (-1, assembler_error a "!fill requires count argument")
  | e0 :: rest =>
      let (count_result, a1) := eval a (Some e0) in
      if negb (defined count_result) then (-1, assembler_error a1 "!fill count must be constant")
      else
        let cnt := value count_result in
        if (cnt <? 0) || (65536 <? cnt) then (-1, assembler_error a1 "!fill count out of range")
        else
          let '(bad, fill_value, a2) :=
            match rest with
            | e1 :: _ =>
                let (value_result, a2) := eval a1 (Some e1) in
                ((pass a2 =? 2) && negb (defined value_result),
                 Z.land (value value_result) 255, a2)
            | [] => (false, 0, a1)
            end in
          if bad then (-1, assembler_error a2 "!fill value must be defined")
          else if pass a2 =? 2 then (0, emit_repeat a2 cnt fill_value)
          else (0, assembler_advance_pc a2 cnt)
  end.

Definition assemble_org_directive (a : Assembler) (dir : DirectiveInfo) : Z * Assembler :=
  match args dir with
  | [] => (-1, assembler_error a "org directive requires address")
  | e0 :: _ =>
      let (result, a1) := eval a (Some e0) in
      if negb (defined result) then (-1, assembler_error a1 "org address must be constant")
      else (0, assembler_set_pc a1 (Z.land (value result) 65535))
  end.

Definition ascii_to_petscii (c : Z) : Z :=
  if (65 <=? c) && (c <=? 90) then c
  else if (97 <=? c) && (c <=? 122) then c - 32
  else if c =? 64 then 64
  else if c =? 91 then 91
  else if c =? 92 then 92
  else if c =? 93 then 93
  else if c =? 94 then 94
  else if c =? 95 then 164
  else if c =? 96 then 39
  else if c =? 123 then 91
  else if c =? 124 then 124
  else if c =? 125 then 93
  else if c =? 126 then 126
  else c.

Definition ascii_to_screencode_table : list Z := [
  32; 63; 63; 63; 63; 63; 63; 63; 63; 63; 63; 63; 63; 63; 63; 63;
  63; 63; 63; 63; 63; 63; 63; 63; 63; 63; 63; 63; 63; 63; 63; 63;
  32; 33; 34; 35; 36; 37; 38; 39; 40; 41; 42; 43; 44; 45; 46; 47;
  48; 49; 50; 51; 52; 53; 54; 55; 56; 57; 58; 59; 60; 61; 62; 63;
  0; 1; 2; 3; 4; 5; 6; 7; 8; 9; 10; 11; 12; 13; 14; 15;
  16; 17; 18; 19; 20; 21; 22; 23; 24; 25; 26; 27; 28; 29; 30; 31;
  0; 1; 2; 3; 4; 5; 6; 7; 8; 9; 10; 11; 12; 13; 14; 15;
  16; 17; 18; 19; 20; 21; 22; 23; 24; 25; 26; 27; 28; 29; 30; 63
].

Definition ascii_to_screencode (c : Z) : Z :=
  if c <? 128 then nth (Z.to_nat c) ascii_to_screencode_table 0
  else Z.land c 127.

Definition assemble_pet_directive (a : Assembler) (dir : DirectiveInfo) : Z * Assembler :=
  match string_arg dir with
  | None => (-1, assembler_error a "!pet requires a string argument")
  | Some s =>
      if pass a =? 2 then (0, assembler_emit_bytes a (map ascii_to_petscii (c_string_bytes s)))
      else (0, assembler_advance_pc a (strlen s))
  end.

Definition assemble_scr_directive (a : Assembler) (dir : DirectiveInfo) : Z * Assembler :=
  match string_arg dir with
  | None => (-1, assembler_error a "!scr requires a string argument")
  | Some s =>
      if pass a =? 2 then (0, assembler_emit_bytes a (map ascii_to_screencode (c_string_bytes s)))
      else (0, assembler_advance_pc a (strlen s))
  end.

Definition assemble_null_directive (a : Assembler) (dir : DirectiveInfo) : Z * Assembler :=
  match string_arg dir with
  | None => (-1, assembler_error a "!null requires a string argument")
  | Some s =>
      if pass a =? 2 then (0, assembler_emit_byte (assembler_emit_bytes a (c_string_bytes s)) 0)
      else (0, assembler_advance_pc a (strlen s + 1))
  end.

Definition assemble_skip_directive (a : Assembler) (dir : DirectiveInfo) : Z * Assembler :=
  match args dir with
  | [] => (-1, assembler_error a "!skip requires count argument")
  | e0 :: _ =>
      let (count_result, a1) := eval a (Some e0) in
      if negb (defined count_result) then (-1, assembler_error a1 "!skip count must be constant")
      else
        let cnt := value count_result in
        if (cnt <? 0) || (65536 <? cnt) then (-1, assembler_error a1 "!skip count out of range")
        else (0, assembler_advance_pc a1 cnt)
  end.

Definition assemble_align_directive (a : Assembler) (dir : DirectiveInfo) : Z * Assembler :=
  match args dir with
  | [] => (-1, assembler_error a "!align requires alignment argument")
  | e0 :: rest =>
      let (align_result, a1) := eval a (Some e0) in
      if negb (defined align_result) then (-1, assembler_error a1 "!align value must be constant")
      else
        let alignment := value align_result in
        if (alignment <=? 0) || (65536 <? alignment)
        then (-1, assembler_error a1 "!align value out of range")
        else
          let a2 := if negb (Z.land alignment (alignment - 1) =? 0)
                    then assembler_warning a1 "!align value %d is not a power of 2" else a1 in
          let remainder := Z.rem (pc a2) alignment in
          let padding := if remainder =? 0 then 0 else alignment - remainder in
          let '(bad, fill_value, a3) :=
            match rest with
            | e1 :: _ =>
                let (value_result, a3) := eval a2 (Some e1) in
                ((pass a3 =? 2) && negb (defined value_result),
                 Z.land (value value_result) 255, a3)
            | [] => (false, 0, a2)
            end in
          if bad then (-1, assembler_error a3 "!align fill value must be defined")
          else if pass a3 =? 2 then (0, emit_repeat a3 padding fill_value)
          else (0, assembler_advance_pc a3 padding)
  end.

(** *** [!binary] *)

Definition find_file (a : Assembler) (filename : string) : option (list Z) :=
  match List.find (fun f => String.eqb (fst f) filename) (binary_files a) with
  | Some f => Some (snd f)
  | None => None
  end.

Definition assembler_include_binary (a : Assembler) (filename : string) (offset len : Z)
  : Z * Assembler :=
  match find_file a filename with
  | None => (-1, assembler_error a "cannot find binary file: %s")
  | Some content =>
      let file_size := Z.of_nat (length content) in
      if (offset <? 0) || (file_size <? offset)
      then (-1, assembler_error a "binary offset %d out of range (file size %ld)")
      else
        let read_len := if len <=? 0 then file_size - offset else len in
        let read_len := if file_size <? offset + read_len then file_size - offset else read_len in
        if read_len <=? 0 then (0, a)
        else
          let buffer := firstn (Z.to_nat read_len) (skipn (Z.to_nat offset) content) in
          if pass a =? 2 then (0, assembler_emit_bytes a buffer)
          else (0, assembler_advance_pc a (Z.of_nat (length buffer)))
  end.

Definition assemble_binary_directive (a : Assembler) (dir : DirectiveInfo) : Z * Assembler :=
  match string_arg dir with
  | None => (-1, assembler_error a "!binary requires a filename argument")
  | Some filename =>
      match args dir with
      | [] => assembler_include_binary a filename 0 0
      | e0 :: rest =>
          let (r0, a1) := eval a (Some e0) in
          if negb (defined r0) then (-1, assembler_error a1 "!binary size must be constant")
          else
            match rest with
            | [] => assembler_include_binary a1 filename 0 (value r0)
            | e1 :: _ =>
                let (r1, a2) := eval a1 (Some e1) in
                if negb (defined r1) then (-1, assembler_error a2 "!binary offset must be constant")
                else assembler_include_binary a2 filename (value r1) (value r0)
            end
      end
  end.

(** *** [!basic] *)

(** [snprintf(buf, n, "%d", v)]: the decimal digits of [v], cut to the
    [n - 1] characters the buffer holds. *)
Definition decimal_string (v : Z) : string := NilZero.string_of_int (Z.to_int v).

Definition snprintf_d (n : nat) (v : Z) : list Z :=
  firstn (n - 1) (c_string_bytes (decimal_string v)).

(** The [for (digit_count = 4; digit_count <= 5; digit_count++)] loop that
    settles the default SYS address; it returns [addr]. *)
Fixpoint basic_sys_addr_loop (rounds : nat) (digit_count : Z) (start_pc base_size addr : Z) : Z :=
  match rounds with
  | O => addr
  | S rounds' =>
      if digit_count <=? 5 then
        let addr' := start_pc + base_size + digit_count in
        let needed := if 10000 <=? addr' then 5 else 4 in
        if needed =? digit_count then addr'
        else basic_sys_addr_loop rounds' (digit_count + 1) start_pc base_size addr'
      else addr
  end.

Definition assemble_basic_directive (a : Assembler) (dir : DirectiveInfo) : Z * Assembler :=
  let '(bad1, line_number, a1) :=
    match args dir with
    | e0 :: _ =>
        let (r, a1) := eval a (Some e0) in
        (negb (defined r) && (pass a1 =? 2), value r, a1)
    | [] => (false, 10, a)
    end in
  if bad1 then (-1, assembler_error a1 "!basic line number must be constant")
  else
    let '(bad2, sys_addr0, explicit_addr, a2) :=
      match args dir with
      | _ :: e1 :: _ =>
          let (r, a2) := eval a1 (Some e1) in
          (negb (defined r) && (pass a2 =? 2), value r, true, a2)
      | _ => (false, 0, false, a1)
      end in
    if bad2 then (-1, assembler_error a2 "!basic SYS address must be constant")
    else
      let start_pc := pc a2 in
      let sys_addr :=
        if explicit_addr then sys_addr0
        else basic_sys_addr_loop 3 4 start_pc (2 + 2 + 1 + 1 + 2) 0 in
      let digit_count := if 10000 <=? sys_addr then 5 else 4 in
      let total_size := 2 + 2 + 1 + digit_count + 1 + 2 in
      let link_addr := start_pc + total_size - 2 in
      if pass a2 =? 2 then
        let a3 := assembler_emit_byte a2 (Z.land link_addr 255) in
        let a4 := assembler_emit_byte a3 (Z.land (Z.shiftr link_addr 8) 255) in
        let a5 := assembler_emit_byte a4 (Z.land line_number 255) in
        let a6 := assembler_emit_byte a5 (Z.land (Z.shiftr line_number 8) 255) in
        let a7 := assembler_emit_byte a6 158 in
        let a8 := assembler_emit_bytes a7 (snprintf_d 6 sys_addr) in
        let a9 := assembler_emit_byte a8 0 in
        (0, assembler_emit_byte (assembler_emit_byte a9 0) 0)
      else (0, assembler_advance_pc a2 total_size).

(** *** Pseudo-PC, CPU and zone *)

Definition assembler_pseudopc_start (a : Assembler) (pseudo_addr : Z) : Z * Assembler :=
  if in_pseudopc a then (-1, assembler_error a "nested !pseudopc not allowed")
  else
    let a1 := set_real_pc a (pc a) in
    let a2 := set_in_pseudopc a1 true in
    (0, set_pc a2 (to_uint16 pseudo_addr)).

Definition assembler_pseudopc_end (a : Assembler) : Z * Assembler :=
  if negb (in_pseudopc a) then (-1, assembler_error a "!realpc without matching !pseudopc")
  else (0, set_in_pseudopc (set_pc a (real_pc a)) false).

Definition assembler_set_cpu (a : Assembler) (cpu_name : string) : Z * Assembler :=
  if strcaseeq cpu_name "6502" then (0, set_cpu_type a CPU_6502)
  else if strcaseeq cpu_name "6510" then (0, set_cpu_type a CPU_6510)
  else if strcaseeq cpu_name "65c02" then (0, set_cpu_type a CPU_65C02)
  else (-1, assembler_error a "unknown CPU type: %s").

Definition name_in (nm : string) (names : list string) : bool :=
  existsb (String.eqb nm) names.

Definition cpu_directive (a : Assembler) (dir : DirectiveInfo) : Z * Assembler :=
  let cpu_name :=
    match string_arg dir with
    | Some s => Some s
    | None =>
        match args dir with
        | EXPR_SYMBOL nm :: _ => Some nm
        | EXPR_NUMBER n :: _ => Some (decimal_string n)
        | _ => None
        end
    end in
  match cpu_name with
  | None => (-1, assembler_error a "!cpu requires a CPU type (6502, 6510, or 65c02)")
  | Some nm => assembler_set_cpu a nm
  end.

Definition zone_directive (a : Assembler) (dir : DirectiveInfo) : Z * Assembler :=
  let zone_name :=
    match string_arg dir with
    | Some s => Some s
    | None =>
        match args dir with
        | EXPR_SYMBOL nm :: _ => Some nm
        | _ => None
        end
    end in
  let named :=
    match zone_name with
    | Some (String c s) => if Ascii.eqb c NUL then None else Some (String c s)
    | _ => None
    end in
  match named with
  | Some z => (0, set_current_zone a (Some z))
  | None =>
      let n := anon_zone_counter a + 1 in
      (0, set_current_zone (set_anon_zone_counter a n) (Some ("_zone_" ++ decimal_string n)%string))
  end.

Definition pseudopc_directive (a : Assembler) (dir : DirectiveInfo) : Z * Assembler :=
  match args dir with
  | [] => (-1, assembler_error a "!pseudopc requires an address")
  | e0 :: _ =>
      let (result, a1) := eval a (Some e0) in
      if negb (defined result)
      then (-1, assembler_error a1 "!pseudopc address must be a defined value")
      else assembler_pseudopc_start a1 (value result)
  end.

Definition assembler_assemble_directive (a : Assembler) (dir : DirectiveInfo) : Z * Assembler :=
  let nm := dname dir in
  if name_in nm ["byte"; "by"; "db"; "08"]%string then assemble_byte_directive a dir
  else if name_in nm ["word"; "wo"; "dw"; "16"]%string then assemble_word_directive a dir
  else if name_in nm ["text"; "tx"]%string then assemble_text_directive a dir
  else if name_in nm ["pet"]%string then assemble_pet_directive a dir
  else if name_in nm ["scr"]%string then assemble_scr_directive a dir
  else if name_in nm ["null"]%string then assemble_null_directive a dir
  else if name_in nm ["fill"; "fi"]%string then assemble_fill_directive a dir
  else if name_in nm ["skip"; "res"]%string then assemble_skip_directive a dir
  else if name_in nm ["align"]%string then assemble_align_directive a dir
  else if name_in nm ["org"]%string then assemble_org_directive a dir
  else if name_in nm ["binary"; "bin"]%string then assemble_binary_directive a dir
  else if name_in nm ["basic"]%string then assemble_basic_directive a dir
  else if name_in nm ["source"; "src"; "include"]%string then (0, a)
  else if name_in nm ["macro"; "endmacro"; "endm"]%string then (0, a)
  else if name_in nm ["for"; "while"; "end"]%string then (0, a)
  else if name_in nm ["pseudopc"]%string then pseudopc_directive a dir
  else if name_in nm ["realpc"]%string then assembler_pseudopc_end a
  else if name_in nm ["cpu"]%string then cpu_directive a dir
  else if name_in nm ["zone"; "zn"]%string then zone_directive a dir
  else if name_in nm ["error"]%string then
    (-1, assembler_error a (match string_arg dir with Some s => s | None => "user error" end))
  else if name_in nm ["warn"; "warning"]%string then
    (0, assembler_warning a (match string_arg dir with Some s => s | None => "user warning" end))
  else (0, assembler_warning a "unknown directive !%s ignored").

(** *** Assignments and statements *)

Definition assembler_in_loop (a : Assembler) : bool := 0 <? loop_depth a.

Definition assemble_assignment (a : Assembler) (assign : AssignmentInfo) : Z * Assembler :=
  let (result, a1) := eval a (avalue assign) in
  let fl := if (pass a1 =? 2) || assembler_in_loop a1
            then Z.lor SYM_DEFINED SYM_FORCE_UPDATE else SYM_CONSTANT in
  let fl := if defined result && assembler_is_zeropage (value result)
            then Z.lor fl SYM_ZEROPAGE else fl in
  (0, define_symbol a1 (aname assign) (value result) fl).

Definition with_body (st : Statement) (b : StatementBody) : Statement :=
  mkStatement b (sline st) (label st).

(** [assembler_assemble_statement]: the return value, the state, and the
    statement (its instruction record may have been rewritten). *)
Definition assembler_assemble_statement (a : Assembler) (st : Statement)
  : Z * Assembler * Statement :=
  let a0 := set_current_line a (sline st) in
  let a1 :=
    match label st with
    | Some l =>
        if pass a0 =? 1 then define_label a0 l
        else if negb (is_local l) && negb (is_anon_fwd l) && negb (is_anon_back l)
             then set_current_zone a0 (Some (lname l))
             else a0
    | None => a0
    end in
  match body st with
  | STMT_EMPTY | STMT_LABEL => (0, a1, st)
  | STMT_INSTRUCTION info =>
      let '(r, a2, info') := assembler_assemble_instruction a1 info in
      (r, a2, with_body st (STMT_INSTRUCTION info'))
  | STMT_DIRECTIVE dir =>
      let (r, a2) := assembler_assemble_directive a1 dir in (r, a2, st)
  | STMT_ASSIGNMENT assign =>
      let (r, a2) := assemble_assignment a1 assign in (r, a2, st)
  | STMT_MACRO_CALL _ => (-1, assembler_error a1 "macros not yet implemented", st)
  | STMT_ERROR msg =>
      (-1, assembler_error a1 (match msg with Some m => m | None => "parse error" end), st)
  end.

(** *** Conditional assembly *)

Definition assembler_is_active (a : Assembler) : bool :=
  match cond_stack a with
  | [] => true
  | entry :: _ => active entry
  end.

Definition assembler_cond_if (a : Assembler) (max_depth : Z) (condition : Z) : Z * Assembler :=
  if max_depth <=? Z.of_nat (length (cond_stack a))
  then (-1, assembler_error a "!if nesting too deep (max %d)")
  else
    let pa := assembler_is_active a in
    (0, set_cond_stack a (mkCond (pa && negb (condition =? 0)) pa false
                                 (current_file a) (current_line a) :: cond_stack a)).

Definition symbol_defined_int (a : Assembler) (nm : string) : Z :=
  if symbol_is_defined (symbols a) nm then 1 else 0.

Definition assembler_cond_else (a : Assembler) : Z * Assembler :=
  match cond_stack a with
  | [] => (-1, assembler_error a "!else without matching !if")
  | entry :: rest =>
      if else_seen entry then (-1, assembler_error a "duplicate !else for !if at %s:%d")
      else
        let act := if parent_active entry then negb (active entry) else active entry in
        (0, set_cond_stack a (mkCond act (parent_active entry) true (cfilename entry)
                                     (cline_number entry) :: rest))
  end.

Definition assembler_cond_endif (a : Assembler) : Z * Assembler :=
  match cond_stack a with
  | [] => (-1, assembler_error a "!endif without matching !if")
  | _ :: rest => (0, set_cond_stack a rest)
  end.

Definition is_conditional_directive (st : Statement) : bool :=
  match body st with
  | STMT_DIRECTIVE dir => name_in (dname dir) ["if"; "else"; "endif"; "ifdef"; "ifndef"]%string
  | _ => false
  end.

Definition cond_symbol_name (dir : DirectiveInfo) : option string :=
  match string_arg dir with
  | Some s => Some s
  | None =>
      match args dir with
      | EXPR_SYMBOL nm :: _ => Some nm
      | _ => None
      end
  end.

Definition process_conditional_directive (a : Assembler) (max_depth : Z) (dir : DirectiveInfo)
  : Z * Assembler :=
  let nm := dname dir in
  if String.eqb nm "if" then
    match args dir with
    | [] => (-1, assembler_error a "!if requires a condition expression")
    | e0 :: _ =>
        let (result, a1) := eval a (Some e0) in
        assembler_cond_if a1 max_depth (if defined result then value result else 0)
    end
  else if String.eqb nm "ifdef" then
    match cond_symbol_name dir with
    | None => (-1, assembler_error a "!ifdef requires a symbol name")
    | Some s => assembler_cond_if a max_depth (symbol_defined_int a s)
    end
  else if String.eqb nm "ifndef" then
    match cond_symbol_name dir with
    | None => (-1, assembler_error a "!ifndef requires a symbol name")
    | Some s => assembler_cond_if a max_depth (if symbol_defined_int a s =? 0 then 1 else 0)
    end
  else if String.eqb nm "else" then assembler_cond_else a
  else if String.eqb nm "endif" then assembler_cond_endif a
  else (0, a).

(** *** Pass 1 *)

(** The directives that pass 1 expands from the source text (includes,
    macro definitions, loops); their expansion is outside this model. *)
Definition is_expanding_directive (st : Statement) : bool :=
  match body st with
  | STMT_DIRECTIVE dir =>
      name_in (dname dir) ["source"; "src"; "include"; "macro"; "for"; "while"]%string
  | _ => false
  end.

(** The loop of [assembler_pass1_internal] over the lines of one source
    text, none of which is an include, a macro definition, a loop or a macro
    call ([None] if one is).  [parser_pc] is the PC the parser holds while
    it reads the line: the driver refreshes it after each parse. *)
Fixpoint pass1_loop (a : Assembler) (max_depth : Z) (parser_pc : Z) (src : list SourceLine)
  : option Assembler :=
  match src with
  | [] => Some a
  | l :: src' =>
      let line_pc := pc a in
      let st := parser_parse_line (symbols a) parser_pc 1 l in
      let parser_pc' := pc a in
      let a0 := set_current_line a (sline st) in
      if is_conditional_directive st then
        match body st with
        | STMT_DIRECTIVE dir =>
            pass1_loop (snd (process_conditional_directive a0 max_depth dir)) max_depth parser_pc' src'
        | _ => None
        end
      else if negb (assembler_is_active a0) then pass1_loop a0 max_depth parser_pc' src'
      else if is_expanding_directive st then None
      else
        let a1 := add_assembled_line a0 st line_pc in
        let '(_, a2, _) := assembler_assemble_statement a1 st in
        if max_errors a2 <=? errors a2 then Some (assembler_error a2 "too many errors, stopping")
        else pass1_loop a2 max_depth parser_pc' src'
  end.

Definition assembler_pass1_internal (a : Assembler) (max_depth : Z) (src : list SourceLine)
                                    (filename : string) : option Assembler :=
  let a0 := set_current_file (set_pass a 1) filename in
  match pass1_loop a0 max_depth (pc a0) src with
  | None => None
  | Some a1 =>
      match cond_stack a1 with
      | [] => Some a1
      | _ :: _ => Some (assembler_error a1 "unterminated !if (started at %s:%d)")
      end
  end.

Definition assembler_pass1 (a : Assembler) (max_depth : Z) (src : list SourceLine)
                           (filename : string) : option Assembler :=
  assembler_pass1_internal (set_pc a (org a)) max_depth src filename.

(** *** Pass 2 *)

Definition line_output_pc (a : Assembler) : Z :=
  to_uint16 (if in_pseudopc a then real_pc a else pc a).

(** The number of bytes pass 2 produced for a line: [end_pc - start_pc]. *)
Definition emitted_count (start_pc end_pc : Z) : Z := end_pc - start_pc.

Definition captured_bytes (a : Assembler) (start_pc : Z) (n : nat) : list Z :=
  map (fun j => memory_at a (start_pc + Z.of_nat j)) (seq 0 n).

(** One round of the loop of [assembler_pass2], in its steps: the PC is
    restored from the line record, then the zone, an anonymous label is
    defined again, and the statement is assembled. *)
Definition pass2_restore_pc (a : Assembler) (l : AssembledLine) : Assembler :=
  set_pc (set_current_line a (sline (stmt l))) (laddress l).

Definition pass2_redefine (a : Assembler) (l : AssembledLine) : Assembler :=
  let st := stmt l in
  let a1 := set_current_zone a (zone l) in
  match label st with
  | Some lb =>
      if is_anon_fwd lb then
        set_anon_labels a1 (anon_define_forward (anon_labels a1) (pc a1) (current_file a1) (sline st))
      else if is_anon_back lb then
        set_anon_labels a1 (anon_define_backward (anon_labels a1) (pc a1) (current_file a1) (sline st))
      else a1
  | None => a1
  end.

Definition pass2_assemble (a : Assembler) (l : AssembledLine) : Assembler * Statement :=
  let '(_, a3, st') :=
    assembler_assemble_statement (pass2_redefine (pass2_restore_pc a l) l) (stmt l) in
  (a3, st').

(** [int byte_count = end_pc - start_pc;] for the line. *)
Definition pass2_emitted (a : Assembler) (l : AssembledLine) : Z :=
  emitted_count (line_output_pc (pass2_restore_pc a l))
                (line_output_pc (fst (pass2_assemble a l))).

(** The state and the line record after the round. *)
Definition pass2_line (a : Assembler) (l : AssembledLine) : Assembler * AssembledLine :=
  let start_pc := line_output_pc (pass2_restore_pc a l) in
  let (a3, st') := pass2_assemble a l in
  let n := pass2_emitted a l in
  let '(bc, bs) :=
    if (0 <? n) && (n <=? 8) then (n, captured_bytes a3 start_pc (Z.to_nat n))
    else if 8 <? n then (8, captured_bytes a3 start_pc 8)
    else (byte_count l, bytes l) in
  let '(cy, pp) :=
    match body st' with
    | STMT_INSTRUCTION info => (icycles info, ipage_penalty info)
    | _ => (lcycles l, lpage_penalty l)
    end in
  (a3, mkAssembledLine st' (laddress l) (zone l) bc bs cy pp).

Fixpoint pass2_loop (a : Assembler) (todo : list AssembledLine) : Assembler * list AssembledLine :=
  match todo with
  | [] => (a, [])
  | l :: todo' =>
      let (a1, l') := pass2_line a l in
      if max_errors a1 <=? errors a1 then (a1, l' :: todo')
      else let (a2, done) := pass2_loop a1 todo' in (a2, l' :: done)
  end.

(** The resets at the head of [assembler_pass2]. *)
Definition pass2_init (a : Assembler) : Assembler :=
  let a0 := set_in_pseudopc (set_real_pc (set_pc (set_pass a 2) (org a)) (org a)) false in
  let a1 := set_current_zone a0 None in
  set_anon_labels a1 (anon_reset_pass (anon_labels a1)).

Definition assembler_pass2 (a : Assembler) : Assembler :=
  let a2 := pass2_init a in
  let (a3, ls) := pass2_loop a2 (lines a2) in
  set_lines a3 ls.

(** [assembler_assemble_string] on a freshly created assembler. *)
Definition assembler_assemble (a : Assembler) (max_depth : Z) (src : list SourceLine)
                              (filename : string) : option Assembler :=
  match assembler_pass1 a max_depth src filename with
  | None => None
  | Some a1 => if 0 <? errors a1 then Some a1 else Some (assembler_pass2 a1)
  end.

(** The pass number and the symbol store after a step are those before. *)
Definition frame (a a' : Assembler) : Prop :=
  pass a' = pass a /\ symbols a' = symbols a.

(** The stored line is an assignment to a name that the symbol store
    identifies with [nm]. *)
Definition assigns_to (nm : string) (l : AssembledLine) : bool :=
  match body (stmt l) with
  | STMT_ASSIGNMENT assign => str_equal_nocase (aname assign) nm
  | _ => false
  end.

Definition never_assigned (nm : string) (ls : list AssembledLine) : bool :=
  forallb (fun l => negb (assigns_to nm l)) ls.

(** The bytes of the image from [lo] on. *)
Definition image (a : Assembler) (lo : Z) (n : nat) : list Z :=
  map (fun j => memory_at a (lo + Z.of_nat j)) (seq 0 n).

End Assembler.

(** * Sample programs *)

Module Programs.

Import Expr Parser Assembler.

#[local] Open Scope string_scope.

Definition org_line (n : Z) (addr : Z) : SourceLine :=
  mkLine (LINE_DIRECTIVE (mkDirective "org" [EXPR_NUMBER addr] None)) n None.

Definition direct (e : Expr) : OperandInfo := mkOperand (Some e) false false false false.
Definition immediate (e : Expr) : OperandInfo := mkOperand (Some e) true false false false.
Definition no_operand : OperandInfo := mkOperand None false false false false.

Definition instr (n : Z) (mn : string) (o : OperandInfo) : SourceLine :=
  mkLine (LINE_INSTRUCTION mn o) n None.

Definition assign (n : Z) (nm : string) (e : Expr) : SourceLine :=
  mkLine (LINE_ASSIGNMENT (mkAssignment nm (Some e))) n None.

Definition labelled (nm : string) (l : SourceLine) : SourceLine :=
  mkLine (lbody l) (lline l) (Some (mkLabel nm false false false)).

(** The assembler as [assembler_create] leaves it, with the default origin
    $0801 and room for 100 errors and warnings. *)
Definition fresh : Assembler := assembler_create 2049 100 100.

Definition assemble (src : list SourceLine) : option Assembler :=
  assembler_assemble fresh 64 src "test.asm".

(** [*=$1000 / lda zp / zp = $42 / rts] *)
Definition forward_zp : list SourceLine :=
  [ org_line 1 4096; instr 2 "lda" (direct (EXPR_SYMBOL "zp"));
    assign 3 "zp" (EXPR_NUMBER 66); instr 4 "rts" no_operand ].

(** [*=$1000 / zp = $42 / lda zp / rts] *)
Definition backward_zp : list SourceLine :=
  [ org_line 1 4096; assign 2 "zp" (EXPR_NUMBER 66);
    instr 3 "lda" (direct (EXPR_SYMBOL "zp")); instr 4 "rts" no_operand ].

(** [*=$1000 / bne fwd / fwd: rts] *)
Definition forward_branch : list SourceLine :=
  [ org_line 1 4096; instr 2 "bne" (direct (EXPR_SYMBOL "fwd"));
    labelled "fwd" (instr 3 "rts" no_operand) ].

(** [*=$1000 / lda #fwd / fwd = $42] *)
Definition forward_immediate : list SourceLine :=
  [ org_line 1 4096; instr 2 "lda" (immediate (EXPR_SYMBOL "fwd"));
    assign 3 "fwd" (EXPR_NUMBER 66) ].

(** [*=$0000 / !basic / rts] *)
Definition basic_at_zero : list SourceLine :=
  [ org_line 1 0; mkLine (LINE_DIRECTIVE (mkDirective "basic" [] None)) 2 None;
    instr 3 "rts" no_operand ].

(** [*=$0801 / !basic / rts] *)
Definition basic_at_0801 : list SourceLine :=
  [ org_line 1 2049; mkLine (LINE_DIRECTIVE (mkDirective "basic" [] None)) 2 None;
    instr 3 "rts" no_operand ].

(** [*=$1000 / foo = bar / nop / bar: rts] *)
Definition forward_assignment : list SourceLine :=
  [ org_line 1 4096; assign 2 "foo" (EXPR_SYMBOL "bar");
    instr 3 "nop" no_operand; labelled "bar" (instr 4 "rts" no_operand) ].

(** [*=$1000 / bne $11000] *)
Definition far_branch : list SourceLine :=
  [ org_line 1 4096; instr 2 "bne" (direct (EXPR_NUMBER 69632)) ].

End Programs.

(** * Reference notions for the statements *)

Module Readings.

Import Lexer Expr.

(** The number a string of decimal digits denotes. *)
Definition decimal_value (ds : list ascii) : Z :=
  fold_left (fun acc c => acc * 10 + (code c - 48)) ds 0.

(** The number a string of hexadecimal digits denotes. *)
Definition hex_number (hs : list ascii) : Z :=
  fold_left (fun acc c => acc * 16 + hex_value c) hs 0.


(** [p] holds for the [n] integers from [v] on. *)
Fixpoint forall_range (n : nat) (v : Z) (p : Z -> bool) : bool :=
  match n with
  | O => true
  | S n' => p v && forall_range n' (v + 1) p
  end.

End Readings.

(** * More of [opcodes.c] *)

Module OpcodeQueries.

Import Opcodes.

(** [opcode_mode_size], with the array [mode_sizes]. *)
Definition opcode_mode_size (md : AddressingMode) : Z :=
  match md with
  | ADDR_IMPLIED | ADDR_ACCUMULATOR => 1
  | ADDR_IMMEDIATE | ADDR_ZEROPAGE | ADDR_ZEROPAGE_X | ADDR_ZEROPAGE_Y => 2
  | ADDR_ABSOLUTE | ADDR_ABSOLUTE_X | ADDR_ABSOLUTE_Y | ADDR_INDIRECT => 3
  | ADDR_INDIRECT_X | ADDR_INDIRECT_Y | ADDR_RELATIVE => 2
  | ADDR_INVALID => 0
  end.

(** [opcode_find_by_opcode]; the parameter is a [uint8_t]. *)
Definition opcode_find_by_opcode (byte : Z) : option OpcodeEntry :=
  List.find (fun e => opcode e =? to_uint8 byte) opcode_table.

(** The table entry agrees with [mode_sizes] and holds a byte. *)
Definition entry_ok (e : OpcodeEntry) : bool :=
  (size e =? opcode_mode_size (mode e)) && (0 <=? opcode e) && (opcode e <=? 255).

(** The first entry with the opcode byte of [e] has the mode of [e]. *)
Definition opcode_determines_mode (e : OpcodeEntry) : bool :=
  match opcode_find_by_opcode (opcode e) with
  | Some e' => mode_eqb (mode e') (mode e)
  | None => false
  end.

End OpcodeQueries.

(** * Properties *)

Import Lexer Symbols Expr Opcodes Parser Assembler.

(** ** Machine integers *)

Lemma to_int32_range z : -2147483648 <= to_int32 z <= 2147483647.
Proof. unfold to_int32. pose proof (Z.mod_pos_bound (z + 2147483648) 4294967296). lia. Qed.

Lemma to_int32_id z : -2147483648 <= z <= 2147483647 -> to_int32 z = z.
Proof. intros H. unfold to_int32. rewrite Z.mod_small; lia. Qed.

Lemma to_uint16_range z : 0 <= to_uint16 z < 65536.
Proof. unfold to_uint16. apply Z.mod_pos_bound. lia. Qed.

Lemma to_uint16_id z : 0 <= z < 65536 -> to_uint16 z = z.
Proof. intros H. unfold to_uint16. apply Z.mod_small. lia. Qed.

Lemma to_uint8_range z : 0 <= to_uint8 z < 256.
Proof. unfold to_uint8. apply Z.mod_pos_bound. lia. Qed.

Lemma to_uint8_id z : 0 <= z < 256 -> to_uint8 z = z.
Proof. intros H. unfold to_uint8. apply Z.mod_small. lia. Qed.

(** ** The lexer: decimal literals *)

Section DecimalLiterals.

(** A literal inside the 32-bit range is read exactly. *)
Example decimal_max :
  let (tok, _) := lexer_next (lexer_init (src_of "2147483647")) in
  tok_type tok = TOK_NUMBER /\ tok_number tok = 2147483647.
Proof. vm_compute. split; reflexivity. Qed.

(** The overflow test catches the literal just above the range. *)
Example decimal_just_above :
  let (tok, _) := lexer_next (lexer_init (src_of "2147483648")) in
  tok_type tok = TOK_ERROR /\ tok_start tok = Message "decimal number too large".
Proof. vm_compute. split; reflexivity. Qed.

(** One round of the loop, when the wrapped product is not below the old
    value: the loop goes on, whatever the mathematical value was. *)
Lemma decimal_loop_step c rest v used :
  is_digit c = true ->
  (to_int32 (v * 10 + (code c - 48)) <? v) = false ->
  decimal_loop (c :: rest) v used
  = decimal_loop rest (to_int32 (v * 10 + (code c - 48))) (S used).
Proof. intros Hd Hlt. simpl. rewrite Hd, Hlt. reflexivity. Qed.

End DecimalLiterals.

(** C7 (the code at the failing input): the ten digits [5000000000] exceed
    2147483647, yet the lexer returns a number token, with the wrapped value
    705032704: at the last digit [500000000 * 10] wraps to 705032704, which
    is not below 500000000, so the test [new_value < value] stays silent. *)
Theorem C7_decimal_overflow_accepted :
  let (tok, lex) := lexer_next (lexer_init (src_of "5000000000")) in
  tok_type tok = TOK_NUMBER /\ tok_number tok = 705032704 /\
  tok_length tok = 10 /\ current lex = 10%nat.
Proof. vm_compute. repeat split; reflexivity. Qed.

(** ** Code emission *)

Section Emission.

Lemma output_addr_range a : 0 <= output_addr a < ASM_MEMORY_SIZE.
Proof. unfold output_addr, ASM_MEMORY_SIZE. apply to_uint16_range. Qed.

Lemma emit_byte_memory a byte :
  memory (assembler_emit_byte a byte) = <[output_addr a := to_uint8 byte]> (memory a).
Proof.
  unfold assembler_emit_byte.
  destruct (output_addr a <? lowest_addr a);
    destruct (highest_addr _ <? output_addr a); reflexivity.
Qed.

Lemma emit_byte_written a byte :
  written (assembler_emit_byte a byte) = {[output_addr a]} ∪ written a.
Proof.
  unfold assembler_emit_byte.
  destruct (output_addr a <? lowest_addr a);
    destruct (highest_addr _ <? output_addr a); reflexivity.
Qed.

Lemma emit_byte_pc a byte : pc (assembler_emit_byte a byte) = to_uint16 (pc a + 1).
Proof.
  unfold assembler_emit_byte.
  destruct (output_addr a <? lowest_addr a);
    destruct (highest_addr _ <? output_addr a); reflexivity.
Qed.

Lemma emit_byte_real_pc a byte : real_pc (assembler_emit_byte a byte) = to_uint16 (real_pc a + 1).
Proof.
  unfold assembler_emit_byte.
  destruct (output_addr a <? lowest_addr a);
    destruct (highest_addr _ <? output_addr a); reflexivity.
Qed.

Lemma emit_byte_in_pseudopc a byte : in_pseudopc (assembler_emit_byte a byte) = in_pseudopc a.
Proof.
  unfold assembler_emit_byte.
  destruct (output_addr a <? lowest_addr a);
    destruct (highest_addr _ <? output_addr a); reflexivity.
Qed.

Lemma emit_byte_bounds a byte :
  lowest_addr (assembler_emit_byte a byte) = Z.min (output_addr a) (lowest_addr a) /\
  highest_addr (assembler_emit_byte a byte) = Z.max (output_addr a) (highest_addr a).
Proof.
  unfold assembler_emit_byte.
  destruct (Z.ltb_spec (output_addr a) (lowest_addr a)); simpl;
    match goal with |- context [ ?x <? ?y ] => destruct (Z.ltb_spec x y) end;
    simpl in *; lia.
Qed.

(** Every cell of the image that holds a byte after a run of emissions held
    one before, or lies inside the 64 KiB. *)
Lemma emit_bytes_in_image bs : forall a,
  map_Forall (fun k _ => is_Some (memory a !! k) \/ 0 <= k < ASM_MEMORY_SIZE)
             (memory (assembler_emit_bytes a bs)).
Proof.
  unfold assembler_emit_bytes.
  induction bs as [|b bs IH]; intros a; simpl.
  - intros k v Hk. left. eauto.
  - intros k v Hk. destruct (IH (assembler_emit_byte a b) k v Hk) as [Hs|Hr]; [|by right].
    rewrite emit_byte_memory in Hs.
    destruct (decide (k = output_addr a)) as [->|Hne].
    + right. apply output_addr_range.
    + left. by rewrite lookup_insert_ne in Hs.
Qed.

End Emission.

(** C9: the address [assembler_emit_byte] writes to is the 16-bit value of
    [pc] (or of [real_pc] inside [!pseudopc]), hence an index into the
    65536 cells of [memory] and [written]; the byte lands in that cell only,
    the bounds enclose it afterwards, and both counters advance modulo
    65536.  This holds in every state, so also for every emission of a
    program whose PC runs past $FFFF, and a run of emissions never stores
    outside the image. *)
Theorem C9_emit_byte_stays_in_image (a : Assembler) (byte : Z) (bs : list Z) :
  let out := output_addr a in
  let a' := assembler_emit_byte a byte in
  out = (if in_pseudopc a then real_pc a else pc a) mod 65536 /\
  0 <= out < ASM_MEMORY_SIZE /\
  memory a' = <[out := to_uint8 byte]> (memory a) /\
  written a' = {[out]} ∪ written a /\
  lowest_addr a' <= out <= highest_addr a' /\
  pc a' = (pc a + 1) mod 65536 /\ real_pc a' = (real_pc a + 1) mod 65536 /\
  map_Forall (fun k _ => is_Some (memory a !! k) \/ 0 <= k < ASM_MEMORY_SIZE)
             (memory (assembler_emit_bytes a bs)).
Proof.
  cbv zeta. split; [reflexivity|]. split; [apply output_addr_range|].
  split; [apply emit_byte_memory|]. split; [apply emit_byte_written|].
  destruct (emit_byte_bounds a byte) as [-> ->].
  split; [lia|]. split; [apply emit_byte_pc|]. split; [apply emit_byte_real_pc|].
  apply emit_bytes_in_image.
Qed.

(** A program that runs past $FFFF: two bytes emitted at $FFFF land in the
    cells $FFFF and $0000. *)
Example emit_wraps_at_top :
  let a := assembler_emit_bytes (set_pc Programs.fresh 65535) [1; 2] in
  memory_at a 65535 = 1 /\ memory_at a 0 = 2 /\ pc a = 1 /\
  lowest_addr a = 0 /\ highest_addr a = 65535.
Proof. vm_compute. repeat split; reflexivity. Qed.

(** ** The BASIC stub *)

Section BasicStub.

Import Programs.

(** At the usual origin the stub takes the same twelve bytes in both
    passes. *)
Example basic_stub_at_0801 :
  match assembler_pass1 fresh 64 basic_at_0801 "test.asm" with
  | Some a1 =>
      map laddress (lines a1) = [2049; 2049; 2061] /\
      image (assembler_pass2 a1) 2049 13
      = [11; 8; 10; 0; 158; 50; 48; 54; 49; 0; 0; 0; 96]
  | None => False
  end.
Proof. vm_compute. split; reflexivity. Qed.

End BasicStub.

(** C3 (the code at the failing input): for [*=$0000 / !basic / rts] pass 1
    stores the [!basic] line at address 0 and the next line at 12, so the
    line advanced the PC by twelve bytes (the size is computed for four
    digits); pass 2 prints the default SYS address 12 with two digits and
    emits ten bytes for the line.  The line record keeps a [byte_count] of 8,
    the first bytes are [0A 00 0A 00 9E 31 32 00 00 00], and the cells 10 and
    11 before the [rts] are never written. *)
Theorem C3_basic_stub_shorter_in_pass2 :
  match assembler_pass1 Programs.fresh 64 Programs.basic_at_zero "test.asm" with
  | Some a1 =>
      errors a1 = 0 /\
      map laddress (lines a1) = [2049; 0; 12] /\
      match lines a1 with
      | [l0; l1; l2] =>
          let s1 := fst (pass2_line (pass2_init a1) l0) in
          pass2_emitted s1 l1 = 10 /\
          byte_count (snd (pass2_line s1 l1)) = 8
      | _ => False
      end /\
      let a2 := assembler_pass2 a1 in
      errors a2 = 0 /\
      image a2 0 13 = [10; 0; 10; 0; 158; 49; 50; 0; 0; 0; 0; 0; 96] /\
      written a2 = list_to_set [0; 1; 2; 3; 4; 5; 6; 7; 8; 9; 12]
  | None => False
  end.
Proof. vm_compute. repeat split; reflexivity. Qed.

(** ** Relative branches *)

Section Branches.

Lemma eval_unchanged a e :
  let a1 := snd (eval a e) in
  pass a1 = pass a /\ pc a1 = pc a /\ real_pc a1 = real_pc a /\
  in_pseudopc a1 = in_pseudopc a /\ memory a1 = memory a /\ written a1 = written a /\
  errors a1 = errors a /\ max_errors a1 = max_errors a /\ symbols a1 = symbols a /\
  diagnostics a1 = diagnostics a /\ lowest_addr a1 = lowest_addr a /\
  highest_addr a1 = highest_addr a /\ current_zone a1 = current_zone a /\
  lines a1 = lines a /\ loop_depth a1 = loop_depth a /\
  current_file a1 = current_file a /\ current_line a1 = current_line a.
Proof.
  unfold eval. destruct (expr_eval_opt _ _ _ _ _ _) as [r [an|]]; simpl; repeat split.
Qed.

Lemma error_keeps_image a msg :
  let a' := assembler_error a msg in
  memory a' = memory a /\ written a' = written a /\ pc a' = pc a /\
  real_pc a' = real_pc a /\ lowest_addr a' = lowest_addr a /\
  highest_addr a' = highest_addr a.
Proof. unfold assembler_error. destruct (_ <=? _); simpl; repeat split. Qed.

Lemma error_reported a msg :
  errors a < max_errors a ->
  errors (assembler_error a msg) = errors a + 1 /\
  diagnostics (assembler_error a msg)
  = diagnostics a ++ [mkDiagnostic LEVEL_ERROR (current_file a) (current_line a) msg].
Proof.
  intros H. unfold assembler_error.
  destruct (Z.leb_spec (max_errors a) (errors a)); [lia|]. split; reflexivity.
Qed.

Lemma output_addr_emit a byte :
  output_addr (assembler_emit_byte a byte) = (output_addr a + 1) mod 65536.
Proof.
  unfold output_addr. rewrite emit_byte_in_pseudopc, emit_byte_pc, emit_byte_real_pc.
  unfold to_uint16. destruct (in_pseudopc a);
    rewrite Z.mod_mod by lia; rewrite Zplus_mod_idemp_l; reflexivity.
Qed.

End Branches.

(** C4, where the claim as stated fails: at [*=$1000], [bne $11000] has the
    evaluated target $11000, which is 65534 bytes past [pc+2]; no error is
    reported and the two bytes [D0 FE] of a branch to $1000 are emitted. *)
Lemma C4_counterexample :
  let target := 69632 in
  let pc := 4096 in
  (target - (pc + 2) < -128 \/ 127 < target - (pc + 2)) /\
  match Programs.assemble Programs.far_branch with
  | Some a => errors a = 0 /\ diagnostics a = [] /\ image a 4096 2 = [208; 254]
  | None => False
  end.
Proof. vm_compute. split; [right; reflexivity | repeat split; reflexivity]. Qed.

(** C4, amended: in pass 2, for a relative branch whose operand evaluates to
    a defined value, let the target be that value reduced modulo 65536 (the
    16-bit parameter of [assembler_calc_branch_offset]).  If the target minus
    [pc+2] lies outside -128..127 the assembler reports "branch target out
    of range" and emits nothing; otherwise it emits the opcode followed by
    the one byte [(target - (pc+2)) & 0xFF]. *)
Theorem C4_relative_branch_pass2
    (a a1 : Assembler) (info : InstructionInfo) (e : Expr) (r : ExprResult) :
  pass a = 2 ->
  imode info = ADDR_RELATIVE ->
  operand info = Some e ->
  eval a (Some e) = (r, a1) ->
  defined r = true ->
  let off := to_uint16 (Expr.value r) - (to_uint16 (pc a) + 2) in
  let out := output_addr a in
  (off < -128 \/ 127 < off ->
     let a' := assembler_error a1 "branch target out of range" in
     assembler_assemble_instruction a info = (-1, a', info) /\
     memory a' = memory a /\ written a' = written a /\ pc a' = pc a /\
     (errors a < max_errors a ->
        diagnostics a'
        = diagnostics a ++ [mkDiagnostic LEVEL_ERROR (current_file a) (current_line a)
                                         "branch target out of range"])) /\
  (-128 <= off <= 127 ->
     let a' := assembler_emit_byte (assembler_emit_byte a1 (iopcode info)) (Z.land off 255) in
     assembler_assemble_instruction a info = (0, a', info) /\
     memory a' = <[(out + 1) mod 65536 := Z.land off 255]>
                   (<[out := to_uint8 (iopcode info)]> (memory a)) /\
     pc a' = (pc a + 2) mod 65536 /\ errors a' = errors a).
Proof.
  intros Hpass Hmode Hop Heval Hdef off out.
  pose proof (eval_unchanged a (Some e)) as Hun. rewrite Heval in Hun. simpl in Hun.
  destruct Hun as (Hp & Hpc & Hrpc & Hpp & Hmem & Hwr & Herr & Hmax & _ & Hdiag & _ & _ & _ & _ & _ & Hfile & Hline).
  assert (Hout : output_addr a1 = out).
  { unfold out, output_addr. rewrite Hpp, Hpc, Hrpc. reflexivity. }
  assert (Hstep : assembler_assemble_instruction a info =
    if assembler_calc_branch_offset (to_uint16 (Expr.value r)) (to_uint16 (pc a1)) =? INT_MIN
    then (-1, assembler_error a1 "branch target out of range", info)
    else (0, assembler_emit_byte (assembler_emit_byte a1 (iopcode info))
               (Z.land (assembler_calc_branch_offset (to_uint16 (Expr.value r))
                                                     (to_uint16 (pc a1))) 255), info)).
  { unfold assembler_assemble_instruction. rewrite Hmode, Hop, Heval, Hp, Hpass, Hdef. reflexivity. }
  rewrite Hpc in Hstep. fold off in Hstep.
  unfold assembler_calc_branch_offset in Hstep. fold off in Hstep.
  split.
  - intros Hrange. cbv zeta.
    assert (Hb : (off <? -128) || (127 <? off) = true).
    { apply orb_true_iff. destruct Hrange; [left|right]; apply Z.ltb_lt; lia. }
    rewrite Hb in Hstep. simpl in Hstep. split; [exact Hstep|].
    destruct (error_keeps_image a1 "branch target out of range") as (-> & -> & -> & _).
    repeat split; try congruence.
    intros Hlt. destruct (error_reported a1 "branch target out of range") as [_ ->]; [lia|].
    rewrite Hdiag, Hfile, Hline. reflexivity.
  - intros Hrange. cbv zeta.
    assert (Hb : (off <? -128) || (127 <? off) = false).
    { apply orb_false_iff. split; apply Z.ltb_ge; lia. }
    rewrite Hb in Hstep.
    assert (Hne : (off =? INT_MIN) = false) by (apply Z.eqb_neq; unfold INT_MIN; lia).
    rewrite Hne in Hstep. split; [exact Hstep|].
    rewrite !emit_byte_memory, output_addr_emit, Hout, Hmem.
    split.
    { f_equal. apply to_uint8_id. change 255 with (Z.ones 8). rewrite Z.land_ones by lia.
      apply Z.mod_pos_bound. lia. }
    rewrite !emit_byte_pc, Hpc. split.
    { unfold to_uint16. rewrite Zplus_mod_idemp_l. f_equal. lia. }
    unfold assembler_emit_byte.
    repeat match goal with |- context [ if ?c then _ else _ ] => destruct c end;
      simpl; exact Herr.
Qed.

Lemma C4_relative_branch_pass2_witness :
  let a := set_pc (set_pass Programs.fresh 2) 4096 in
  let info := mkInstruction "bne" ADDR_RELATIVE (Some (EXPR_NUMBER 4096)) 208 2 2 1 in
  -128 <= to_uint16 4096 - (to_uint16 (pc a) + 2) <= 127 /\
  assembler_assemble_instruction a info
  = (0, assembler_emit_byte (assembler_emit_byte a 208) (Z.land (-2) 255), info).
Proof.
  cbv zeta. split; [vm_compute; split; discriminate|].
  refine (proj1 (proj2 (C4_relative_branch_pass2
            (set_pc (set_pass Programs.fresh 2) 4096)
            (set_pc (set_pass Programs.fresh 2) 4096)
            (mkInstruction "bne" ADDR_RELATIVE (Some (EXPR_NUMBER 4096)) 208 2 2 1)
            (EXPR_NUMBER 4096) (mkResult 4096 true false)
            eq_refl eq_refl eq_refl eq_refl eq_refl) _)).
  vm_compute. split; discriminate.
Defined.

(** ** The anonymous-label tracker *)

Section AnonymousLabels.

Lemma resolve_backward_short anon k :
  backward_count anon < k -> anon_resolve_backward (Some anon) k = -1.
Proof.
  intros H. unfold anon_resolve_backward.
  destruct (Z.ltb_spec k 1); [reflexivity|].
  destruct (Z.ltb_spec (backward_count anon - k) 0); [reflexivity|lia].
Qed.

(** The tracker after an evaluation: the lists are the same and the cursor
    has not moved back. *)
Lemma expr_eval_tracker e : forall symbols anon pc pass zone,
  exists an', snd (expr_eval e symbols (Some anon) pc pass zone) = Some an' /\
              backward an' = backward anon /\ forward an' = forward anon /\
              forward_index anon <= forward_index an'.
Proof.
  induction e as [n|nm| |op e IH|op l IHl r IHr]; intros symbols anon pc pass zone; simpl.
  - exists anon. repeat split; lia.
  - unfold eval_symbol.
    destruct (String.prefix "__anon_fwd_" nm).
    + destruct (pass =? 1); simpl; [exists anon; repeat split; lia|].
      destruct (forward_index anon <? forward_count anon); simpl;
        eexists; repeat split; simpl; lia.
    + destruct (String.prefix "__anon_back_" nm).
      * destruct (_ <? 0); simpl; exists anon; repeat split; lia.
      * destruct symbols as [table|]; simpl; [|exists anon; repeat split; lia].
        destruct (symbol_lookup _ _) as [sym|]; [destruct (has_flag _ _)|]; simpl;
          exists anon; repeat split; lia.
  - exists anon. repeat split; lia.
  - destruct (IH symbols anon pc pass zone) as (an' & H & Hb & Hf & Hi).
    destruct (expr_eval e symbols (Some anon) pc pass zone) as [rv o]. simpl in *.
    exists an'. repeat split; assumption.
  - destruct (IHl symbols anon pc pass zone) as (an1 & H1 & Hb1 & Hf1 & Hi1).
    destruct (expr_eval l symbols (Some anon) pc pass zone) as [lv o1]. simpl in H1. subst o1.
    destruct (IHr symbols an1 pc pass zone) as (an2 & H2 & Hb2 & Hf2 & Hi2).
    destruct (expr_eval r symbols (Some an1) pc pass zone) as [rv o2]. simpl in *. subst o2.
    exists an2. repeat split; [congruence|congruence|lia].
Qed.

Lemma eval_symbol_back_short nm k symbols anon pass zone :
  anon_back_count nm = Some k ->
  backward_count anon < k ->
  eval_symbol nm symbols (Some anon) pass zone = (mkResult 0 false false, Some anon).
Proof.
  unfold anon_back_count, eval_symbol. intros Hk Hshort.
  destruct (String.prefix "__anon_fwd_" nm); [discriminate|].
  destruct (String.prefix "__anon_back_" nm); [|discriminate].
  injection Hk as <-. rewrite resolve_backward_short by assumption. reflexivity.
Qed.

(** An expression that contains a backward reference beyond the recorded
    labels is undefined. *)
Lemma back_reference_undefined e : forall nm k symbols anon pc pass zone,
  contains_symbol nm e = true ->
  anon_back_count nm = Some k ->
  backward_count anon < k ->
  defined (fst (expr_eval e symbols (Some anon) pc pass zone)) = false.
Proof.
  induction e as [n|nm'| |op e IH|op l IHl r IHr];
    intros nm k symbols anon pc pass zone Hc Hk Hshort; simpl in *; try discriminate.
  - apply String.eqb_eq in Hc. subst nm'.
    rewrite (eval_symbol_back_short nm k) by assumption. reflexivity.
  - specialize (IH nm k symbols anon pc pass zone Hc Hk Hshort).
    destruct (expr_eval e symbols (Some anon) pc pass zone) as [rv o]. simpl in *.
    destruct op; simpl; exact IH.
  - destruct (expr_eval_tracker l symbols anon pc pass zone) as (an1 & H1 & Hb1 & _ & _).
    pose proof (fun H => IHl nm k symbols anon pc pass zone H Hk Hshort) as Hl.
    destruct (expr_eval l symbols (Some anon) pc pass zone) as [lv o1]. simpl in H1. subst o1.
    assert (Hshort1 : backward_count an1 < k) by (unfold backward_count in *; rewrite Hb1; exact Hshort).
    pose proof (fun H => IHr nm k symbols an1 pc pass zone H Hk Hshort1) as Hr.
    destruct (expr_eval r symbols (Some an1) pc pass zone) as [rv o2]. simpl in *.
    apply orb_true_iff in Hc. destruct Hc as [Hc|Hc].
    + rewrite (Hl Hc). reflexivity.
    + rewrite (Hr Hc). apply andb_false_r.
Qed.

End AnonymousLabels.

(** C10: with fewer than [k] backward labels recorded, a backward reference
    with count [k] evaluates to value 0, undefined, without reading the
    array (the tracker is returned as it was); and in pass 2 an instruction
    whose operand contains such a reference reports "undefined symbol in
    operand" and emits nothing. *)
Theorem C10_short_backward_reference
    (a : Assembler) (info : InstructionInfo) (e : Expr) (nm : string) (k : Z)
    (symbols : option SymbolTable) (anon : AnonLabels) (pc0 pass0 : Z) (zone : option string) :
  anon_back_count nm = Some k ->
  (backward_count anon < k ->
     anon_resolve_backward (Some anon) k = -1 /\
     expr_eval (EXPR_SYMBOL nm) symbols (Some anon) pc0 pass0 zone
     = (mkResult 0 false false, Some anon)) /\
  (backward_count (anon_labels a) < k ->
   pass a = 2 ->
   evaluates_operand (imode info) = true ->
   operand info = Some e ->
   contains_symbol nm e = true ->
     let a' := assembler_error (snd (eval a (Some e))) "undefined symbol in operand" in
     assembler_assemble_instruction a info = (-1, a', info) /\
     memory a' = memory a /\ written a' = written a /\ pc a' = pc a /\
     (errors a < max_errors a ->
        diagnostics a'
        = diagnostics a ++ [mkDiagnostic LEVEL_ERROR (current_file a) (current_line a)
                                         "undefined symbol in operand"])).
Proof.
  intros Hk. split.
  - intros Hshort. split; [apply resolve_backward_short; assumption|].
    simpl. apply (eval_symbol_back_short nm k); assumption.
  - intros Hshort Hpass Hmode Hop Hc. cbv zeta.
    pose proof (eval_unchanged a (Some e)) as Hun.
    assert (Hdef : defined (fst (eval a (Some e))) = false).
    { unfold eval. simpl.
      pose proof (back_reference_undefined e nm k (Some (Assembler.symbols a)) (anon_labels a)
                    (pc a) (pass a) (current_zone a) Hc Hk Hshort) as Hd.
      destruct (expr_eval e _ _ _ _ _) as [rv o]. exact Hd. }
    destruct (eval a (Some e)) as [rv a1] eqn:Heval. simpl in *.
    destruct Hun as (Hp & Hpc & Hrpc & Hpp & Hmem & Hwr & Herr & Hmax & _ & Hdiag & _ & _ & _ & _ & _ & Hfile & Hline).
    split.
    + unfold assembler_assemble_instruction. rewrite Hop, Heval, Hp, Hpass, Hdef.
      destruct (imode info); try discriminate Hmode; reflexivity.
    + destruct (error_keeps_image a1 "undefined symbol in operand") as (-> & -> & -> & _).
      repeat split; try congruence.
      intros Hlt. destruct (error_reported a1 "undefined symbol in operand") as [_ ->]; [lia|].
      rewrite Hdiag, Hfile, Hline. reflexivity.
Qed.

Lemma C10_short_backward_reference_witness :
  let a := set_pc (set_pass Programs.fresh 2) 4096 in
  let e := EXPR_BINARY BINARY_ADD (EXPR_SYMBOL "__anon_back_1") (EXPR_NUMBER 1) in
  let info := mkInstruction "jmp" ADDR_ABSOLUTE (Some e) 76 3 3 0 in
  expr_eval (EXPR_SYMBOL "__anon_back_2") None
            (Some (anon_define_backward anon_create 4096 "t" 1)) 0 1 None
  = (mkResult 0 false false, Some (anon_define_backward anon_create 4096 "t" 1)) /\
  assembler_assemble_instruction a info
  = (-1, assembler_error (snd (eval a (Some e))) "undefined symbol in operand", info).
Proof.
  cbv zeta. split.
  - refine (proj2 (proj1 (C10_short_backward_reference
              Programs.fresh (mkInstruction "nop" ADDR_IMPLIED None 234 1 2 0) (EXPR_NUMBER 0)
              "__anon_back_2" 2 None (anon_define_backward anon_create 4096 "t" 1) 0 1 None
              eq_refl) _)).
    vm_compute. reflexivity.
  - refine (proj1 (proj2 (C10_short_backward_reference
              (set_pc (set_pass Programs.fresh 2) 4096)
              (mkInstruction "jmp" ADDR_ABSOLUTE
                 (Some (EXPR_BINARY BINARY_ADD (EXPR_SYMBOL "__anon_back_1") (EXPR_NUMBER 1)))
                 76 3 3 0)
              (EXPR_BINARY BINARY_ADD (EXPR_SYMBOL "__anon_back_1") (EXPR_NUMBER 1))
              "__anon_back_1" 1 None anon_create 0 1 None eq_refl)
              _ eq_refl eq_refl eq_refl eq_refl)).
    vm_compute. reflexivity.
Defined.

(** ** Forward references in pass 2 *)

Section ForwardReferences.






End ForwardReferences.



(** ** The symbol store *)

Section SymbolStore.

(** *** Flag bits *)

Lemma has_flag_testbit f n : 0 <= n -> has_flag f (2 ^ n) = Z.testbit f n.
Proof.
  intros Hn. unfold has_flag.
  destruct (Z.testbit f n) eqn:Hb.
  - apply negb_true_iff, Z.eqb_neq. intros H0.
    assert (Z.testbit (Z.land f (2 ^ n)) n = true)
      by (rewrite Z.land_spec, Hb, Z.pow2_bits_true by lia; reflexivity).
    rewrite H0, Z.bits_0 in H. discriminate.
  - apply negb_false_iff, Z.eqb_eq, Z.bits_inj'. intros m Hm.
    rewrite Z.land_spec, Z.bits_0, Z.pow2_bits_eqb by lia.
    destruct (Z.eqb_spec n m); [subst; rewrite Hb; reflexivity|apply andb_false_r].
Qed.

Lemma testbit_uint8 x n : 0 <= n < 8 -> Z.testbit (to_uint8 x) n = Z.testbit x n.
Proof.
  intros Hn. unfold to_uint8. change 256 with (2 ^ 8).
  apply Z.mod_pow2_bits_low. lia.
Qed.

Lemma testbit_clear x b n :
  0 <= n -> 0 <= b -> Z.testbit (Z.land x (Z.lnot (2 ^ b))) n = Z.testbit x n && negb (n =? b).
Proof.
  intros Hn Hb. rewrite Z.land_spec, Z.lnot_spec, Z.pow2_bits_eqb by lia.
  rewrite (Z.eqb_sym b n). reflexivity.
Qed.

(** Bit [n] of the flags of an entry after a granted update: the old bit
    ([keep] tells whether it survives), the request's bit unless it is
    FORCE_UPDATE, and DEFINED. *)
Lemma updated_flags_bit old fl n :
  0 <= n < 8 ->
  Z.testbit (to_uint8 (Z.lor old (Z.lor (Z.land fl (Z.lnot SYM_FORCE_UPDATE)) SYM_DEFINED))) n
  = Z.testbit old n || (Z.testbit fl n && negb (n =? 6)) || (n =? 0).
Proof.
  intros Hn. rewrite testbit_uint8 by lia. rewrite !Z.lor_spec.
  change SYM_FORCE_UPDATE with (2 ^ 6). rewrite testbit_clear by lia.
  change SYM_DEFINED with (2 ^ 0). rewrite Z.pow2_bits_eqb by lia.
  rewrite (Z.eqb_sym 0 n). rewrite orb_assoc. reflexivity.
Qed.

(** *** Case-insensitive names *)

Lemma str_equal_nocase_upper a : forall b,
  str_equal_nocase a b = true <-> upper a = upper b.
Proof.
  induction a as [|ca a IH]; intros [|cb b]; simpl; split; try discriminate; try reflexivity.
  - destruct (Ascii.eqb_spec (toupper ca) (toupper cb)) as [->|Hne]; simpl; [|discriminate].
    intros H. apply IH in H. rewrite H. reflexivity.
  - intros H. injection H as Hc Hs. rewrite Hc, Ascii.eqb_refl. simpl. apply IH. exact Hs.
Qed.

Lemma str_equal_nocase_refl a : str_equal_nocase a a = true.
Proof. apply str_equal_nocase_upper. reflexivity. Qed.

Lemma str_equal_nocase_trans_false a b c :
  str_equal_nocase a b = true -> str_equal_nocase b c = false -> str_equal_nocase a c = false.
Proof.
  intros Hab Hbc. apply str_equal_nocase_upper in Hab.
  destruct (str_equal_nocase a c) eqn:Hac; [|reflexivity].
  apply str_equal_nocase_upper in Hac.
  assert (str_equal_nocase b c = true) by (apply str_equal_nocase_upper; congruence).
  congruence.
Qed.

(** *** Chains *)

Lemma chain_define_none chain nm v fl :
  chain_lookup chain nm = None -> chain_define chain nm v fl = None.
Proof.
  induction chain as [|sym chain IH]; simpl; [reflexivity|].
  destruct (str_equal_nocase (name sym) nm); [discriminate|].
  intros H. rewrite (IH H). reflexivity.
Qed.

Lemma chain_define_refused chain nm v fl old :
  chain_lookup chain nm = Some old ->
  has_flag (flags old) SYM_CONSTANT = true ->
  has_flag fl SYM_FORCE_UPDATE = false ->
  chain_define chain nm v fl = Some (None, chain).
Proof.
  induction chain as [|sym chain IH]; simpl; [discriminate|].
  destruct (str_equal_nocase (name sym) nm).
  - intros H Hc Hf. injection H as ->. rewrite Hc, Hf. reflexivity.
  - intros H Hc Hf. rewrite (IH H Hc Hf). reflexivity.
Qed.

Lemma chain_define_granted chain nm v fl old :
  chain_lookup chain nm = Some old ->
  has_flag (flags old) SYM_CONSTANT = false \/ has_flag fl SYM_FORCE_UPDATE = true ->
  exists chain',
    chain_define chain nm v fl = Some (Some (updated old v fl), chain') /\
    chain_lookup chain' nm = Some (updated old v fl) /\
    forall nm', str_equal_nocase nm nm' = false ->
                chain_lookup chain' nm' = chain_lookup chain nm'.
Proof.
  induction chain as [|sym chain IH]; simpl; [discriminate|].
  destruct (str_equal_nocase (name sym) nm) eqn:Hm.
  - intros H Hg. injection H as ->. unfold updated.
    destruct (has_flag (flags old) SYM_CONSTANT) eqn:Hc.
    + destruct Hg as [Hg|Hg]; [discriminate|]. rewrite Hg.
      eexists. split; [reflexivity|]. simpl. rewrite Hm. split; [reflexivity|].
      intros nm' Hne. rewrite (str_equal_nocase_trans_false _ _ _ Hm Hne). reflexivity.
    + eexists. split; [reflexivity|]. simpl. rewrite Hm. split; [reflexivity|].
      intros nm' Hne. rewrite (str_equal_nocase_trans_false _ _ _ Hm Hne). reflexivity.
  - intros H Hg. destruct (IH H Hg) as (chain' & Hd & Hl & Ho). rewrite Hd.
    eexists. split; [reflexivity|]. simpl. rewrite Hm. split; [exact Hl|].
    intros nm' Hne. rewrite (Ho nm' Hne). reflexivity.
Qed.

(** *** Buckets *)

Lemma bucket_in_range table nm :
  table_ok table = true -> (bucket_of table nm < length (buckets table))%nat.
Proof.
  unfold table_ok, bucket_of. intros H. apply andb_true_iff in H as [Hs Hl].
  apply Z.ltb_lt in Hs. apply Nat.eqb_eq in Hl. rewrite Hl.
  pose proof (Z.mod_pos_bound (hash_symbol nm) (Symbols.size table) Hs). lia.
Qed.

Lemma chain_at_set_same table b chain cnt :
  (b < length (buckets table))%nat -> chain_at (set_bucket table b chain cnt) b = chain.
Proof.
  intros H. unfold chain_at, set_bucket. simpl.
  apply nth_lookup_Some with (d := []). apply list_lookup_insert_eq. exact H.
Qed.

Lemma chain_at_set_other table b b' chain cnt :
  b <> b' -> chain_at (set_bucket table b chain cnt) b' = chain_at table b'.
Proof.
  intros H. unfold chain_at, set_bucket. simpl.
  destruct (decide (b' < length (buckets table))%nat) as [Hlt|Hge].
  - destruct (lookup_lt_is_Some_2 (buckets table) b' Hlt) as [c Hc].
    rewrite (nth_lookup_Some _ _ [] c); [|rewrite list_lookup_insert_ne by exact H; exact Hc].
    symmetry. apply nth_lookup_Some with (d := []). exact Hc.
  - rewrite !nth_overflow; [reflexivity|lia|rewrite length_insert; lia].
Qed.

Lemma set_bucket_ok table b chain cnt :
  table_ok table = true -> table_ok (set_bucket table b chain cnt) = true.
Proof. unfold table_ok, set_bucket. simpl. rewrite length_insert. auto. Qed.

Lemma lookup_set_same table nm chain cnt :
  table_ok table = true ->
  symbol_lookup (set_bucket table (bucket_of table nm) chain cnt) nm = chain_lookup chain nm.
Proof.
  intros Hok. unfold symbol_lookup.
  change (bucket_of (set_bucket table (bucket_of table nm) chain cnt) nm) with (bucket_of table nm).
  rewrite chain_at_set_same by (apply bucket_in_range; exact Hok). reflexivity.
Qed.

End SymbolStore.

Section SymbolDefine.

Lemma kept_bit old n :
  0 <= n < 8 ->
  Z.testbit (if has_flag (flags old) SYM_CONSTANT
             then to_uint8 (Z.land (flags old) (Z.lnot SYM_CONSTANT)) else flags old) n
  = Z.testbit (flags old) n && negb (has_flag (flags old) SYM_CONSTANT && (n =? 2)).
Proof.
  intros Hn. destruct (has_flag (flags old) SYM_CONSTANT) eqn:Hc.
  - rewrite testbit_uint8 by lia. change SYM_CONSTANT with (2 ^ 2).
    rewrite testbit_clear by lia. reflexivity.
  - simpl. rewrite andb_true_r. reflexivity.
Qed.

Lemma updated_bit old v fl n :
  0 <= n < 8 ->
  Z.testbit (flags (updated old v fl)) n
  = (Z.testbit (flags old) n && negb (has_flag (flags old) SYM_CONSTANT && (n =? 2)))
    || (Z.testbit fl n && negb (n =? 6)) || (n =? 0).
Proof.
  intros Hn. unfold updated. simpl.
  rewrite updated_flags_bit by lia. rewrite kept_bit by lia. reflexivity.
Qed.

Lemma symbol_define_new table nm v fl fi ln :
  table_ok table = true ->
  symbol_lookup table nm = None ->
  let sym := mkSymbol nm nm v (to_uint8 (Z.lor fl SYM_DEFINED)) fi ln in
  let table' := snd (symbol_define table nm v fl fi ln) in
  symbol_define table nm v fl fi ln = (Some sym, table') /\
  symbol_lookup table' nm = Some sym /\
  count table' = count table + 1 /\
  table_ok table' = true /\
  forall nm', str_equal_nocase nm nm' = false -> symbol_lookup table' nm' = symbol_lookup table nm'.
Proof.
  intros Hok Hnone. cbv zeta. unfold symbol_define.
  unfold symbol_lookup in Hnone. rewrite (chain_define_none _ _ v fl Hnone). simpl.
  split; [reflexivity|]. split.
  { rewrite lookup_set_same by exact Hok. simpl. rewrite str_equal_nocase_refl. reflexivity. }
  split; [reflexivity|]. split; [apply set_bucket_ok; exact Hok|].
  intros nm' Hne. unfold symbol_lookup.
  change (bucket_of (set_bucket table _ _ _) nm') with (bucket_of table nm').
  destruct (decide (bucket_of table nm = bucket_of table nm')) as [Heq|Hneq].
  - rewrite <- Heq. rewrite chain_at_set_same by (apply bucket_in_range; exact Hok).
    simpl. rewrite Hne. reflexivity.
  - rewrite chain_at_set_other by exact Hneq. reflexivity.
Qed.

Lemma symbol_define_update table nm v fl fi ln old :
  table_ok table = true ->
  symbol_lookup table nm = Some old ->
  has_flag (flags old) SYM_CONSTANT = false \/ has_flag fl SYM_FORCE_UPDATE = true ->
  let table' := snd (symbol_define table nm v fl fi ln) in
  symbol_define table nm v fl fi ln = (Some (updated old v fl), table') /\
  symbol_lookup table' nm = Some (updated old v fl) /\
  count table' = count table /\
  table_ok table' = true /\
  forall nm', str_equal_nocase nm nm' = false -> symbol_lookup table' nm' = symbol_lookup table nm'.
Proof.
  intros Hok Hold Hg. cbv zeta. unfold symbol_define.
  unfold symbol_lookup in Hold.
  destruct (chain_define_granted _ _ v fl _ Hold Hg) as (chain' & Hd & Hl & Ho).
  rewrite Hd. simpl. split; [reflexivity|]. split.
  { rewrite lookup_set_same by exact Hok. exact Hl. }
  split; [reflexivity|]. split; [apply set_bucket_ok; exact Hok|].
  intros nm' Hne. unfold symbol_lookup.
  change (bucket_of (set_bucket table _ _ _) nm') with (bucket_of table nm').
  destruct (decide (bucket_of table nm = bucket_of table nm')) as [Heq|Hneq].
  - rewrite <- Heq. rewrite chain_at_set_same by (apply bucket_in_range; exact Hok).
    rewrite (Ho nm' Hne). rewrite Heq. reflexivity.
  - rewrite chain_at_set_other by exact Hneq. reflexivity.
Qed.

Lemma symbol_define_refused table nm v fl fi ln old :
  symbol_lookup table nm = Some old ->
  has_flag (flags old) SYM_CONSTANT = true ->
  has_flag fl SYM_FORCE_UPDATE = false ->
  symbol_define table nm v fl fi ln = (None, table).
Proof.
  intros Hold Hc Hf. unfold symbol_define. unfold symbol_lookup in Hold.
  rewrite (chain_define_refused _ _ v fl _ Hold Hc Hf). reflexivity.
Qed.

End SymbolDefine.

(** C5, where the claim as stated fails: a request that carries both
    CONSTANT and FORCE_UPDATE updates a constant entry and leaves CONSTANT
    set, and the FORCE_UPDATE bit of a request is not or-ed into an entry. *)
Lemma C5_counterexample :
  let t0 := symbol_table_create 1024 in
  let t1 := snd (symbol_define t0 "limit" 1 SYM_CONSTANT "test.asm" 1) in
  let t2 := snd (symbol_define t0 "count" 1 SYM_DEFINED "test.asm" 1) in
  match symbol_lookup t1 "LIMIT",
        symbol_define t1 "LIMIT" 2 (Z.lor SYM_CONSTANT SYM_FORCE_UPDATE) "test.asm" 2 with
  | Some old, (Some sym, _) =>
      has_flag (flags old) SYM_CONSTANT = true /\
      Symbols.value sym = 2 /\ has_flag (flags sym) SYM_CONSTANT = true
  | _, _ => False
  end /\
  match symbol_lookup t2 "count",
        symbol_define t2 "count" 2 (Z.lor SYM_DEFINED SYM_FORCE_UPDATE) "test.asm" 2 with
  | Some old, (Some sym, _) =>
      has_flag (flags old) SYM_CONSTANT = false /\
      Symbols.value sym = 2 /\ has_flag (flags sym) SYM_FORCE_UPDATE = false
  | _, _ => False
  end.
Proof. vm_compute. repeat split; reflexivity. Qed.

(** C5, amended: on a table with its [size] chains, [symbol_define] looks
    for an entry with the case-insensitive name.  Without one it inserts a
    new symbol with the value and with DEFINED set.  An entry without
    CONSTANT gets the value, keeps its bits, gains the request's bits other
    than FORCE_UPDATE, and DEFINED.  An entry with CONSTANT, on a request
    with FORCE_UPDATE, has its CONSTANT cleared and is then updated the same
    way, so it ends with CONSTANT exactly when the request carries it.  An
    entry with CONSTANT on a request without FORCE_UPDATE makes the call
    return null, and the table is as before. *)
Theorem C5_symbol_define
    (table : SymbolTable) (nm : string) (v fl : Z) (fi : string) (ln : Z) :
  table_ok table = true ->
  match symbol_lookup table nm with
  | None =>
      exists sym table',
        symbol_define table nm v fl fi ln = (Some sym, table') /\
        symbol_lookup table' nm = Some sym /\
        Symbols.value sym = v /\
        has_flag (flags sym) SYM_DEFINED = true /\
        count table' = count table + 1
  | Some old =>
      if has_flag (flags old) SYM_CONSTANT && negb (has_flag fl SYM_FORCE_UPDATE) then
        symbol_define table nm v fl fi ln = (None, table)
      else
        exists sym table',
          symbol_define table nm v fl fi ln = (Some sym, table') /\
          symbol_lookup table' nm = Some sym /\
          Symbols.value sym = v /\
          has_flag (flags sym) SYM_DEFINED = true /\
          (forall n, 0 <= n < 8 ->
             Z.testbit (flags sym) n
             = (Z.testbit (flags old) n && negb (has_flag (flags old) SYM_CONSTANT && (n =? 2)))
               || (Z.testbit fl n && negb (n =? 6)) || (n =? 0)) /\
          (has_flag (flags old) SYM_CONSTANT = true ->
             has_flag (flags sym) SYM_CONSTANT = has_flag fl SYM_CONSTANT) /\
          count table' = count table
  end.
Proof.
  intros Hok. destruct (symbol_lookup table nm) as [old|] eqn:Hl.
  - destruct (has_flag (flags old) SYM_CONSTANT) eqn:Hc;
      destruct (has_flag fl SYM_FORCE_UPDATE) eqn:Hf; simpl.
    2: { apply (symbol_define_refused _ _ _ _ _ _ old); assumption. }
    all: destruct (symbol_define_update table nm v fl fi ln old Hok Hl) as (Hd & Hl' & Hcnt & _);
      [auto|].
    all: exists (updated old v fl), (snd (symbol_define table nm v fl fi ln)).
    all: split; [exact Hd|]; split; [exact Hl'|]; split; [reflexivity|].
    all: split; [change SYM_DEFINED with (2 ^ 0); rewrite has_flag_testbit by lia;
                 rewrite updated_bit by lia; apply orb_true_r|].
    all: split; [intros n Hn; rewrite updated_bit by lia; rewrite Hc; reflexivity|].
    all: split; [|exact Hcnt].
    all: intros Hc'; try discriminate.
    change SYM_CONSTANT with (2 ^ 2). rewrite !has_flag_testbit by lia.
    rewrite updated_bit by lia. rewrite Hc. simpl.
    rewrite andb_false_r. simpl. rewrite andb_true_r, orb_false_r. reflexivity.
  - destruct (symbol_define_new table nm v fl fi ln Hok Hl) as (Hd & Hl' & Hcnt & _).
    eexists _, _. split; [exact Hd|]. split; [exact Hl'|]. split; [reflexivity|].
    split; [|exact Hcnt]. simpl.
    change SYM_DEFINED with (2 ^ 0) at 2. rewrite has_flag_testbit by lia.
    rewrite testbit_uint8 by lia. rewrite Z.lor_spec. apply orb_true_r.
Qed.

Lemma C5_symbol_define_witness :
  let t1 := snd (symbol_define (symbol_table_create 1024) "limit" 1 SYM_CONSTANT "test.asm" 1) in
  table_ok t1 = true /\
  symbol_define t1 "Limit" 2 SYM_CONSTANT "test.asm" 2 = (None, t1).
Proof.
  cbv zeta. split; [vm_compute; reflexivity|].
  exact (C5_symbol_define
           (snd (symbol_define (symbol_table_create 1024) "limit" 1 SYM_CONSTANT "test.asm" 1))
           "Limit" 2 SYM_CONSTANT "test.asm" 2 eq_refl).
Defined.

(** ** What pass 2 leaves alone *)

Section Frame.

Lemma frame_refl a : frame a a.
Proof. split; reflexivity. Qed.

Lemma frame_trans a b c : frame a b -> frame b c -> frame a c.
Proof. unfold frame. intros [? ?] [? ?]. split; congruence. Qed.

Lemma frame_error a msg : frame a (assembler_error a msg).
Proof. unfold frame, assembler_error. destruct (_ <=? _); split; reflexivity. Qed.

Lemma frame_warning a msg : frame a (assembler_warning a msg).
Proof. unfold frame, assembler_warning. destruct (_ <=? _); split; reflexivity. Qed.

Lemma frame_emit_byte a byte : frame a (assembler_emit_byte a byte).
Proof.
  unfold frame, assembler_emit_byte.
  destruct (output_addr a <? lowest_addr a);
    destruct (highest_addr _ <? output_addr a); split; reflexivity.
Qed.

Lemma frame_emit_word a w : frame a (assembler_emit_word a w).
Proof.
  unfold assembler_emit_word.
  eapply frame_trans; apply frame_emit_byte.
Qed.

Lemma frame_emit_bytes bs : forall a, frame a (assembler_emit_bytes a bs).
Proof.
  unfold assembler_emit_bytes.
  induction bs as [|b bs IH]; intros a; simpl; [apply frame_refl|].
  eapply frame_trans; [apply frame_emit_byte|apply IH].
Qed.

Lemma frame_emit_repeat a n b : frame a (emit_repeat a n b).
Proof. apply frame_emit_bytes. Qed.

Lemma frame_advance_pc a n : frame a (assembler_advance_pc a n).
Proof. split; reflexivity. Qed.

Lemma frame_set_pc a n : frame a (assembler_set_pc a n).
Proof.
  unfold frame, assembler_set_pc. simpl.
  destruct (in_pseudopc a); simpl; destruct (_ && _); split; reflexivity.
Qed.

Lemma frame_eval a e : frame a (snd (eval a e)).
Proof.
  destruct (eval_unchanged a e) as (Hp & _ & _ & _ & _ & _ & _ & _ & Hs & _).
  split; assumption.
Qed.

Lemma frame_emit_operand a sz v : frame a (emit_operand a sz v).
Proof.
  unfold emit_operand.
  destruct (sz =? 1); [apply frame_refl|].
  destruct (sz =? 2); [apply frame_emit_byte|].
  destruct (sz =? 3); [apply frame_emit_word|apply frame_refl].
Qed.

(** The same facts as equations, for rewriting. *)
Lemma pass_error a m : pass (assembler_error a m) = pass a.
Proof. apply frame_error. Qed.
Lemma symbols_error a m : symbols (assembler_error a m) = symbols a.
Proof. apply frame_error. Qed.
Lemma pass_warning a m : pass (assembler_warning a m) = pass a.
Proof. apply frame_warning. Qed.
Lemma symbols_warning a m : symbols (assembler_warning a m) = symbols a.
Proof. apply frame_warning. Qed.
Lemma pass_emit_byte a b : pass (assembler_emit_byte a b) = pass a.
Proof. apply frame_emit_byte. Qed.
Lemma symbols_emit_byte a b : symbols (assembler_emit_byte a b) = symbols a.
Proof. apply frame_emit_byte. Qed.
Lemma pass_emit_word a b : pass (assembler_emit_word a b) = pass a.
Proof. apply frame_emit_word. Qed.
Lemma symbols_emit_word a b : symbols (assembler_emit_word a b) = symbols a.
Proof. apply frame_emit_word. Qed.
Lemma pass_emit_bytes a bs : pass (assembler_emit_bytes a bs) = pass a.
Proof. apply frame_emit_bytes. Qed.
Lemma symbols_emit_bytes a bs : symbols (assembler_emit_bytes a bs) = symbols a.
Proof. apply frame_emit_bytes. Qed.
Lemma pass_emit_repeat a n b : pass (emit_repeat a n b) = pass a.
Proof. apply frame_emit_repeat. Qed.
Lemma symbols_emit_repeat a n b : symbols (emit_repeat a n b) = symbols a.
Proof. apply frame_emit_repeat. Qed.
Lemma pass_advance_pc a n : pass (assembler_advance_pc a n) = pass a.
Proof. reflexivity. Qed.
Lemma symbols_advance_pc a n : symbols (assembler_advance_pc a n) = symbols a.
Proof. reflexivity. Qed.
Lemma pass_set_pc a n : pass (assembler_set_pc a n) = pass a.
Proof. apply frame_set_pc. Qed.
Lemma symbols_set_pc a n : symbols (assembler_set_pc a n) = symbols a.
Proof. apply frame_set_pc. Qed.
Lemma pass_emit_operand a sz v : pass (emit_operand a sz v) = pass a.
Proof. apply frame_emit_operand. Qed.
Lemma symbols_emit_operand a sz v : symbols (emit_operand a sz v) = symbols a.
Proof. apply frame_emit_operand. Qed.

End Frame.

Create Rewrite HintDb framedb.

#[local] Hint Rewrite pass_error symbols_error pass_warning symbols_warning
  pass_emit_byte symbols_emit_byte pass_emit_word symbols_emit_word
  pass_emit_bytes symbols_emit_bytes pass_emit_repeat symbols_emit_repeat
  pass_advance_pc symbols_advance_pc pass_set_pc symbols_set_pc
  pass_emit_operand symbols_emit_operand : framedb.

(** Splits an evaluation into its result and the state after it, and keeps
    the two equations of the frame. *)
Ltac split_eval :=
  match goal with
  | |- context [eval ?a ?e] =>
      let r := fresh "r" in
      let a1 := fresh "a" in
      let Hp := fresh "Hpass" in
      let Hs := fresh "Hsyms" in
      destruct (frame_eval a e) as [Hp Hs];
      destruct (eval a e) as [r a1]; cbn [snd fst] in Hp, Hs; cbv beta iota
  end.

(** One step down the control flow of a directive. *)
Ltac frame_step :=
  first
    [ match goal with
      | |- context [eval (if ?c then _ else _) _] => destruct c
      end
    | split_eval
    | match goal with
      | |- context [match (match ?y with _ => _ end) with _ => _ end] =>
          destruct y; cbv beta iota
      end
    | match goal with
      | |- context [if ?c then _ else _] => destruct c
      end
    | match goal with
      | |- context [match ?x with _ => _ end] => destruct x; cbv beta iota
      end ].

(** At a leaf the state is a stack of primitives over the states the
    evaluations returned. *)
Ltac frame_leaf :=
  cbn [fst snd]; unfold frame; cbn [pass symbols];
  autorewrite with framedb in *;
  first [ split; congruence | split; simpl; congruence ].

Ltac frame_tac := repeat frame_step; frame_leaf.

Section FrameDirectives.

Lemma frame_instruction a info :
  frame a (snd (fst (assembler_assemble_instruction a info))).
Proof.
  unfold assembler_assemble_instruction.
  destruct (imode info); frame_tac.
Qed.

Lemma frame_byte_loop es : forall a, frame a (snd (byte_loop a es)).
Proof.
  induction es as [|e es IH]; intros a; simpl; [apply frame_refl|].
  split_eval.
  destruct (_ && _); [frame_leaf|].
  destruct (pass a0 =? 2);
    (eapply frame_trans; [|apply IH]); frame_tac.
Qed.

Lemma frame_word_loop es : forall a, frame a (snd (word_loop a es)).
Proof.
  induction es as [|e es IH]; intros a; simpl; [apply frame_refl|].
  split_eval.
  destruct (_ && _); [frame_leaf|].
  destruct (pass a0 =? 2);
    (eapply frame_trans; [|apply IH]); frame_tac.
Qed.

Lemma frame_include_binary a f o n : frame a (snd (assembler_include_binary a f o n)).
Proof. unfold assembler_include_binary. frame_tac. Qed.

Lemma frame_directive a dir : frame a (snd (assembler_assemble_directive a dir)).
Proof.
  unfold assembler_assemble_directive.
  repeat match goal with
         | |- context [name_in ?n ?l] => destruct (name_in n l)
         end.
  - apply frame_byte_loop.
  - apply frame_word_loop.
  - unfold assemble_text_directive. frame_tac.
  - unfold assemble_pet_directive. frame_tac.
  - unfold assemble_scr_directive. frame_tac.
  - unfold assemble_null_directive. frame_tac.
  - unfold assemble_fill_directive. frame_tac.
  - unfold assemble_skip_directive. frame_tac.
  - unfold assemble_align_directive. frame_tac.
  - unfold assemble_org_directive. frame_tac.
  - unfold assemble_binary_directive, assembler_include_binary. frame_tac.
  - unfold assemble_basic_directive. frame_tac.
  - frame_tac.
  - frame_tac.
  - frame_tac.
  - unfold pseudopc_directive, assembler_pseudopc_start. frame_tac.
  - unfold assembler_pseudopc_end. frame_tac.
  - unfold cpu_directive, assembler_set_cpu. frame_tac.
  - unfold zone_directive. frame_tac.
  - frame_tac.
  - frame_tac.
  - frame_tac.
Qed.

End FrameDirectives.

(** ** Symbol values across the passes *)

Section SymbolValues.

Import Programs.

(** With the label, an assignment aside, a statement of pass 2 is framed. *)
Lemma frame_statement_pass2 a st :
  pass a = 2 ->
  match body st with STMT_ASSIGNMENT _ => False | _ => True end ->
  frame a (snd (fst (assembler_assemble_statement a st))).
Proof.
  intros Hpass Hbody. unfold assembler_assemble_statement.
  set (a0 := set_current_line a (sline st)).
  set (a1 := match label st with
             | Some l => if pass a0 =? 1 then define_label a0 l
                         else if negb (is_local l) && negb (is_anon_fwd l) && negb (is_anon_back l)
                              then set_current_zone a0 (Some (lname l)) else a0
             | None => a0
             end).
  assert (H1 : frame a a1).
  { unfold a1. destruct (label st) as [l|]; [|split; reflexivity].
    change (pass a0) with (pass a). rewrite Hpass. simpl.
    destruct (_ && _); split; reflexivity. }
  destruct (body st) as [| |info|dir|assign|call|msg]; cbn [fst snd]; try exact H1.
  - pose proof (frame_instruction a1 info) as H2.
    destruct (assembler_assemble_instruction a1 info) as [[r a2] info']. cbn [fst snd] in *.
    eapply frame_trans; eassumption.
  - pose proof (frame_directive a1 dir) as H2.
    destruct (assembler_assemble_directive a1 dir) as [r a2]. cbn [fst snd] in *.
    eapply frame_trans; eassumption.
  - contradiction.
  - eapply frame_trans; [exact H1|apply frame_error].
  - eapply frame_trans; [exact H1|apply frame_error].
Qed.

Lemma force_update_flag fl :
  fl = Z.lor SYM_DEFINED SYM_FORCE_UPDATE \/
  fl = Z.lor (Z.lor SYM_DEFINED SYM_FORCE_UPDATE) SYM_ZEROPAGE ->
  has_flag fl SYM_FORCE_UPDATE = true.
Proof. intros [-> | ->]; reflexivity. Qed.

(** An assignment replayed in pass 2: the symbol is there afterwards, with
    the value of the right-hand side, and no other name is touched. *)
Lemma assignment_pass2 a assign :
  pass a = 2 ->
  table_ok (symbols a) = true ->
  let a' := snd (assemble_assignment a assign) in
  pass a' = 2 /\ table_ok (symbols a') = true /\
  (exists sym, symbol_lookup (symbols a') (aname assign) = Some sym /\
               Symbols.value sym = Expr.value (fst (eval a (avalue assign))) /\
               has_flag (flags sym) SYM_DEFINED = true) /\
  (forall nm, str_equal_nocase (aname assign) nm = false ->
              symbol_lookup (symbols a') nm = symbol_lookup (symbols a) nm).
Proof.
  intros Hpass Hok. cbv zeta. unfold assemble_assignment.
  pose proof (frame_eval a (avalue assign)) as [Hp Hs].
  destruct (eval a (avalue assign)) as [r a1]. cbn [fst snd] in *.
  rewrite Hp, Hpass. cbn [Z.eqb Pos.eqb orb].
  set (fl := if defined r && assembler_is_zeropage (Expr.value r)
             then Z.lor (Z.lor SYM_DEFINED SYM_FORCE_UPDATE) SYM_ZEROPAGE
             else Z.lor SYM_DEFINED SYM_FORCE_UPDATE).
  assert (Hforce : has_flag fl SYM_FORCE_UPDATE = true).
  { apply force_update_flag. unfold fl. destruct (_ && _); auto. }
  unfold define_symbol. cbn [snd symbols pass]. rewrite Hs.
  split; [exact (eq_trans Hp Hpass)|]. cbn [symbols set_symbols].
  destruct (symbol_lookup (symbols a) (aname assign)) as [old|] eqn:Hl.
  - destruct (symbol_define_update (symbols a) (aname assign) (Expr.value r) fl
                (current_file a1) (current_line a1) old Hok Hl (or_intror Hforce))
      as (_ & Hl' & _ & Hok' & Hother).
    split; [exact Hok'|]. split; [|exact Hother].
    exists (updated old (Expr.value r) fl). split; [exact Hl'|]. split; [reflexivity|].
    change SYM_DEFINED with (2 ^ 0). rewrite has_flag_testbit by lia.
    rewrite updated_bit by lia. apply orb_true_r.
  - destruct (symbol_define_new (symbols a) (aname assign) (Expr.value r) fl
                (current_file a1) (current_line a1) Hok Hl)
      as (_ & Hl' & _ & Hok' & Hother).
    split; [exact Hok'|]. split; [|exact Hother].
    eexists. split; [exact Hl'|]. split; [reflexivity|]. simpl.
    change SYM_DEFINED with (2 ^ 0) at 2. rewrite has_flag_testbit by lia.
    rewrite testbit_uint8 by lia. rewrite Z.lor_spec. apply orb_true_r.
Qed.

(** What one line of pass 2 does to a name it does not assign. *)
Lemma pass2_line_keeps nm a l :
  pass a = 2 ->
  table_ok (symbols a) = true ->
  assigns_to nm l = false ->
  let a' := fst (pass2_line a l) in
  pass a' = 2 /\ table_ok (symbols a') = true /\
  symbol_lookup (symbols a') nm = symbol_lookup (symbols a) nm.
Proof.
  intros Hpass Hok Hna. cbv zeta.
  assert (Hfst : fst (pass2_line a l) = fst (pass2_assemble a l)).
  { unfold pass2_line. destruct (pass2_assemble a l) as [a3 st'].
    destruct (_ && _); [|destruct (_ <? _)]; destruct (body st'); reflexivity. }
  rewrite Hfst. unfold pass2_assemble.
  set (a2 := pass2_redefine (pass2_restore_pc a l) l).
  assert (H2 : frame a a2).
  { unfold a2, pass2_redefine, pass2_restore_pc.
    destruct (label (stmt l)) as [lb|]; [|split; reflexivity].
    destruct (is_anon_fwd lb); [split; reflexivity|].
    destruct (is_anon_back lb); split; reflexivity. }
  destruct H2 as [Hp2 Hs2].
  unfold assigns_to in Hna.
  destruct (body (stmt l)) as [| |info|dir|assign|call|msg] eqn:Hb.
  5: { (* an assignment, to another name *)
    unfold assembler_assemble_statement. rewrite Hb.
    set (a3 := match label (stmt l) with
               | Some lb => _
               | None => _
               end).
    assert (H3 : frame a a3).
    { unfold a3. destruct (label (stmt l)) as [lb|].
      - change (pass (set_current_line a2 (sline (stmt l)))) with (pass a2).
        rewrite Hp2, Hpass. simpl. destruct (_ && _); split; simpl; assumption.
      - split; simpl; assumption. }
    destruct H3 as [Hp3 Hs3].
    assert (Hok3 : table_ok (symbols a3) = true) by (rewrite Hs3; exact Hok).
    destruct (assignment_pass2 a3 assign (eq_trans Hp3 Hpass) Hok3) as (Hp & Hok' & _ & Hother).
    destruct (assemble_assignment a3 assign) as [r a4]. cbn [fst snd] in *.
    split; [exact Hp|]. split; [exact Hok'|].
    rewrite (Hother nm Hna), Hs3. reflexivity. }
  all: pose proof (frame_statement_pass2 a2 (stmt l) (eq_trans Hp2 Hpass)) as H3;
    rewrite Hb in H3; specialize (H3 I);
    destruct (assembler_assemble_statement a2 (stmt l)) as [[r a3] st'];
    cbn [fst snd] in *; destruct H3 as [Hp3 Hs3];
    split; [congruence|]; split; [congruence|congruence].
Qed.

Lemma pass2_loop_keeps nm ls : forall a,
  pass a = 2 ->
  table_ok (symbols a) = true ->
  never_assigned nm ls = true ->
  symbol_lookup (symbols (fst (pass2_loop a ls))) nm = symbol_lookup (symbols a) nm.
Proof.
  induction ls as [|l ls IH]; intros a Hpass Hok Hna; simpl; [reflexivity|].
  simpl in Hna. apply andb_true_iff in Hna as [Hl Hls]. apply negb_true_iff in Hl.
  destruct (pass2_line_keeps nm a l Hpass Hok Hl) as (Hp & Hok' & Hlook).
  destruct (pass2_line a l) as [a1 l']. cbn [fst] in *.
  destruct (max_errors a1 <=? errors a1); [exact Hlook|].
  specialize (IH a1 Hp Hok' Hls).
  destruct (pass2_loop a1 ls) as [a2 done]. cbn [fst] in *. congruence.
Qed.

End SymbolValues.

(** C2, where the claim as stated fails: in
    [*=$1000 / foo = bar / nop / bar: rts] no loop runs; pass 1 defines
    [foo] with the value 0 that the undefined [bar] evaluates to, and
    pass 2 replaces it by the address $1001 of [bar]. *)
Lemma C2_counterexample :
  match assembler_pass1 Programs.fresh 64 Programs.forward_assignment "test.asm" with
  | Some a1 =>
      errors a1 = 0 /\
      match symbol_lookup (symbols a1) "foo",
            symbol_lookup (symbols (assembler_pass2 a1)) "foo" with
      | Some s1, Some s2 =>
          has_flag (flags s1) SYM_DEFINED = true /\
          Symbols.value s1 = 0 /\ Symbols.value s2 = 4097 /\
          errors (assembler_pass2 a1) = 0
      | _, _ => False
      end
  | None => False
  end.
Proof. vm_compute. repeat split; reflexivity. Qed.

(** C2, amended: pass 2 changes a symbol only by replaying an assignment to
    it.  A symbol to which no stored line assigns has after pass 2 the
    entry, and so the value, that pass 1 left; a replayed assignment
    [name = expr] always stores the value its right-hand side has in pass 2,
    which for a right-hand side that refers to a label defined later is the
    value computed from the label and not the placeholder of pass 1. *)
Theorem C2_symbol_values_after_pass2
    (a : Assembler) (nm : string) (s : Assembler) (assign : AssignmentInfo) :
  table_ok (symbols a) = true ->
  never_assigned nm (lines a) = true ->
  pass s = 2 ->
  table_ok (symbols s) = true ->
  symbol_lookup (symbols (assembler_pass2 a)) nm = symbol_lookup (symbols a) nm /\
  exists sym,
    symbol_lookup (symbols (snd (assemble_assignment s assign))) (aname assign) = Some sym /\
    Symbols.value sym = Expr.value (fst (eval s (avalue assign))) /\
    has_flag (flags sym) SYM_DEFINED = true.
Proof.
  intros Hok Hna Hpass Hoks. split.
  - unfold assembler_pass2.
    pose proof (pass2_loop_keeps nm (lines (pass2_init a)) (pass2_init a) eq_refl Hok Hna) as H.
    destruct (pass2_loop (pass2_init a) (lines (pass2_init a))) as [a3 ls].
    exact H.
  - destruct (assignment_pass2 s assign Hpass Hoks) as (_ & _ & Hsym & _). exact Hsym.
Qed.

Lemma C2_symbol_values_after_pass2_witness :
  let a1 := default Programs.fresh
              (assembler_pass1 Programs.fresh 64 Programs.forward_assignment "test.asm") in
  let s := pass2_init a1 in
  let assign := mkAssignment "foo" (Some (EXPR_SYMBOL "bar")) in
  (table_ok (symbols a1) = true /\ never_assigned "bar" (lines a1) = true /\
   pass s = 2 /\ table_ok (symbols s) = true) /\
  (symbol_lookup (symbols (assembler_pass2 a1)) "bar" = symbol_lookup (symbols a1) "bar" /\
   exists sym,
     symbol_lookup (symbols (snd (assemble_assignment s assign))) (aname assign) = Some sym /\
     Symbols.value sym = Expr.value (fst (eval s (avalue assign))) /\
     has_flag (flags sym) SYM_DEFINED = true).
Proof.
  cbv zeta. split.
  - repeat split; vm_compute; reflexivity.
  - apply (C2_symbol_values_after_pass2
             (default Programs.fresh
                (assembler_pass1 Programs.fresh 64 Programs.forward_assignment "test.asm"))
             "bar"); vm_compute; reflexivity.
Defined.

(** ** Instruction sizes across the passes *)

Section InstructionSizes.

Lemma table_form_sizes : forallb form_size_ok opcode_table = true.
Proof. vm_compute. reflexivity. Qed.

Lemma mode_eqb_eq a b : mode_eqb a b = true -> a = b.
Proof. destruct a, b; simpl; intros H; try discriminate; reflexivity. Qed.

Lemma opcode_find_entry mn md op :
  opcode_find mn md = Some op -> mode op = md /\ form_size_ok op = true.
Proof.
  unfold opcode_find. intros H. apply find_some in H as [Hin Hm].
  unfold entry_matches in Hm. apply andb_true_iff in Hm as [_ Hm].
  split; [apply mode_eqb_eq; exact Hm|].
  pose proof table_form_sizes as Ht. rewrite forallb_forall in Ht. apply Ht. exact Hin.
Qed.

Lemma absolute_size mn md op :
  opcode_find mn md = Some op -> is_absolute_form md = true -> Opcodes.size op = 3.
Proof.
  intros H Ha. apply opcode_find_entry in H as [Hm Hs]. unfold form_size_ok in Hs.
  rewrite Hm in Hs. destruct md; try discriminate; apply Z.eqb_eq; exact Hs.
Qed.

Lemma zeropage_size mn md zp op :
  zeropage_form md = Some zp -> opcode_find mn zp = Some op -> Opcodes.size op = 2.
Proof.
  intros Hz H. apply opcode_find_entry in H as [Hm Hs]. unfold form_size_ok in Hs.
  rewrite Hm in Hs. destruct md; try discriminate; injection Hz as <-; apply Z.eqb_eq; exact Hs.
Qed.

(** The mode [detect_addressing_mode] picks for a direct operand whose
    value is not known. *)
Lemma detect_direct_unknown mn o e v :
  is_direct_operand mn o = true ->
  expr o = Some e ->
  is_absolute_form
    (detect_addressing_mode mn (expr o) (has_hash o) (has_x_index o) (has_y_index o)
                            (is_indirect o) v false) = true.
Proof.
  unfold is_direct_operand, detect_addressing_mode. intros Hd He. rewrite He in *.
  destruct (is_branch_instruction mn); [discriminate|].
  destruct (has_hash o); [discriminate|].
  destruct (is_indirect o); [discriminate|].
  destruct (is_explicit_accumulator mn e); [discriminate|].
  destruct (has_x_index o); [reflexivity|].
  destruct (has_y_index o); reflexivity.
Qed.

(** What the pass-2 re-evaluation can do to an instruction record. *)
Lemma reselect_mode_cases info v :
  reselect_mode info v = info \/
  exists zp op,
    zeropage_form (imode info) = Some zp /\
    opcode_find (imnemonic info) zp = Some op /\
    Opcodes.size op = isize info /\
    reselect_mode info v = set_mode_opcode info zp (opcode op).
Proof.
  unfold reselect_mode.
  assert (Hrefl : forall m, mode_eqb m m = true) by (intros []; reflexivity).
  destruct (assembler_is_zeropage v); [|rewrite Hrefl; left; reflexivity].
  destruct (zeropage_form (imode info)) as [zp|] eqn:Hz;
    [|rewrite Hrefl; left; reflexivity].
  destruct (opcode_find (imnemonic info) zp) as [op|] eqn:Hf; unfold found;
    [|rewrite Hrefl; left; reflexivity].
  destruct (mode_eqb zp (imode info)); cbn [negb]; [left; reflexivity|].
  rewrite Hf.
  destruct (Z.eqb_spec (Opcodes.size op) (isize info)) as [Hs|Hs]; [|left; reflexivity].
  right. exists zp, op. repeat split; assumption.
Qed.

Lemma reselect_mode_absolute info v :
  isize info = 3 -> reselect_mode info v = info.
Proof.
  intros H3. destruct (reselect_mode_cases info v) as [H|(zp & op & Hz & Hf & Hs & _)];
    [exact H|].
  rewrite (zeropage_size _ _ _ _ Hz Hf) in Hs. congruence.
Qed.

(** The record [assembler_assemble_instruction] hands back. *)
Lemma instruction_record_cases a info :
  let info' := snd (assembler_assemble_instruction a info) in
  info' = info \/
  exists v, pass a = 2 /\ info' = reselect_mode info v.
Proof.
  cbv zeta. unfold assembler_assemble_instruction.
  set (t := match operand info with
            | Some e => let (r, a1) := eval a (Some e) in (Expr.value r, defined r, a1)
            | None => (0, true, a)
            end).
  assert (Ht : pass (snd t) = pass a).
  { unfold t. destruct (operand info) as [e|]; [|reflexivity].
    pose proof (frame_eval a (Some e)) as [Hp _].
    destruct (eval a (Some e)) as [r a1]. exact Hp. }
  destruct t as [[ov vd] a1]. cbn [snd] in Ht. rewrite Ht.
  destruct (imode info);
    try (destruct (pass a =? 2); left; reflexivity);
    destruct (found_operand (operand info) && (pass a =? 2) && negb vd);
    try (left; reflexivity);
    destruct (pass a =? 2) eqn:Hp2; cbn [andb fst snd];
    try (left; reflexivity);
    try (destruct (_ =? INT_MIN); left; reflexivity);
    (destruct vd; [right; exists ov; split; [apply Z.eqb_eq; exact Hp2|reflexivity]
                  |left; reflexivity]).
Qed.

End InstructionSizes.

(** C1, where the claim as stated fails: the operand of [bne fwd] and of
    [lda #fwd] is a symbol that pass 1 has not seen, yet pass 1 commits the
    two-byte relative and immediate encodings, not a three-byte absolute
    one. *)
Lemma C1_counterexample :
  defined (fst (expr_eval (EXPR_SYMBOL "fwd") (Some (symbols Programs.fresh)) None 2049 1 None))
  = false /\
  match assembler_pass1 Programs.fresh 64 Programs.forward_branch "test.asm" with
  | Some a1 =>
      match lines a1 with
      | [_; l; _] =>
          match body (stmt l) with
          | STMT_INSTRUCTION info =>
              operand info = Some (EXPR_SYMBOL "fwd") /\
              imode info = ADDR_RELATIVE /\ isize info = 2
          | _ => False
          end
      | _ => False
      end /\
      errors (assembler_pass2 a1) = 0 /\
      image (assembler_pass2 a1) 4096 3 = [208; 0; 96]
  | None => False
  end /\
  match assembler_pass1 Programs.fresh 64 Programs.forward_immediate "test.asm" with
  | Some a1 =>
      match lines a1 with
      | [_; l; _] =>
          match body (stmt l) with
          | STMT_INSTRUCTION info =>
              operand info = Some (EXPR_SYMBOL "fwd") /\
              imode info = ADDR_IMMEDIATE /\ isize info = 2
          | _ => False
          end
      | _ => False
      end /\
      errors (assembler_pass2 a1) = 0 /\
      image (assembler_pass2 a1) 4096 2 = [169; 66]
  | None => False
  end.
Proof. vm_compute. repeat split; reflexivity. Qed.

(** C1, amended: for an instruction that is not a branch and whose operand
    is a direct expression (no [#], no parentheses, not the accumulator [A])
    undefined in pass 1, pass 1 commits a three-byte absolute form
    (absolute, absolute,X or absolute,Y) or rejects the statement for want
    of an absolute form.  Pass 2 never changes the committed size of an
    instruction: it rewrites mode and opcode byte only to the zero-page form
    of the committed mode, and only when that form has the committed size,
    which no form has for a committed size of three; a committed absolute
    form is emitted as opcode and 16-bit operand.  Concretely
    [*=$1000 / lda zp / zp = $42 / rts] gives AD 42 00 60, and with
    [zp = $42] moved above [lda zp] it gives A5 42 60. *)
Theorem C1_forward_reference_size
    (table : SymbolTable) (pc0 : Z) (mn : string) (o : OperandInfo) (e : Expr)
    (a a1 : Assembler) (info : InstructionInfo) (r : ExprResult) :
  (expr o = Some e ->
   is_direct_operand mn o = true ->
   defined (fst (expr_eval e (Some table) None pc0 1 None)) = false ->
     match parse_instruction table pc0 1 mn o with
     | STMT_INSTRUCTION i =>
         isize i = 3 /\ is_absolute_form (imode i) = true /\
         operand i = Some e /\ imnemonic i = mn
     | STMT_ERROR _ => opcode_find mn ADDR_ABSOLUTE = None
     | _ => False
     end) /\
  (let info' := snd (assembler_assemble_instruction a info) in
   isize info' = isize info /\
   (info' = info \/
    exists zp op,
      pass a = 2 /\ zeropage_form (imode info) = Some zp /\
      opcode_find (imnemonic info) zp = Some op /\ Opcodes.size op = isize info /\
      info' = set_mode_opcode info zp (opcode op))) /\
  (isize info = 3 -> snd (assembler_assemble_instruction a info) = info) /\
  (pass a = 2 -> is_absolute_form (imode info) = true -> isize info = 3 ->
   operand info = Some e -> eval a (Some e) = (r, a1) -> defined r = true ->
     assembler_assemble_instruction a info
     = (0, assembler_emit_word (assembler_emit_byte a1 (iopcode info))
                               (Z.land (Expr.value r) 65535), info)) /\
  match Programs.assemble Programs.forward_zp with
  | Some res => errors res = 0 /\ image res 4096 4 = [173; 66; 0; 96] /\
                lowest_addr res = 4096 /\ highest_addr res = 4099
  | None => False
  end /\
  match Programs.assemble Programs.backward_zp with
  | Some res => errors res = 0 /\ image res 4096 3 = [165; 66; 96] /\
                lowest_addr res = 4096 /\ highest_addr res = 4098
  | None => False
  end.
Proof.
  split; [|split; [|split; [|split; [|split]]]].
  - intros He Hd Hundef. unfold parse_instruction. rewrite He, Hundef.
    pose proof (detect_direct_unknown mn o e
                  (Expr.value (fst (expr_eval e (Some table) None pc0 1 None))) Hd He) as Habs.
    rewrite He in Habs.
    set (md := detect_addressing_mode _ _ _ _ _ _ _ _) in *.
    destruct (opcode_find mn md) as [op|] eqn:Hf.
    + simpl. repeat split; try assumption. apply (absolute_size mn md); assumption.
    + simpl. destruct (opcode_find mn ADDR_ABSOLUTE) as [op|] eqn:Hf2; [|reflexivity].
      simpl. repeat split. apply (absolute_size mn ADDR_ABSOLUTE); [assumption|reflexivity].
  - cbv zeta. destruct (instruction_record_cases a info) as [->|(v & Hp & ->)].
    + split; [reflexivity|left; reflexivity].
    + destruct (reselect_mode_cases info v) as [->|(zp & op & Hz & Hf & Hs & ->)].
      * split; [reflexivity|left; reflexivity].
      * split; [reflexivity|]. right. exists zp, op. repeat split; assumption.
  - intros H3. destruct (instruction_record_cases a info) as [->|(v & Hp & ->)];
      [reflexivity|apply reselect_mode_absolute; exact H3].
  - intros Hpass Habs H3 Hop Heval Hdef.
    pose proof (eval_unchanged a (Some e)) as Hun. rewrite Heval in Hun.
    destruct Hun as (Hp & _). cbn [snd] in Hp.
    unfold assembler_assemble_instruction.
    rewrite Hop, Heval, Hp, Hpass, Hdef. cbn [found_operand negb andb Z.eqb Pos.eqb].
    rewrite (reselect_mode_absolute info (Expr.value r) H3).
    unfold emit_operand. rewrite H3. cbn [Z.eqb Pos.eqb].
    destruct (imode info); try discriminate Habs; reflexivity.
  - vm_compute. repeat split; reflexivity.
  - vm_compute. repeat split; reflexivity.
Qed.

Lemma C1_forward_reference_size_witness :
  let table := symbols Programs.fresh in
  let o := Programs.direct (EXPR_SYMBOL "zp") in
  let a := set_pass Programs.fresh 2 in
  let info := mkInstruction "lda" ADDR_ABSOLUTE (Some (EXPR_NUMBER 66)) 173 3 4 0 in
  let r := fst (eval a (Some (EXPR_NUMBER 66))) in
  let a1 := snd (eval a (Some (EXPR_NUMBER 66))) in
  (expr o = Some (EXPR_SYMBOL "zp") /\ is_direct_operand "lda" o = true /\
   defined (fst (expr_eval (EXPR_SYMBOL "zp") (Some table) None 4096 1 None)) = false /\
   match parse_instruction table 4096 1 "lda" o with
   | STMT_INSTRUCTION i =>
       isize i = 3 /\ is_absolute_form (imode i) = true /\
       operand i = Some (EXPR_SYMBOL "zp") /\ imnemonic i = "lda"%string
   | STMT_ERROR _ => opcode_find "lda" ADDR_ABSOLUTE = None
   | _ => False
   end) /\
  (pass a = 2 /\ is_absolute_form (imode info) = true /\ isize info = 3 /\
   operand info = Some (EXPR_NUMBER 66) /\ defined r = true /\
   snd (assembler_assemble_instruction a info) = info /\
   assembler_assemble_instruction a info
   = (0, assembler_emit_word (assembler_emit_byte a1 (iopcode info))
                             (Z.land (Expr.value r) 65535), info)).
Proof.
  cbv zeta.
  pose proof (C1_forward_reference_size (symbols Programs.fresh) 4096 "lda"
                (Programs.direct (EXPR_SYMBOL "zp")) (EXPR_SYMBOL "zp")
                Programs.fresh Programs.fresh
                (mkInstruction "nop" ADDR_IMPLIED None 234 1 2 0)
                (mkResult 0 false false)) as (H1 & _).
  pose proof (C1_forward_reference_size (symbols Programs.fresh) 4096 "lda"
                (Programs.direct (EXPR_NUMBER 66)) (EXPR_NUMBER 66)
                (set_pass Programs.fresh 2)
                (snd (eval (set_pass Programs.fresh 2) (Some (EXPR_NUMBER 66))))
                (mkInstruction "lda" ADDR_ABSOLUTE (Some (EXPR_NUMBER 66)) 173 3 4 0)
                (fst (eval (set_pass Programs.fresh 2) (Some (EXPR_NUMBER 66)))))
    as (_ & _ & H3 & H4 & _).
  split.
  - split; [reflexivity|]. split; [reflexivity|]. split; [reflexivity|].
    exact (H1 eq_refl eq_refl eq_refl).
  - split; [reflexivity|]. split; [reflexivity|]. split; [reflexivity|].
    split; [reflexivity|]. split; [reflexivity|].
    split; [exact (H3 eq_refl)|].
    exact (H4 eq_refl eq_refl eq_refl eq_refl eq_refl eq_refl).
Defined.

(** ** The lexer: [+] before an identifier *)

Section PlusBeforeIdentifier.

(** The four texts of the specification. *)
Example plus_macro_at_column_0 :
  let (tok, lex) := lexer_next (lexer_init (src_of "+foo")) in
  tok_type tok = TOK_MACRO_CALL /\ token_text (source lex) tok = src_of "+foo" /\
  tok_type (fst (lexer_next lex)) = TOK_EOF.
Proof. vm_compute. repeat split; reflexivity. Qed.

Example plus_macro_after_colon :
  let (t1, l1) := lexer_next (lexer_init (src_of "start: +foo")) in
  let (t2, l2) := lexer_next l1 in
  let (t3, l3) := lexer_next l2 in
  tok_type t1 = TOK_IDENTIFIER /\ tok_type t2 = TOK_COLON /\
  tok_type t3 = TOK_MACRO_CALL /\ token_text (source l3) t3 = src_of "+foo".
Proof. vm_compute. repeat split; reflexivity. Qed.

Example plus_operator_after_number :
  let (t1, l1) := lexer_next (lexer_init (src_of "1+foo")) in
  let (t2, l2) := lexer_next l1 in
  let (t3, l3) := lexer_next l2 in
  tok_type t1 = TOK_NUMBER /\ tok_number t1 = 1 /\ tok_type t2 = TOK_PLUS /\
  tok_type t3 = TOK_IDENTIFIER /\ token_text (source l3) t3 = src_of "foo".
Proof. vm_compute. repeat split; reflexivity. Qed.

Example plus_operator_between_names :
  let (t1, l1) := lexer_next (lexer_init (src_of "A+B")) in
  let (t2, l2) := lexer_next l1 in
  let (t3, l3) := lexer_next l2 in
  tok_type t1 = TOK_IDENTIFIER /\ tok_type t2 = TOK_PLUS /\
  tok_type t3 = TOK_IDENTIFIER /\ token_text (source l3) t3 = src_of "B".
Proof. vm_compute. repeat split; reflexivity. Qed.

(** *** Positions in the source *)

Lemma char_at_app pre c suf : char_at (pre ++ c :: suf) (length pre) = c.
Proof. unfold char_at. apply nth_middle. Qed.

Lemma skipn_app_length (pre suf : list ascii) : skipn (length pre) (pre ++ suf) = suf.
Proof.
  induction pre as [|x pre IH]; simpl; [reflexivity|exact IH].
Qed.

Lemma scan_app p (xs rest : list ascii) :
  forallb p xs = true ->
  match rest with [] => true | d :: _ => negb (p d) end = true ->
  scan p (xs ++ rest) = length xs.
Proof.
  intros Hxs Hrest. induction xs as [|x xs IH]; simpl in *.
  - destruct rest as [|d rest']; [reflexivity|]. simpl.
    apply negb_true_iff in Hrest. rewrite Hrest. reflexivity.
  - apply andb_true_iff in Hxs as [Hx Hxs]. rewrite Hx, (IH Hxs). reflexivity.
Qed.

(** *** The look-behind *)


(** *** What an identifier-start character is not *)

Lemma alpha_dispatch c :
  is_alpha c = true ->
  is_blank c = false /\ Ascii.eqb c ";" = false /\ Ascii.eqb c NUL = false /\
  Ascii.eqb c LF = false /\ Ascii.eqb c "$" = false /\ Ascii.eqb c "%" = false /\
  is_digit c = false /\ Ascii.eqb c SQUOTE = false /\ Ascii.eqb c DQUOTE = false /\
  is_plus c = false.
Proof.
  destruct c as [[] [] [] [] [] [] [] []]; intros H; try discriminate H;
    repeat split; reflexivity.
Qed.

(** *** Positions reached by the lexer *)

Lemma peek_at pre d suf ls ln : peek (mkLexer (pre ++ d :: suf) (length pre) ls ln) = d.
Proof. unfold peek. simpl. apply char_at_app. Qed.

Lemma remaining_at pre suf ls ln :
  remaining (mkLexer (pre ++ suf) (length pre) ls ln) = suf.
Proof. unfold remaining. simpl. apply skipn_app_length. Qed.

Lemma skip_whitespace_loop_blanks d suf ls ln ws : forall pre fuel,
  forallb is_blank ws = true ->
  is_blank d = false -> Ascii.eqb d ";" = false ->
  (length ws < fuel)%nat ->
  skip_whitespace_loop fuel (mkLexer (pre ++ ws ++ d :: suf) (length pre) ls ln)
  = mkLexer (pre ++ ws ++ d :: suf) (length pre + length ws) ls ln.
Proof.
  induction ws as [|w ws IH]; intros pre fuel Hws Hd Hsemi Hfuel;
    (destruct fuel as [|fuel]; [simpl in Hfuel; lia|]).
  - cbn [skip_whitespace_loop app]. rewrite peek_at, Hd, Hsemi.
    rewrite Nat.add_0_r. reflexivity.
  - cbn [forallb] in Hws. apply andb_true_iff in Hws as [Hw Hws].
    cbn [skip_whitespace_loop]. change ((w :: ws) ++ d :: suf) with (w :: ws ++ d :: suf).
    rewrite peek_at, Hw. unfold advance, set_current. cbn [snd source current line_start line].
    replace (pre ++ w :: ws ++ d :: suf) with ((pre ++ [w]) ++ ws ++ d :: suf)
      by (rewrite <- app_assoc; reflexivity).
    replace (S (length pre)) with (length (pre ++ [w]))
      by (rewrite length_app; simpl; lia).
    rewrite IH by (try assumption; simpl in Hfuel; lia).
    f_equal. rewrite length_app. simpl. lia.
Qed.

Lemma skip_whitespace_blanks pre ws d suf ls ln :
  forallb is_blank ws = true ->
  is_blank d = false -> Ascii.eqb d ";" = false ->
  skip_whitespace (mkLexer (pre ++ ws ++ d :: suf) (length pre) ls ln)
  = mkLexer (pre ++ ws ++ d :: suf) (length pre + length ws) ls ln.
Proof.
  intros Hws Hd Hsemi. unfold skip_whitespace.
  apply skip_whitespace_loop_blanks; try assumption.
  rewrite remaining_at, length_app. lia.
Qed.

Lemma advance_while_at p pre xs rest ls ln :
  forallb p xs = true ->
  match rest with [] => true | d :: _ => negb (p d) end = true ->
  advance_while p (mkLexer (pre ++ xs ++ rest) (length pre) ls ln)
  = mkLexer (pre ++ xs ++ rest) (length pre + length xs) ls ln.
Proof.
  intros Hxs Hrest. unfold advance_while, set_current.
  rewrite remaining_at, (scan_app p xs rest Hxs Hrest). reflexivity.
Qed.

Lemma token_text_at pre xs rest ls ln ty :
  token_text (pre ++ xs ++ rest)
    (make_token (mkLexer (pre ++ xs ++ rest) (length pre + length xs) ls ln) ty (length pre))
  = xs.
Proof.
  unfold token_text, make_token. cbn [tok_start tok_length current].
  replace (Z.to_nat (Z.of_nat (length pre + length xs) - Z.of_nat (length pre)))
    with (length xs) by lia.
  rewrite skipn_app_length. rewrite firstn_app, Nat.sub_diag, firstn_all. simpl.
  apply app_nil_r.
Qed.

(** An identifier at the lexer's position, after blanks. *)
Lemma lexer_next_identifier pre ws c cs rest ls ln :
  forallb is_blank ws = true ->
  is_alpha c = true ->
  forallb is_alnum cs = true ->
  match rest with [] => true | d :: _ => negb (is_alnum d) end = true ->
  let src := pre ++ ws ++ (c :: cs) ++ rest in
  let lex' := mkLexer src (length pre + length ws + S (length cs)) ls ln in
  lexer_next (mkLexer src (length pre) ls ln)
  = (make_token lex' TOK_IDENTIFIER (length pre + length ws), lex').
Proof.
  intros Hws Hc Hcs Hrest. cbv zeta.
  destruct (alpha_dispatch c Hc) as (Hb & Hsemi & Hnul & Hlf & Hdollar & Hpct & Hdig & Hsq &
                                     Hdq & _).
  unfold lexer_next. change ((c :: cs) ++ rest) with (c :: cs ++ rest).
  rewrite (skip_whitespace_blanks pre ws c (cs ++ rest) ls ln Hws Hb Hsemi).
  replace (pre ++ ws ++ c :: cs ++ rest) with ((pre ++ ws) ++ c :: cs ++ rest)
    by (rewrite <- app_assoc; reflexivity).
  rewrite <- length_app.
  unfold is_at_end, advance. rewrite peek_at. cbn [source current].
  rewrite char_at_app, Hnul, Hlf, Hdollar, Hpct, Hdig, Hsq, Hdq, Hc. cbn [andb].
  unfold parse_identifier, set_current. cbn [source current line_start line].
  replace ((pre ++ ws) ++ c :: cs ++ rest) with (((pre ++ ws) ++ [c]) ++ cs ++ rest)
    by (rewrite <- !app_assoc; reflexivity).
  replace (S (length (pre ++ ws))) with (length ((pre ++ ws) ++ [c]))
    by (rewrite (length_app _ [c]); simpl; lia).
  rewrite (advance_while_at is_alnum _ cs rest ls ln Hcs Hrest).
  replace (length ((pre ++ ws) ++ [c]) + length cs)%nat
    with (length (pre ++ ws) + S (length cs))%nat
    by (rewrite (length_app _ [c]); simpl; lia).
  reflexivity.
Qed.

(** *** A run of [+] at the lexer's position *)




End PlusBeforeIdentifier.



(** ** The lexer: identifiers, comments and numbers *)

Section LexerTokens.

Import Readings.

Lemma skip_whitespace_loop_comment cm rest ls ln ws : forall pre fuel,
  forallb is_blank ws = true ->
  forallb in_comment cm = true ->
  (S (length ws) < fuel)%nat ->
  let src := pre ++ ws ++ ";"%char :: cm ++ LF :: rest in
  skip_whitespace_loop fuel (mkLexer src (length pre) ls ln)
  = mkLexer src (length pre + length ws + S (length cm)) ls ln.
Proof.
  induction ws as [|w ws IH]; intros pre fuel Hws Hcm Hfuel; cbv zeta.
  - destruct fuel as [|[|fuel]]; [simpl in Hfuel; lia..|].
    cbn [app]. cbn [skip_whitespace_loop]. rewrite peek_at.
    change (is_blank ";") with false. change (Ascii.eqb ";" ";") with true. cbv iota.
    pose proof (advance_while_at in_comment pre (";"%char :: cm) (LF :: rest) ls ln) as Hadv.
    cbn [app] in Hadv. rewrite Hadv by (try reflexivity; cbn [forallb]; rewrite Hcm; reflexivity).
    replace (pre ++ ";"%char :: cm ++ LF :: rest) with ((pre ++ ";"%char :: cm) ++ LF :: rest)
      by (rewrite <- app_assoc; reflexivity).
    replace (length pre + length (";"%char :: cm))%nat with (length (pre ++ ";"%char :: cm))
      by (rewrite length_app; reflexivity).
    destruct fuel; cbn [skip_whitespace_loop]; rewrite ?peek_at;
      change (is_blank LF) with false; change (Ascii.eqb LF ";") with false; cbv iota;
      f_equal; rewrite length_app; simpl; lia.
  - destruct fuel as [|fuel]; [simpl in Hfuel; lia|].
    cbn [forallb] in Hws. apply andb_true_iff in Hws as [Hw Hws].
    cbn [skip_whitespace_loop].
    change ((w :: ws) ++ ";"%char :: cm ++ LF :: rest)
      with (w :: ws ++ ";"%char :: cm ++ LF :: rest).
    rewrite peek_at, Hw. unfold advance, set_current. cbn [snd source current line_start Lexer.line].
    replace (pre ++ w :: ws ++ ";"%char :: cm ++ LF :: rest)
      with ((pre ++ [w]) ++ ws ++ ";"%char :: cm ++ LF :: rest)
      by (rewrite <- app_assoc; reflexivity).
    replace (S (length pre)) with (length (pre ++ [w]))
      by (rewrite length_app; simpl; lia).
    specialize (IH (pre ++ [w]) fuel Hws Hcm). cbv zeta in IH.
    rewrite IH by (simpl in Hfuel; lia).
    f_equal. rewrite length_app. simpl. lia.
Qed.

End LexerTokens.

(** X1: an identifier at the lexer's position, after any blanks, becomes
    one [TOK_IDENTIFIER] token: its text is the whole run of letters, digits
    and underscores, its column counts from the start of the line, and the
    lexer stops right behind the run without touching the line counter. *)
Theorem lexer_identifier_token
    (pre ws cs rest : list ascii) (c : ascii) (ls : nat) (ln : Z) :
  forallb is_blank ws = true ->
  is_alpha c = true ->
  forallb is_alnum cs = true ->
  match rest with [] => true | d :: _ => negb (is_alnum d) end = true ->
  let src := pre ++ ws ++ (c :: cs) ++ rest in
  let (tok, lex') := lexer_next (mkLexer src (length pre) ls ln) in
  tok_type tok = TOK_IDENTIFIER /\
  token_text src tok = c :: cs /\
  tok_line tok = ln /\
  tok_column tok = Z.of_nat (length pre + length ws) - Z.of_nat ls + 1 /\
  remaining lex' = rest /\ Lexer.line lex' = ln /\ line_start lex' = ls.
Proof.
  intros Hws Hc Hcs Hrest. cbv zeta.
  pose proof (lexer_next_identifier pre ws c cs rest ls ln Hws Hc Hcs Hrest) as H.
  cbv zeta in H. rewrite H.
  split; [reflexivity|]. split.
  - pose proof (token_text_at (pre ++ ws) (c :: cs) rest ls ln TOK_IDENTIFIER) as Ht.
    rewrite length_app in Ht. rewrite <- app_assoc in Ht. exact Ht.
  - split; [reflexivity|]. split; [reflexivity|]. split; [|split; reflexivity].
    pose proof (remaining_at ((pre ++ ws) ++ c :: cs) rest ls ln) as Hr.
    rewrite !length_app in Hr. rewrite <- !app_assoc in Hr.
    cbn [length] in Hr. exact Hr.
Qed.

Lemma lexer_identifier_token_witness :
  let src := src_of "lda" ++ src_of "  " ++ ("v"%char :: src_of "al_1") ++ src_of ",x" in
  (forallb is_blank (src_of "  ") = true /\ is_alpha "v" = true /\
   forallb is_alnum (src_of "al_1") = true) /\
  let (tok, lex') := lexer_next (mkLexer src 3 0 7) in
  tok_type tok = TOK_IDENTIFIER /\
  token_text src tok = src_of "val_1" /\
  tok_line tok = 7 /\ tok_column tok = 6 /\
  remaining lex' = src_of ",x" /\ Lexer.line lex' = 7 /\ line_start lex' = 0%nat.
Proof.
  cbv zeta. split; [repeat split; reflexivity|].
  exact (lexer_identifier_token (src_of "lda") (src_of "  ") (src_of "al_1") (src_of ",x")
           "v" 0 7 eq_refl eq_refl eq_refl eq_refl).
Defined.

(** X2: a comment runs to the end of its line and is no token: from blanks
    and a [;] comment the lexer goes on to the line feed, returns [TOK_EOL]
    for the line the comment was on, and then stands at the start of the
    next line with the line counter advanced by one. *)
Theorem lexer_comment_to_eol
    (pre ws cm rest : list ascii) (ls : nat) (ln : Z) :
  forallb is_blank ws = true ->
  forallb in_comment cm = true ->
  let src := pre ++ ws ++ ";"%char :: cm ++ LF :: rest in
  let (tok, lex') := lexer_next (mkLexer src (length pre) ls ln) in
  tok_type tok = TOK_EOL /\
  token_text src tok = [LF] /\
  tok_line tok = ln /\
  remaining lex' = rest /\
  Lexer.line lex' = ln + 1 /\
  line_start lex' = current lex'.
Proof.
  intros Hws Hcm. cbv zeta. unfold lexer_next, skip_whitespace.
  pose proof (skip_whitespace_loop_comment cm rest ls ln ws pre
                (S (length (remaining (mkLexer (pre ++ ws ++ ";"%char :: cm ++ LF :: rest)
                                               (length pre) ls ln))))
                Hws Hcm) as Hskip.
  cbv zeta in Hskip. rewrite Hskip by (rewrite remaining_at, length_app; simpl; lia).
  set (P := pre ++ ws ++ ";"%char :: cm).
  assert (Hsrc : pre ++ ws ++ ";"%char :: cm ++ LF :: rest = P ++ LF :: rest)
    by (unfold P; rewrite <- !app_assoc; reflexivity).
  assert (Hlen : (length pre + length ws + S (length cm))%nat = length P)
    by (unfold P; rewrite !length_app; simpl; lia).
  rewrite Hsrc, Hlen.
  unfold is_at_end, advance. rewrite peek_at. cbn [source current].
  rewrite char_at_app. change (Ascii.eqb LF NUL) with false. change (Ascii.eqb LF LF) with true.
  cbv iota. unfold set_current. cbn [source current line_start Lexer.line].
  split; [reflexivity|]. split.
  - pose proof (token_text_at P [LF] rest ls ln TOK_EOL) as Ht. cbn [app length] in Ht.
    replace (S (length P)) with (length P + 1)%nat by lia. exact Ht.
  - split; [reflexivity|]. split; [|split; reflexivity].
    pose proof (remaining_at (P ++ [LF]) rest ls (ln + 1)) as Hr.
    rewrite length_app in Hr. rewrite <- app_assoc in Hr. cbn [app length] in Hr.
    unfold remaining in *. cbn [source current] in *.
    replace (S (length P)) with (length P + 1)%nat by lia. exact Hr.
Qed.

Lemma lexer_comment_to_eol_witness :
  let src := src_of "rts" ++ src_of " " ++ ";"%char :: src_of " done" ++ LF :: src_of "nop" in
  (forallb is_blank (src_of " ") = true /\ forallb in_comment (src_of " done") = true) /\
  let (tok, lex') := lexer_next (mkLexer src 3 0 4) in
  tok_type tok = TOK_EOL /\ token_text src tok = [LF] /\ tok_line tok = 4 /\
  remaining lex' = src_of "nop" /\ Lexer.line lex' = 4 + 1 /\ line_start lex' = current lex'.
Proof.
  cbv zeta. split; [split; reflexivity|].
  exact (lexer_comment_to_eol (src_of "rts") (src_of " ") (src_of " done") (src_of "nop") 0 4
           eq_refl eq_refl).
Defined.

Section NumberLiterals.

Import Readings.

Lemma digit_dispatch c :
  is_digit c = true ->
  is_blank c = false /\ Ascii.eqb c ";" = false /\ Ascii.eqb c NUL = false /\
  Ascii.eqb c LF = false /\ Ascii.eqb c "$" = false /\ Ascii.eqb c "%" = false /\
  0 <= code c - 48 <= 9.
Proof.
  destruct c as [[] [] [] [] [] [] [] []]; intros H; try discriminate H;
    repeat split; try reflexivity; vm_compute; discriminate.
Qed.

Lemma decimal_fold_le ds : forall v,
  forallb is_digit ds = true -> 0 <= v ->
  v <= fold_left (fun acc c => acc * 10 + (code c - 48)) ds v.
Proof.
  induction ds as [|c ds IH]; intros v Hds Hv; simpl; [lia|].
  simpl in Hds. apply andb_true_iff in Hds as [Hc Hds].
  destruct (digit_dispatch c Hc) as (_ & _ & _ & _ & _ & _ & Hd).
  specialize (IH (v * 10 + (code c - 48)) Hds ltac:(lia)). lia.
Qed.

(** The loop of [parse_decimal] on digits whose value fits: no round wraps,
    so the test [new_value < value] never fires. *)
Lemma decimal_loop_exact ds : forall rest v used,
  forallb is_digit ds = true ->
  match rest with [] => true | r :: _ => negb (is_digit r) end = true ->
  0 <= v ->
  fold_left (fun acc c => acc * 10 + (code c - 48)) ds v <= 2147483647 ->
  decimal_loop (ds ++ rest) v used
  = (Some (fold_left (fun acc c => acc * 10 + (code c - 48)) ds v), (used + length ds)%nat).
Proof.
  induction ds as [|c ds IH]; intros rest v used Hds Hrest Hv Hmax.
  - simpl. rewrite Nat.add_0_r. destruct rest as [|r rest]; [reflexivity|].
    simpl. apply negb_true_iff in Hrest. rewrite Hrest. reflexivity.
  - simpl in Hds. apply andb_true_iff in Hds as [Hc Hds].
    destruct (digit_dispatch c Hc) as (_ & _ & _ & _ & _ & _ & Hd).
    cbn [app decimal_loop fold_left length] in *. rewrite Hc.
    pose proof (decimal_fold_le ds (v * 10 + (code c - 48)) Hds ltac:(lia)) as Hle.
    rewrite to_int32_id by lia.
    destruct (Z.ltb_spec (v * 10 + (code c - 48)) v) as [Hlt|_]; [lia|].
    rewrite (IH rest _ (S used) Hds Hrest) by lia.
    f_equal. lia.
Qed.

Lemma hex_digit_value c : is_hex_digit c = true -> 0 <= hex_value c < 16.
Proof.
  destruct c as [[] [] [] [] [] [] [] []]; intros H; try discriminate H;
    vm_compute; (split; [discriminate|reflexivity]).
Qed.

Lemma shiftl4_lor y h : 0 <= h < 16 -> Z.lor (Z.shiftl y 4) h = y * 16 + h.
Proof.
  intros Hh. rewrite Z.shiftl_mul_pow2 by lia. change (2 ^ 4) with 16.
  assert (Hland : Z.land (y * 16) h = 0).
  { apply Z.bits_inj'. intros n Hn. rewrite Z.land_spec, Z.bits_0.
    destruct (Z.ltb_spec n 4) as [Hlow|Hhigh].
    - change 16 with (2 ^ 4). rewrite Z.mul_pow2_bits_low by lia. reflexivity.
    - assert (Hbit : Z.testbit h n = false).
      { apply Z.testbit_false; [lia|].
        assert (2 ^ 4 <= 2 ^ n) by (apply Z.pow_le_mono_r; lia).
        rewrite Z.div_small by lia. reflexivity. }
      rewrite Hbit. apply andb_false_r. }
  rewrite <- Z.lxor_lor by exact Hland. symmetry. apply Z.add_nocarry_lxor. exact Hland.
Qed.

Lemma to_int32_shift x h :
  to_int32 (to_int32 x * 16 + h) = to_int32 (x * 16 + h).
Proof.
  unfold to_int32. f_equal.
  pose proof (Z.div_mod (x + 2147483648) 4294967296 ltac:(lia)) as Hdm.
  set (q := (x + 2147483648) / 4294967296) in *.
  replace (((x + 2147483648) mod 4294967296 - 2147483648) * 16 + h + 2147483648)
    with ((x * 16 + h + 2147483648) + (- (16 * q)) * 4294967296) by lia.
  apply Z_mod_plus_full.
Qed.

(** The loop of [parse_hex] while the digit count stays within eight. *)
Lemma hex_loop_exact hs : forall rest x digits used,
  forallb is_hex_digit hs = true ->
  match rest with [] => true | r :: _ => negb (is_hex_digit r) end = true ->
  digits + Z.of_nat (length hs) <= 8 ->
  hex_loop (hs ++ rest) (to_int32 x) digits used
  = (Some (to_int32 (fold_left (fun acc c => acc * 16 + hex_value c) hs x)),
     digits + Z.of_nat (length hs), (used + length hs)%nat).
Proof.
  induction hs as [|c hs IH]; intros rest x digits used Hhs Hrest Hlen.
  - simpl. rewrite Nat.add_0_r, Z.add_0_r. destruct rest as [|r rest]; [reflexivity|].
    simpl. apply negb_true_iff in Hrest. rewrite Hrest. reflexivity.
  - simpl in Hhs. apply andb_true_iff in Hhs as [Hc Hhs].
    cbn [app hex_loop fold_left]. rewrite Hc.
    cbn [length] in Hlen |- *.
    destruct (Z.ltb_spec 8 (digits + 1)) as [Hbad|_]; [lia|].
    rewrite shiftl4_lor by (apply hex_digit_value; exact Hc).
    rewrite to_int32_shift.
    rewrite (IH rest (x * 16 + hex_value c) (digits + 1) (S used) Hhs Hrest) by lia.
    f_equal; [f_equal; lia|lia].
Qed.

(** The ninth digit ends the loop with the error, whatever follows. *)
Lemma hex_loop_too_long hs : forall rest v digits used,
  forallb is_hex_digit hs = true ->
  0 <= digits <= 8 ->
  8 < digits + Z.of_nat (length hs) ->
  fst (fst (hex_loop (hs ++ rest) v digits used)) = None.
Proof.
  induction hs as [|c hs IH]; intros rest v digits used Hhs Hd Hlen.
  - simpl in Hlen. lia.
  - simpl in Hhs. apply andb_true_iff in Hhs as [Hc Hhs].
    cbn [app hex_loop]. rewrite Hc.
    destruct (Z.ltb_spec 8 (digits + 1)) as [Hbad|Hok]; [reflexivity|].
    apply IH; [exact Hhs|lia|]. cbn [length] in Hlen. lia.
Qed.

End NumberLiterals.

(** X3: a decimal literal whose value is at most 2147483647 is read
    exactly: after any blanks, the lexer returns one [TOK_NUMBER] token
    that covers all the digits and carries the number they denote. *)
Theorem lexer_decimal_in_range
    (pre ws ds rest : list ascii) (d : ascii) (ls : nat) (ln : Z) :
  forallb is_blank ws = true ->
  is_digit d = true ->
  forallb is_digit ds = true ->
  match rest with [] => true | r :: _ => negb (is_digit r) end = true ->
  Readings.decimal_value (d :: ds) <= 2147483647 ->
  let src := pre ++ ws ++ (d :: ds) ++ rest in
  let (tok, lex') := lexer_next (mkLexer src (length pre) ls ln) in
  tok_type tok = TOK_NUMBER /\
  tok_number tok = Readings.decimal_value (d :: ds) /\
  token_text src tok = d :: ds /\
  remaining lex' = rest.
Proof.
  intros Hws Hd Hds Hrest Hmax. cbv zeta.
  destruct (digit_dispatch d Hd) as (Hb & Hsemi & Hnul & Hlf & Hdollar & Hpct & _).
  unfold lexer_next. change ((d :: ds) ++ rest) with (d :: ds ++ rest).
  rewrite (skip_whitespace_blanks pre ws d (ds ++ rest) ls ln Hws Hb Hsemi).
  set (P := pre ++ ws).
  assert (Hsrc : pre ++ ws ++ d :: ds ++ rest = P ++ (d :: ds) ++ rest)
    by (unfold P; rewrite <- app_assoc; reflexivity).
  assert (Hlen : (length pre + length ws)%nat = length P)
    by (unfold P; rewrite length_app; reflexivity).
  rewrite Hsrc, Hlen.
  unfold is_at_end, advance. change ((d :: ds) ++ rest) with (d :: ds ++ rest).
  rewrite peek_at. cbn [source current].
  rewrite char_at_app, Hnul, Hlf, Hdollar, Hpct, Hd. cbn [andb].
  unfold parse_decimal, set_current. cbn [source current line_start Lexer.line].
  change (d :: ds ++ rest) with ((d :: ds) ++ rest).
  rewrite remaining_at.
  rewrite (decimal_loop_exact (d :: ds) rest 0 0)
    by (try assumption; try lia; cbn [forallb]; rewrite Hd; exact Hds).
  cbn [Nat.add]. fold (Readings.decimal_value (d :: ds)).
  split; [reflexivity|]. split; [reflexivity|]. split.
  - apply (token_text_at P (d :: ds) rest ls ln TOK_NUMBER).
  - pose proof (remaining_at (P ++ d :: ds) rest ls ln) as Hr.
    rewrite length_app in Hr. rewrite <- app_assoc in Hr. exact Hr.
Qed.

Lemma lexer_decimal_in_range_witness :
  let src := src_of "!fill" ++ src_of " " ++ ("2"%char :: src_of "147483647") ++ src_of ",0" in
  (forallb is_blank (src_of " ") = true /\ is_digit "2" = true /\
   forallb is_digit (src_of "147483647") = true /\
   Readings.decimal_value ("2"%char :: src_of "147483647") <= 2147483647) /\
  let (tok, lex') := lexer_next (mkLexer src 5 0 1) in
  tok_type tok = TOK_NUMBER /\
  tok_number tok = Readings.decimal_value ("2"%char :: src_of "147483647") /\
  token_text src tok = "2"%char :: src_of "147483647" /\
  remaining lex' = src_of ",0".
Proof.
  cbv zeta. split; [repeat split; try reflexivity; vm_compute; discriminate|].
  refine (lexer_decimal_in_range (src_of "!fill") (src_of " ") (src_of "147483647")
            (src_of ",0") "2" 0 1 eq_refl eq_refl eq_refl eq_refl _).
  vm_compute. discriminate.
Defined.

(** X4: a hexadecimal literal of one to eight digits is read as the 32-bit
    two's-complement value of the number its digits denote, in one
    [TOK_NUMBER] token that covers the [$] and the digits; a ninth digit
    makes the token the error "hex number too large". *)
Theorem lexer_hex_literal
    (pre ws hs rest : list ascii) (h : ascii) (ls : nat) (ln : Z) :
  forallb is_blank ws = true ->
  is_hex_digit h = true ->
  forallb is_hex_digit hs = true ->
  match rest with [] => true | r :: _ => negb (is_hex_digit r) end = true ->
  let src := pre ++ ws ++ "$"%char :: (h :: hs) ++ rest in
  let (tok, lex') := lexer_next (mkLexer src (length pre) ls ln) in
  if (length (h :: hs) <=? 8)%nat then
    tok_type tok = TOK_NUMBER /\
    tok_number tok = to_int32 (Readings.hex_number (h :: hs)) /\
    token_text src tok = "$"%char :: h :: hs /\
    remaining lex' = rest
  else
    tok_type tok = TOK_ERROR /\ tok_start tok = Message "hex number too large".
Proof.
  intros Hws Hh Hhs Hrest. cbv zeta.
  assert (Hall : forallb is_hex_digit (h :: hs) = true)
    by (cbn [forallb]; rewrite Hh; exact Hhs).
  unfold lexer_next.
  rewrite (skip_whitespace_blanks pre ws "$" ((h :: hs) ++ rest) ls ln Hws eq_refl eq_refl).
  set (P := pre ++ ws).
  assert (Hsrc : pre ++ ws ++ "$"%char :: (h :: hs) ++ rest
                 = P ++ "$"%char :: (h :: hs) ++ rest)
    by (unfold P; rewrite <- app_assoc; reflexivity).
  assert (Hlen : (length pre + length ws)%nat = length P)
    by (unfold P; rewrite length_app; reflexivity).
  rewrite Hsrc, Hlen.
  unfold is_at_end, advance. rewrite peek_at. cbn [source current].
  rewrite char_at_app.
  change (Ascii.eqb "$" NUL) with false. change (Ascii.eqb "$" LF) with false.
  change (Ascii.eqb "$" "$") with true. cbv iota.
  unfold parse_hex, set_current. cbn [source current line_start Lexer.line].
  pose proof (remaining_at (P ++ ["$"%char]) ((h :: hs) ++ rest) ls ln) as Hrem.
  rewrite length_app in Hrem. rewrite <- app_assoc in Hrem. cbn [app length] in Hrem.
  replace (length P + 1)%nat with (S (length P)) in Hrem by lia.
  cbn [app]. rewrite Hrem.
  destruct (Nat.leb_spec (length (h :: hs)) 8) as [Hshort|Hlong].
  - pose proof (hex_loop_exact (h :: hs) rest 0 0 0 Hall Hrest ltac:(lia)) as Hloop.
    change (to_int32 0) with 0 in Hloop. cbn [app] in Hloop. rewrite Hloop.
    cbn [Nat.add Z.add].
    destruct (Z.eqb_spec (Z.of_nat (length (h :: hs))) 0) as [Hz|_];
      [cbn [length] in Hz; lia|].
    fold (Readings.hex_number (h :: hs)).
    split; [reflexivity|]. split; [reflexivity|]. split.
    + pose proof (token_text_at P ("$"%char :: h :: hs) rest ls ln TOK_NUMBER) as Ht.
      cbn [app length] in Ht.
      replace (S (length P + length (h :: hs)))
        with (length P + S (S (length hs)))%nat by (cbn [length]; lia).
      exact Ht.
    + pose proof (remaining_at (P ++ "$"%char :: h :: hs) rest ls ln) as Hr.
      rewrite length_app in Hr. rewrite <- app_assoc in Hr. cbn [app length] in Hr.
      replace (S (length P + length (h :: hs)))
        with (length P + S (S (length hs)))%nat by (cbn [length]; lia).
      exact Hr.
  - pose proof (hex_loop_too_long (h :: hs) rest 0 0 0 Hall ltac:(lia) ltac:(lia)) as Hnone.
    cbn [app] in Hnone.
    destruct (hex_loop (h :: hs ++ rest) 0 0 0) as [[r digits] used].
    cbn [fst] in Hnone. subst r. split; reflexivity.
Qed.

Lemma lexer_hex_literal_witness :
  let src := src_of "lda" ++ src_of " " ++ "$"%char :: ("F"%char :: src_of "FFFFFFF")
             ++ src_of ",x" in
  (forallb is_blank (src_of " ") = true /\ is_hex_digit "F" = true /\
   forallb is_hex_digit (src_of "FFFFFFF") = true) /\
  let (tok, lex') := lexer_next (mkLexer src 3 0 1) in
  tok_type tok = TOK_NUMBER /\
  tok_number tok = to_int32 (Readings.hex_number ("F"%char :: src_of "FFFFFFF")) /\
  token_text src tok = "$"%char :: "F"%char :: src_of "FFFFFFF" /\
  remaining lex' = src_of ",x".
Proof.
  cbv zeta. split; [repeat split; reflexivity|].
  exact (lexer_hex_literal (src_of "lda") (src_of " ") (src_of "FFFFFFF") (src_of ",x")
           "F" 0 1 eq_refl eq_refl eq_refl eq_refl).
Defined.

(** ** The symbol store: names and neighbours *)

Section SymbolNames.

Lemma hash_loop_nocase a : forall b h,
  str_equal_nocase a b = true -> hash_loop a h = hash_loop b h.
Proof.
  induction a as [|ca a IH]; intros [|cb b] h; simpl; try discriminate; [reflexivity|].
  destruct (Ascii.eqb_spec (toupper ca) (toupper cb)) as [Hc|Hne]; simpl; [|discriminate].
  intros H. rewrite Hc. apply IH. exact H.
Qed.

Lemma str_equal_nocase_right s a b :
  str_equal_nocase a b = true -> str_equal_nocase s a = str_equal_nocase s b.
Proof.
  intros Hab. apply str_equal_nocase_upper in Hab.
  destruct (str_equal_nocase s a) eqn:Hsa.
  - apply str_equal_nocase_upper in Hsa. symmetry. apply str_equal_nocase_upper. congruence.
  - destruct (str_equal_nocase s b) eqn:Hsb; [|reflexivity].
    apply str_equal_nocase_upper in Hsb.
    assert (str_equal_nocase s a = true) by (apply str_equal_nocase_upper; congruence).
    congruence.
Qed.

Lemma chain_lookup_nocase chain a b :
  str_equal_nocase a b = true -> chain_lookup chain a = chain_lookup chain b.
Proof.
  intros Hab. induction chain as [|sym chain IH]; simpl; [reflexivity|].
  rewrite (str_equal_nocase_right (name sym) a b Hab), IH. reflexivity.
Qed.

End SymbolNames.

(** X5: the symbol store is case-insensitive throughout: two spellings
    that [str_equal_nocase] identifies hash to the same bucket and find
    the same entry, in every table. *)
Theorem symbol_lookup_nocase (table : SymbolTable) (a b : string) :
  str_equal_nocase a b = true ->
  hash_symbol a = hash_symbol b /\
  symbol_lookup table a = symbol_lookup table b /\
  symbol_is_defined table a = symbol_is_defined table b.
Proof.
  intros Hab.
  assert (Hh : hash_symbol a = hash_symbol b) by (apply hash_loop_nocase; exact Hab).
  assert (Hl : symbol_lookup table a = symbol_lookup table b).
  { unfold symbol_lookup, bucket_of. rewrite Hh. apply chain_lookup_nocase. exact Hab. }
  split; [exact Hh|]. split; [exact Hl|].
  unfold symbol_is_defined. rewrite Hl. reflexivity.
Qed.

Lemma symbol_lookup_nocase_witness :
  let table := snd (symbol_define (symbol_table_create 1024) "Screen" 1024 SYM_NONE "t.asm" 1) in
  str_equal_nocase "SCREEN" "screen" = true /\
  hash_symbol "SCREEN" = hash_symbol "screen" /\
  symbol_lookup table "SCREEN" = symbol_lookup table "screen" /\
  symbol_is_defined table "SCREEN" = symbol_is_defined table "screen".
Proof.
  cbv zeta. split; [reflexivity|].
  exact (symbol_lookup_nocase
           (snd (symbol_define (symbol_table_create 1024) "Screen" 1024 SYM_NONE "t.asm" 1))
           "SCREEN" "screen" eq_refl).
Defined.

(** X6: [symbol_define] touches one name only.  Whatever the call does for
    its own name (insert, update or refuse), the table keeps its shape and
    every name that differs from it, case ignored, is looked up to the same
    entry as before. *)
Theorem symbol_define_keeps_others
    (table : SymbolTable) (nm nm' : string) (v fl : Z) (fi : string) (ln : Z) :
  table_ok table = true ->
  str_equal_nocase nm nm' = false ->
  let table' := snd (symbol_define table nm v fl fi ln) in
  table_ok table' = true /\
  Symbols.size table' = Symbols.size table /\
  symbol_lookup table' nm' = symbol_lookup table nm'.
Proof.
  intros Hok Hne. cbv zeta.
  assert (Hsize : Symbols.size (snd (symbol_define table nm v fl fi ln)) = Symbols.size table).
  { unfold symbol_define. destruct (chain_define _ _ _ _) as [[[s|] c]|]; reflexivity. }
  split; [|split; [exact Hsize|]].
  - destruct (symbol_lookup table nm) as [old|] eqn:Hl.
    + destruct (has_flag (flags old) SYM_CONSTANT) eqn:Hc;
        destruct (has_flag fl SYM_FORCE_UPDATE) eqn:Hf.
      2: { rewrite (symbol_define_refused table nm v fl fi ln old Hl Hc Hf). exact Hok. }
      all: destruct (symbol_define_update table nm v fl fi ln old Hok Hl) as (_ & _ & _ & H & _);
        [auto|exact H].
    + destruct (symbol_define_new table nm v fl fi ln Hok Hl) as (_ & _ & _ & H & _). exact H.
  - destruct (symbol_lookup table nm) as [old|] eqn:Hl.
    + destruct (has_flag (flags old) SYM_CONSTANT) eqn:Hc;
        destruct (has_flag fl SYM_FORCE_UPDATE) eqn:Hf.
      2: { rewrite (symbol_define_refused table nm v fl fi ln old Hl Hc Hf). reflexivity. }
      all: destruct (symbol_define_update table nm v fl fi ln old Hok Hl) as (_ & _ & _ & _ & H);
        [auto|exact (H nm' Hne)].
    + destruct (symbol_define_new table nm v fl fi ln Hok Hl) as (_ & _ & _ & _ & H).
      exact (H nm' Hne).
Qed.

Lemma symbol_define_keeps_others_witness :
  let t0 := snd (symbol_define (symbol_table_create 1024) "start" 4096 SYM_NONE "t.asm" 1) in
  let t1 := snd (symbol_define t0 "count" 7 SYM_CONSTANT "t.asm" 2) in
  (table_ok t0 = true /\ str_equal_nocase "count" "START" = false) /\
  table_ok t1 = true /\ Symbols.size t1 = Symbols.size t0 /\
  symbol_lookup t1 "START" = symbol_lookup t0 "START".
Proof.
  cbv zeta. split; [split; reflexivity|].
  exact (symbol_define_keeps_others
           (snd (symbol_define (symbol_table_create 1024) "start" 4096 SYM_NONE "t.asm" 1))
           "count" "START" 7 SYM_CONSTANT "t.asm" 2 eq_refl eq_refl).
Defined.

(** ** Anonymous labels *)

(** X7: the backward labels are a stack read from its top.  After
    [anon_define_backward] at an address, a reference with count 1 resolves
    to that address (as a 16-bit value), and a reference with count [k + 1]
    resolves to what count [k] resolved to before; the forward labels and
    their cursor are left alone. *)
Theorem anon_backward_stack
    (anon : AnonLabels) (addr : Z) (fi : string) (ln : Z) (k : Z) :
  1 <= k ->
  let anon' := anon_define_backward anon addr fi ln in
  anon_resolve_backward (Some anon') 1 = addr mod 65536 /\
  anon_resolve_backward (Some anon') (k + 1) = anon_resolve_backward (Some anon) k /\
  forward anon' = forward anon /\ forward_index anon' = forward_index anon.
Proof.
  intros Hk. cbv zeta.
  assert (Hcount : backward_count (anon_define_backward anon addr fi ln)
                   = backward_count anon + 1).
  { unfold backward_count, anon_define_backward. simpl. rewrite length_app. simpl. lia. }
  split; [|split; [|split; reflexivity]].
  - unfold anon_resolve_backward. rewrite Hcount.
    unfold backward_count. change (1 <? 1) with false. cbv iota.
    destruct (Z.ltb_spec (Z.of_nat (length (backward anon)) + 1 - 1) 0) as [Hneg|_]; [lia|].
    unfold label_at, anon_define_backward. simpl.
    replace (Z.to_nat (Z.of_nat (length (backward anon)) + 1 - 1))
      with (length (backward anon) + 0)%nat by lia.
    rewrite lookup_app_r by lia.
    replace (length (backward anon) + 0 - length (backward anon))%nat with 0%nat by lia.
    simpl. unfold to_uint16. apply Z.mod_mod. lia.
  - unfold anon_resolve_backward. rewrite Hcount.
    destruct (Z.ltb_spec (k + 1) 1) as [Hlt|_]; [lia|].
    destruct (Z.ltb_spec k 1) as [Hlt|_]; [lia|].
    replace (backward_count anon + 1 - (k + 1)) with (backward_count anon - k) by lia.
    destruct (Z.ltb_spec (backward_count anon - k) 0) as [Hneg|Hpos]; [reflexivity|].
    unfold label_at, anon_define_backward, backward_count in *. simpl.
    rewrite lookup_app_l by lia. reflexivity.
Qed.

Lemma anon_backward_stack_witness :
  let anon := anon_define_backward anon_create 4096 "t.asm" 1 in
  let anon' := anon_define_backward anon 4112 "t.asm" 5 in
  1 <= 1 /\
  anon_resolve_backward (Some anon') 1 = 4112 mod 65536 /\
  anon_resolve_backward (Some anon') (1 + 1) = anon_resolve_backward (Some anon) 1 /\
  forward anon' = forward anon /\ forward_index anon' = forward_index anon.
Proof.
  cbv zeta. split; [lia|].
  refine (anon_backward_stack (anon_define_backward anon_create 4096 "t.asm" 1)
            4112 "t.asm" 5 1 _). lia.
Defined.

(** ** Expressions *)

Section ExpressionFacts.

Import Readings.

Lemma expr_eval_pass1_tracker e : forall symbols anon pc zone,
  snd (expr_eval e symbols anon pc 1 zone) = anon.
Proof.
  induction e as [n|nm| |op e IH|op l IHl r IHr]; intros symbols anon pc zone;
    cbn [expr_eval].
  - reflexivity.
  - unfold eval_symbol. change (1 =? 1) with true.
    destruct (String.prefix "__anon_fwd_" nm); [reflexivity|].
    destruct (String.prefix "__anon_back_" nm).
    + destruct (_ <? 0); reflexivity.
    + destruct symbols as [table|]; [|reflexivity].
      destruct (symbol_lookup _ _) as [sym|]; [destruct (has_flag _ _)|]; reflexivity.
  - reflexivity.
  - specialize (IH symbols anon pc zone).
    destruct (expr_eval e symbols anon pc 1 zone) as [rv o]. exact IH.
  - specialize (IHl symbols anon pc zone).
    destruct (expr_eval l symbols anon pc 1 zone) as [lv o1]. cbn [snd] in IHl. subst o1.
    specialize (IHr symbols anon pc zone).
    destruct (expr_eval r symbols anon pc 1 zone) as [rv o2]. exact IHr.
Qed.

End ExpressionFacts.



(** X9: pass 1 never moves the cursor of the forward labels: whatever the
    expression, [expr_eval] with pass number 1 returns the tracker it was
    given, and [eval] leaves the tracker of the assembler state as it is. *)
Theorem expr_eval_pass1_keeps_tracker
    (e : Expr) (table : option SymbolTable) (anon : option AnonLabels)
    (at_pc : Z) (zone : option string) (a : Assembler) (oe : option Expr) :
  pass a = 1 ->
  snd (expr_eval e table anon at_pc 1 zone) = anon /\
  anon_labels (snd (eval a oe)) = anon_labels a.
Proof.
  intros Hpass. split; [apply expr_eval_pass1_tracker|].
  unfold eval, expr_eval_opt. rewrite Hpass.
  destruct oe as [e'|]; [|reflexivity].
  pose proof (expr_eval_pass1_tracker e' (Some (symbols a)) (Some (anon_labels a)) (pc a)
                (current_zone a)) as H.
  destruct (expr_eval e' _ _ _ 1 _) as [r o]. cbn [snd] in H. subst o. reflexivity.
Qed.

Lemma expr_eval_pass1_keeps_tracker_witness :
  let e := EXPR_BINARY BINARY_ADD (EXPR_SYMBOL "__anon_fwd_1") (EXPR_NUMBER 1) in
  let anon := anon_define_forward anon_create 4096 "t.asm" 1 in
  let a := set_anon_labels Programs.fresh anon in
  pass a = 1 /\
  snd (expr_eval e None (Some anon) 4096 1 None) = Some anon /\
  anon_labels (snd (eval a (Some e))) = anon_labels a.
Proof.
  cbv zeta. split; [reflexivity|].
  exact (expr_eval_pass1_keeps_tracker
           (EXPR_BINARY BINARY_ADD (EXPR_SYMBOL "__anon_fwd_1") (EXPR_NUMBER 1))
           None (Some (anon_define_forward anon_create 4096 "t.asm" 1)) 4096 None
           (set_anon_labels Programs.fresh (anon_define_forward anon_create 4096 "t.asm" 1))
           (Some (EXPR_BINARY BINARY_ADD (EXPR_SYMBOL "__anon_fwd_1") (EXPR_NUMBER 1)))
           eq_refl).
Defined.

(** ** The opcode table and the instruction records *)

Section OpcodeTable.

Import OpcodeQueries.

Lemma table_entries_ok : forallb entry_ok opcode_table = true.
Proof. vm_compute. reflexivity. Qed.

Lemma table_opcode_determines_mode : forallb opcode_determines_mode opcode_table = true.
Proof. vm_compute. reflexivity. Qed.

Lemma opcode_find_in_table mn md op :
  opcode_find mn md = Some op ->
  In op opcode_table /\ strcasecmp_local (mnemonic op) mn = 0 /\ mode op = md.
Proof.
  unfold opcode_find. intros H. apply find_some in H as [Hin Hm].
  unfold entry_matches in Hm. apply andb_true_iff in Hm as [Hn Hm].
  split; [exact Hin|]. split; [apply Z.eqb_eq; exact Hn|apply mode_eqb_eq; exact Hm].
Qed.

Lemma opcode_find_size mn md op :
  opcode_find mn md = Some op ->
  Opcodes.size op = opcode_mode_size md /\ 0 <= opcode op <= 255.
Proof.
  intros H. destruct (opcode_find_in_table mn md op H) as (Hin & _ & Hm).
  pose proof table_entries_ok as Ht. rewrite forallb_forall in Ht.
  specialize (Ht op Hin). unfold entry_ok in Ht.
  apply andb_true_iff in Ht as [Ht Hhi]. apply andb_true_iff in Ht as [Hs Hlo].
  rewrite Hm in Hs. split; [apply Z.eqb_eq; exact Hs|].
  split; [apply Z.leb_le; exact Hlo|apply Z.leb_le; exact Hhi].
Qed.

End OpcodeTable.

(** X10: what [opcode_find] returns is an entry of the table for the
    requested mode whose mnemonic equals the requested one up to case; its
    size is the size [mode_sizes] gives for the mode, its opcode is a byte,
    and [opcode_find_by_opcode] on that byte finds an entry of the same
    mode and size, so the opcode byte alone tells the length of the
    instruction. *)
Theorem opcode_find_entry_consistent (mn : string) (md : AddressingMode) (op : OpcodeEntry) :
  opcode_find mn md = Some op ->
  strcasecmp_local (mnemonic op) mn = 0 /\
  mode op = md /\
  Opcodes.size op = OpcodeQueries.opcode_mode_size md /\
  0 <= opcode op <= 255 /\
  exists e, OpcodeQueries.opcode_find_by_opcode (opcode op) = Some e /\
            opcode e = opcode op /\ mode e = md /\ Opcodes.size e = Opcodes.size op.
Proof.
  intros H. destruct (opcode_find_in_table mn md op H) as (Hin & Hn & Hm).
  destruct (opcode_find_size mn md op H) as (Hs & Hb).
  split; [exact Hn|]. split; [exact Hm|]. split; [exact Hs|]. split; [exact Hb|].
  pose proof table_opcode_determines_mode as Ht. rewrite forallb_forall in Ht.
  specialize (Ht op Hin). unfold OpcodeQueries.opcode_determines_mode in Ht.
  destruct (OpcodeQueries.opcode_find_by_opcode (opcode op)) as [e|] eqn:He; [|discriminate].
  exists e. split; [reflexivity|].
  apply mode_eqb_eq in Ht.
  unfold OpcodeQueries.opcode_find_by_opcode in He. apply find_some in He as [Hine Hop].
  apply Z.eqb_eq in Hop. rewrite to_uint8_id in Hop by lia.
  pose proof table_entries_ok as Hok. rewrite forallb_forall in Hok.
  specialize (Hok e Hine). unfold OpcodeQueries.entry_ok in Hok.
  apply andb_true_iff in Hok as [Hok _]. apply andb_true_iff in Hok as [Hse _].
  apply Z.eqb_eq in Hse.
  split; [exact Hop|]. split; [congruence|]. rewrite Hse, Ht, Hm, Hs. reflexivity.
Qed.

Lemma opcode_find_entry_consistent_witness :
  let op := mkOpcode "LDA" ADDR_ABSOLUTE 173 3 4 0 in
  opcode_find "lda" ADDR_ABSOLUTE = Some op /\
  strcasecmp_local (mnemonic op) "lda" = 0 /\
  mode op = ADDR_ABSOLUTE /\
  Opcodes.size op = OpcodeQueries.opcode_mode_size ADDR_ABSOLUTE /\
  0 <= opcode op <= 255 /\
  exists e, OpcodeQueries.opcode_find_by_opcode (opcode op) = Some e /\
            opcode e = opcode op /\ mode e = ADDR_ABSOLUTE /\
            Opcodes.size e = Opcodes.size op.
Proof.
  cbv zeta. split; [vm_compute; reflexivity|].
  apply (opcode_find_entry_consistent "lda" ADDR_ABSOLUTE). vm_compute. reflexivity.
Defined.

(** X11: the instruction record [parse_instruction] builds is taken from
    the opcode table: it keeps the mnemonic and the operand as written, its
    opcode, size and cycle count are those of the entry [opcode_find] gives
    for the mnemonic and the chosen mode, and its size is the size of that
    mode, between 1 and 3.  The only other outcome is a parse error. *)
Theorem parse_instruction_record
    (table : SymbolTable) (at_pc ps : Z) (mn : string) (o : OperandInfo) :
  match parse_instruction table at_pc ps mn o with
  | STMT_INSTRUCTION i =>
      imnemonic i = mn /\ operand i = expr o /\
      (exists op, opcode_find mn (imode i) = Some op /\
                  iopcode i = opcode op /\ isize i = Opcodes.size op /\
                  icycles i = cycles op /\ ipage_penalty i = page_penalty op) /\
      isize i = OpcodeQueries.opcode_mode_size (imode i) /\
      1 <= isize i <= 3
  | STMT_ERROR msg => msg = Some "invalid addressing mode for instruction"%string
  | _ => False
  end.
Proof.
  assert (Hrecord : forall md op,
            opcode_find mn md = Some op ->
            let i := instruction_of mn md (expr o) op in
            imnemonic i = mn /\ operand i = expr o /\
            (exists op', opcode_find mn (imode i) = Some op' /\
                         iopcode i = opcode op' /\ isize i = Opcodes.size op' /\
                         icycles i = cycles op' /\ ipage_penalty i = page_penalty op') /\
            isize i = OpcodeQueries.opcode_mode_size (imode i) /\
            1 <= isize i <= 3).
  { intros md op Hf. cbv zeta. unfold instruction_of. cbn.
    destruct (opcode_find_size mn md op Hf) as [Hs _].
    split; [reflexivity|]. split; [reflexivity|].
    split; [exists op; repeat split; exact Hf|]. split; [exact Hs|].
    rewrite Hs. destruct (opcode_find_in_table mn md op Hf) as (Hin & _ & Hm).
    destruct md; cbn; try lia.
    (* no entry of the table has the mode ADDR_INVALID *)
    exfalso. clear -Hin Hm.
    assert (Hnone : forallb (fun e => negb (mode_eqb (mode e) ADDR_INVALID)) opcode_table = true)
      by (vm_compute; reflexivity).
    rewrite forallb_forall in Hnone. specialize (Hnone op Hin). rewrite Hm in Hnone.
    discriminate. }
  unfold parse_instruction.
  destruct (match expr o with
            | Some ex => _
            | None => _
            end) as [v known].
  set (md := detect_addressing_mode _ _ _ _ _ _ _ _).
  destruct (opcode_find mn md) as [op|] eqn:Hf.
  - apply (Hrecord md op Hf).
  - destruct (negb known && (ps =? 1)); [|reflexivity].
    destruct (opcode_find mn ADDR_ABSOLUTE) as [op|] eqn:Hf2; [|reflexivity].
    apply (Hrecord ADDR_ABSOLUTE op Hf2).
Qed.

(** ** Emission: the image and the counters *)

Section EmissionRuns.

Lemma emit_byte_memory_at a byte k :
  memory_at (assembler_emit_byte a byte) k
  = if k =? output_addr a then to_uint8 byte else memory_at a k.
Proof.
  unfold memory_at. rewrite emit_byte_memory.
  destruct (Z.eqb_spec k (output_addr a)) as [->|Hne].
  - rewrite lookup_insert_eq. reflexivity.
  - rewrite lookup_insert_ne by congruence. reflexivity.
Qed.

Lemma emit_bytes_pc bs : forall a,
  0 <= pc a < 65536 ->
  pc (assembler_emit_bytes a bs) = to_uint16 (pc a + Z.of_nat (length bs)).
Proof.
  unfold assembler_emit_bytes.
  induction bs as [|b bs IH]; intros a Hpc; cbn [fold_left length].
  - rewrite Z.add_0_r, to_uint16_id by exact Hpc. reflexivity.
  - rewrite IH by (rewrite emit_byte_pc; apply to_uint16_range).
    rewrite emit_byte_pc. unfold to_uint16.
    rewrite Zplus_mod_idemp_l. f_equal. lia.
Qed.

Lemma emit_bytes_real_pc bs : forall a,
  0 <= real_pc a < 65536 ->
  real_pc (assembler_emit_bytes a bs) = to_uint16 (real_pc a + Z.of_nat (length bs)).
Proof.
  unfold assembler_emit_bytes.
  induction bs as [|b bs IH]; intros a Hpc; cbn [fold_left length].
  - rewrite Z.add_0_r, to_uint16_id by exact Hpc. reflexivity.
  - rewrite IH by (rewrite emit_byte_real_pc; apply to_uint16_range).
    rewrite emit_byte_real_pc. unfold to_uint16.
    rewrite Zplus_mod_idemp_l. f_equal. lia.
Qed.

(** A run that does not pass the top of the image: the cells outside the
    run keep their bytes, the cells of the run hold the bytes in order. *)
Lemma emit_bytes_memory bs : forall a,
  output_addr a + Z.of_nat (length bs) <= 65536 ->
  (forall k, ~ (output_addr a <= k < output_addr a + Z.of_nat (length bs)) ->
             memory_at (assembler_emit_bytes a bs) k = memory_at a k) /\
  (forall j, (j < length bs)%nat ->
             memory_at (assembler_emit_bytes a bs) (output_addr a + Z.of_nat j)
             = to_uint8 (nth j bs 0)).
Proof.
  unfold assembler_emit_bytes.
  induction bs as [|b bs IH]; intros a Hfit; cbn [fold_left length] in *.
  - split; [reflexivity|]. intros j Hj. lia.
  - pose proof (output_addr_range a) as Hout. unfold ASM_MEMORY_SIZE in Hout.
    assert (Hnext : bs <> [] -> output_addr (assembler_emit_byte a b) = output_addr a + 1).
    { intros Hne. rewrite output_addr_emit. apply Z.mod_small.
      destruct bs; [congruence|]. cbn [length] in Hfit. lia. }
    destruct bs as [|b' bs'] eqn:Hbs.
    + cbn [fold_left length]. split.
      * intros k Hk. rewrite emit_byte_memory_at.
        destruct (Z.eqb_spec k (output_addr a)); [lia|reflexivity].
      * intros j Hj. assert (j = 0%nat) by (simpl in Hj; lia). subst j.
        rewrite Z.add_0_r, emit_byte_memory_at, Z.eqb_refl. reflexivity.
    + rewrite <- Hbs in *. specialize (Hnext ltac:(congruence)).
      destruct (IH (assembler_emit_byte a b)) as [Hframe Hrun]; [rewrite Hnext; lia|].
      rewrite Hnext in Hframe, Hrun. split.
      * intros k Hk. rewrite Hframe by lia. rewrite emit_byte_memory_at.
        destruct (Z.eqb_spec k (output_addr a)); [lia|reflexivity].
      * intros [|j] Hj.
        -- rewrite Z.add_0_r, Hframe by lia.
           rewrite emit_byte_memory_at, Z.eqb_refl. reflexivity.
        -- cbn [nth]. rewrite <- (Hrun j) by lia. f_equal. lia.
Qed.

Lemma map_seq_nth (f : nat -> Z) (g : Z -> Z) bs :
  (forall j, (j < length bs)%nat -> f j = g (nth j bs 0)) ->
  map f (seq 0 (length bs)) = map g bs.
Proof.
  revert f. induction bs as [|b bs IH]; intros f Hf; [reflexivity|].
  cbn [length seq map]. rewrite (Hf 0%nat) by (simpl; lia). f_equal.
  rewrite <- seq_shift, map_map. apply IH.
  intros j Hj. rewrite (Hf (S j)) by (simpl; lia). reflexivity.
Qed.

End EmissionRuns.

(** X12: a run of emissions that does not pass the top of the 64 KiB
    stores its bytes, each reduced to eight bits, in order from the output
    address, changes no other cell of the image, and advances both
    counters by the length of the run. *)
Theorem emit_bytes_contiguous (a : Assembler) (bs : list Z) :
  0 <= pc a < 65536 ->
  0 <= real_pc a < 65536 ->
  output_addr a + Z.of_nat (length bs) <= 65536 ->
  let a' := assembler_emit_bytes a bs in
  image a' (output_addr a) (length bs) = map to_uint8 bs /\
  (forall k, ~ (output_addr a <= k < output_addr a + Z.of_nat (length bs)) ->
             memory_at a' k = memory_at a k) /\
  pc a' = to_uint16 (pc a + Z.of_nat (length bs)) /\
  real_pc a' = to_uint16 (real_pc a + Z.of_nat (length bs)).
Proof.
  intros Hpc Hreal Hfit. cbv zeta.
  destruct (emit_bytes_memory bs a Hfit) as [Hframe Hrun].
  split; [|split; [exact Hframe|split; [apply emit_bytes_pc|apply emit_bytes_real_pc]]];
    try assumption.
  unfold image. apply map_seq_nth. exact Hrun.
Qed.

Lemma emit_bytes_contiguous_witness :
  let a := set_pc Programs.fresh 65533 in
  let bs := [169; 511; 96] in
  (0 <= pc a < 65536 /\ 0 <= real_pc a < 65536 /\
   output_addr a + Z.of_nat (length bs) <= 65536) /\
  image (assembler_emit_bytes a bs) (output_addr a) (length bs) = map to_uint8 bs /\
  (forall k, ~ (output_addr a <= k < output_addr a + Z.of_nat (length bs)) ->
             memory_at (assembler_emit_bytes a bs) k = memory_at a k) /\
  pc (assembler_emit_bytes a bs) = to_uint16 (pc a + Z.of_nat (length bs)) /\
  real_pc (assembler_emit_bytes a bs) = to_uint16 (real_pc a + Z.of_nat (length bs)).
Proof.
  cbv zeta. split; [vm_compute; repeat split; first [discriminate|reflexivity]|].
  apply (emit_bytes_contiguous (set_pc Programs.fresh 65533) [169; 511; 96]);
    vm_compute; repeat split; first [discriminate|reflexivity].
Defined.

(** ** Sizes agree between the passes *)

Section SizesAcrossPasses.

Import OpcodeQueries.

Lemma to_uint16_add_l x y : to_uint16 (to_uint16 x + y) = to_uint16 (x + y).
Proof. unfold to_uint16. apply Zplus_mod_idemp_l. Qed.

Lemma emit_word_pc a w : pc (assembler_emit_word a w) = to_uint16 (pc a + 2).
Proof.
  unfold assembler_emit_word. rewrite !emit_byte_pc, to_uint16_add_l. f_equal. lia.
Qed.

Lemma emit_word_real_pc a w : real_pc (assembler_emit_word a w) = to_uint16 (real_pc a + 2).
Proof.
  unfold assembler_emit_word. rewrite !emit_byte_real_pc, to_uint16_add_l. f_equal. lia.
Qed.

(** The opcode byte and an operand of [sz - 1] bytes. *)
Lemma emit_instruction_pc a opc sz v :
  1 <= sz <= 3 ->
  pc (emit_operand (assembler_emit_byte a opc) sz v) = to_uint16 (pc a + sz) /\
  real_pc (emit_operand (assembler_emit_byte a opc) sz v) = to_uint16 (real_pc a + sz).
Proof.
  intros Hsz. unfold emit_operand.
  assert (Hcases : sz = 1 \/ sz = 2 \/ sz = 3) by lia.
  destruct Hcases as [-> | [-> | ->]]; cbn [Z.eqb Pos.eqb].
  - rewrite emit_byte_pc, emit_byte_real_pc. split; reflexivity.
  - rewrite !emit_byte_pc, !emit_byte_real_pc, !to_uint16_add_l. split; f_equal; lia.
  - rewrite emit_word_pc, emit_word_real_pc, emit_byte_pc, emit_byte_real_pc,
      !to_uint16_add_l. split; f_equal; lia.
Qed.

Lemma reselect_mode_size info v : isize (reselect_mode info v) = isize info.
Proof.
  destruct (reselect_mode_cases info v) as [->|(zp & op & _ & _ & _ & ->)]; reflexivity.
Qed.

End SizesAcrossPasses.

(** X13: an instruction takes the same room in both passes.  For a record
    whose size is the size of its mode, as [parse_instruction] builds it,
    a call of [assembler_assemble_instruction] that returns 0 leaves both
    counters advanced by exactly that size, whether the bytes are only
    counted (pass 1) or emitted (pass 2), and hands back a record of the
    same size. *)
Theorem instruction_size_both_passes (a : Assembler) (info : InstructionInfo) :
  isize info = OpcodeQueries.opcode_mode_size (imode info) ->
  1 <= isize info ->
  fst (fst (assembler_assemble_instruction a info)) = 0 ->
  let a' := snd (fst (assembler_assemble_instruction a info)) in
  let info' := snd (assembler_assemble_instruction a info) in
  pc a' = to_uint16 (pc a + isize info) /\
  real_pc a' = to_uint16 (real_pc a + isize info) /\
  isize info' = isize info.
Proof.
  intros Hsize Hpos. cbv zeta. unfold assembler_assemble_instruction.
  set (t := match operand info with
            | Some e => let (r, a1) := eval a (Some e) in (Expr.value r, defined r, a1)
            | None => (0, true, a)
            end).
  assert (Ht : pass (snd t) = pass a /\ pc (snd t) = pc a /\ real_pc (snd t) = real_pc a).
  { unfold t. destruct (operand info) as [e|]; [|repeat split].
    pose proof (eval_unchanged a (Some e)) as (Hp & Hpc & Hr & _).
    destruct (eval a (Some e)) as [r a1]. repeat split; assumption. }
  destruct t as [[ov vd] a1]. cbn [snd] in Ht. destruct Ht as (Hp & Hpc & Hreal).
  rewrite Hp.
  assert (Hemit : forall i, isize i = isize info ->
            pc (emit_operand (assembler_emit_byte a1 (iopcode i)) (isize i) ov)
            = to_uint16 (pc a + isize info) /\
            real_pc (emit_operand (assembler_emit_byte a1 (iopcode i)) (isize i) ov)
            = to_uint16 (real_pc a + isize info)).
  { intros i Hi. rewrite Hi, <- Hpc, <- Hreal. apply emit_instruction_pc.
    split; [exact Hpos|]. rewrite Hsize. destruct (imode info); cbn; lia. }
  pose proof (reselect_mode_size info ov) as Hre.
  destruct (imode info) eqn:Hmode; cbn in Hsize.
  1-2: destruct (pass a =? 2); cbn [fst snd]; intros _;
    rewrite ?emit_byte_pc, ?emit_byte_real_pc, Hsize; repeat split; reflexivity.
  all: destruct (found_operand (operand info) && (pass a =? 2) && negb vd);
    [cbn [fst snd]; intros Hbad; discriminate Hbad|].
  all: destruct (pass a =? 2) eqn:Hp2; cbn [andb fst snd].
  all: try (destruct (_ =? INT_MIN); cbn [fst snd];
            [intros Hbad; discriminate Hbad|intros _];
            rewrite !emit_byte_pc, !emit_byte_real_pc, !to_uint16_add_l, Hpc, Hreal, Hsize;
            repeat split; f_equal; lia).
  all: intros _.
  all: try (unfold assembler_advance_pc; cbn [pc real_pc set_pc set_real_pc];
            rewrite ?Hpc, ?Hreal, ?Hsize; repeat split; reflexivity).
  all: destruct vd;
    [destruct (Hemit (reselect_mode info ov) Hre) as [H1 H2]
    |destruct (Hemit info eq_refl) as [H1 H2]];
    rewrite H1, H2; repeat split; try reflexivity; exact Hre.
Qed.

Lemma instruction_size_both_passes_witness :
  let info := mkInstruction "sta" ADDR_ABSOLUTE_X (Some (EXPR_NUMBER 1024)) 157 3 5 0 in
  let a := set_pass (set_pc Programs.fresh 65534) 2 in
  (isize info = OpcodeQueries.opcode_mode_size (imode info) /\ 1 <= isize info /\
   fst (fst (assembler_assemble_instruction a info)) = 0) /\
  pc (snd (fst (assembler_assemble_instruction a info))) = to_uint16 (pc a + isize info) /\
  real_pc (snd (fst (assembler_assemble_instruction a info)))
  = to_uint16 (real_pc a + isize info) /\
  isize (snd (assembler_assemble_instruction a info)) = isize info.
Proof.
  cbv zeta.
  split; [split; [reflexivity|split; [vm_compute; discriminate|vm_compute; reflexivity]]|].
  apply (instruction_size_both_passes
           (set_pass (set_pc Programs.fresh 65534) 2)
           (mkInstruction "sta" ADDR_ABSOLUTE_X (Some (EXPR_NUMBER 1024)) 157 3 5 0));
    [reflexivity|vm_compute; discriminate|vm_compute; reflexivity].
Defined.

(** ** Data directives: the room they take *)

Section DirectiveSizes.

Lemma warning_keeps_pc a msg :
  pc (assembler_warning a msg) = pc a /\ real_pc (assembler_warning a msg) = real_pc a /\
  pass (assembler_warning a msg) = pass a.
Proof. unfold assembler_warning. destruct (_ <=? _); repeat split. Qed.

Lemma eval_keeps_pc a e :
  pc (snd (eval a e)) = pc a /\ real_pc (snd (eval a e)) = real_pc a /\
  pass (snd (eval a e)) = pass a.
Proof.
  pose proof (eval_unchanged a e) as (Hp & Hpc & Hr & _). repeat split; assumption.
Qed.

Lemma emit_repeat_pc a n b :
  0 <= pc a < 65536 -> 0 <= n ->
  pc (emit_repeat a n b) = to_uint16 (pc a + n).
Proof.
  intros Hpc Hn. unfold emit_repeat. rewrite emit_bytes_pc by exact Hpc.
  rewrite repeat_length, Z2Nat.id by exact Hn. reflexivity.
Qed.

End DirectiveSizes.

(** X14: the string directives take the same room in both passes: with a
    string argument, [!text], [!pet] and [!scr] return 0 and leave the PC
    advanced by the length of the string, [!null] by one more, whether
    the pass counts the bytes or emits them. *)
Theorem string_directive_sizes (a : Assembler) (dir : DirectiveInfo) (s : string) :
  0 <= pc a < 65536 ->
  string_arg dir = Some s ->
  (fst (assemble_text_directive a dir) = 0 /\
   pc (snd (assemble_text_directive a dir)) = to_uint16 (pc a + strlen s)) /\
  (fst (assemble_pet_directive a dir) = 0 /\
   pc (snd (assemble_pet_directive a dir)) = to_uint16 (pc a + strlen s)) /\
  (fst (assemble_scr_directive a dir) = 0 /\
   pc (snd (assemble_scr_directive a dir)) = to_uint16 (pc a + strlen s)) /\
  (fst (assemble_null_directive a dir) = 0 /\
   pc (snd (assemble_null_directive a dir)) = to_uint16 (pc a + (strlen s + 1))).
Proof.
  intros Hpc Hs.
  unfold assemble_text_directive, assemble_pet_directive, assemble_scr_directive,
    assemble_null_directive. rewrite Hs.
  destruct (pass a =? 2); cbn [fst snd];
    rewrite ?emit_byte_pc, ?emit_bytes_pc, ?length_map by exact Hpc;
    fold (strlen s); rewrite ?to_uint16_add_l;
    repeat split; try reflexivity; f_equal; lia.
Qed.

Lemma string_directive_sizes_witness :
  let a := set_pass (set_pc Programs.fresh 4096) 2 in
  let dir := mkDirective "text" [] (Some "HELLO"%string) in
  (0 <= pc a < 65536 /\ string_arg dir = Some "HELLO"%string) /\
  (fst (assemble_text_directive a dir) = 0 /\
   pc (snd (assemble_text_directive a dir)) = to_uint16 (pc a + strlen "HELLO")) /\
  (fst (assemble_pet_directive a dir) = 0 /\
   pc (snd (assemble_pet_directive a dir)) = to_uint16 (pc a + strlen "HELLO")) /\
  (fst (assemble_scr_directive a dir) = 0 /\
   pc (snd (assemble_scr_directive a dir)) = to_uint16 (pc a + strlen "HELLO")) /\
  (fst (assemble_null_directive a dir) = 0 /\
   pc (snd (assemble_null_directive a dir)) = to_uint16 (pc a + (strlen "HELLO" + 1))).
Proof.
  cbv zeta. split; [split; [vm_compute; split; [discriminate|reflexivity]|reflexivity]|].
  apply (string_directive_sizes (set_pass (set_pc Programs.fresh 4096) 2)
           (mkDirective "text" [] (Some "HELLO"%string)) "HELLO");
    [vm_compute; split; [discriminate|reflexivity]|reflexivity].
Defined.

(** X15: [!fill] and [!skip] take the room their count says in both
    passes: a call that returns 0 had a first argument with a value from 0
    to 65536 and leaves the PC advanced by it. *)
Theorem fill_skip_sizes (a : Assembler) (dir : DirectiveInfo) (e0 : Expr) (rest : list Expr) :
  0 <= pc a < 65536 ->
  args dir = e0 :: rest ->
  let cnt := Expr.value (fst (eval a (Some e0))) in
  (fst (assemble_fill_directive a dir) = 0 ->
   0 <= cnt <= 65536 /\ pc (snd (assemble_fill_directive a dir)) = to_uint16 (pc a + cnt)) /\
  (fst (assemble_skip_directive a dir) = 0 ->
   0 <= cnt <= 65536 /\ pc (snd (assemble_skip_directive a dir)) = to_uint16 (pc a + cnt)).
Proof.
  intros Hpc Hargs. cbv zeta.
  unfold assemble_fill_directive, assemble_skip_directive. rewrite Hargs.
  destruct (eval_keeps_pc a (Some e0)) as (Hpc1 & _ & _).
  destruct (eval a (Some e0)) as [r a1]. cbn [fst snd] in *.
  destruct (negb (defined r)); [split; cbn [fst]; intros Hbad; discriminate Hbad|].
  destruct (Z.ltb_spec (Expr.value r) 0) as [Hneg|Hnn]; cbn [orb];
    [split; cbn [fst]; intros Hbad; discriminate Hbad|].
  destruct (Z.ltb_spec 65536 (Expr.value r)) as [Hbig|Hfit];
    [split; cbn [fst]; intros Hbad; discriminate Hbad|].
  split.
  - set (t := match rest with
              | e1 :: _ => _
              | [] => _
              end).
    assert (Ht : pc (snd t) = pc a).
    { unfold t. destruct rest as [|e1 rest']; [exact Hpc1|].
      destruct (eval_keeps_pc a1 (Some e1)) as (Hpc2 & _ & _).
      destruct (eval a1 (Some e1)) as [r2 a2]. cbn [snd] in *. congruence. }
    destruct t as [[bad fill_value] a2]. cbn [snd] in Ht.
    destruct bad; [cbn [fst]; intros Hbad; discriminate Hbad|].
    destruct (pass a2 =? 2); cbn [fst snd]; intros _; (split; [lia|]).
    + rewrite emit_repeat_pc by lia. rewrite Ht. reflexivity.
    + unfold assembler_advance_pc. cbn [pc set_pc set_real_pc]. rewrite Ht. reflexivity.
  - cbn [fst snd]. intros _. split; [lia|].
    unfold assembler_advance_pc. cbn [pc set_pc set_real_pc]. rewrite Hpc1. reflexivity.
Qed.

Lemma fill_skip_sizes_witness :
  let a := set_pass (set_pc Programs.fresh 4096) 2 in
  let dir := mkDirective "fill" [EXPR_NUMBER 16; EXPR_NUMBER 234] None in
  (0 <= pc a < 65536 /\ args dir = [EXPR_NUMBER 16; EXPR_NUMBER 234] /\
   fst (assemble_fill_directive a dir) = 0 /\ fst (assemble_skip_directive a dir) = 0) /\
  pc (snd (assemble_fill_directive a dir)) = 4112 /\
  pc (snd (assemble_skip_directive a dir)) = 4112.
Proof.
  cbv zeta.
  pose proof (fill_skip_sizes (set_pass (set_pc Programs.fresh 4096) 2)
                (mkDirective "fill" [EXPR_NUMBER 16; EXPR_NUMBER 234] None)
                (EXPR_NUMBER 16) [EXPR_NUMBER 234]) as H.
  cbv zeta in H.
  destruct H as [Hfill Hskip]; [vm_compute; split; [discriminate|reflexivity]|reflexivity|].
  split; [repeat split; try reflexivity; vm_compute; first [discriminate|reflexivity]|].
  split; [exact (proj2 (Hfill eq_refl))|exact (proj2 (Hskip eq_refl))].
Defined.

(** X16: [!align] moves the PC to the next multiple of its argument.  When
    the call returns 0 and the boundary lies inside the 64 KiB, the PC
    afterwards is a multiple of the alignment, not below the PC before and
    less than one alignment above it, in both passes. *)
Theorem align_reaches_boundary
    (a : Assembler) (dir : DirectiveInfo) (e0 : Expr) (rest : list Expr) :
  0 <= pc a < 65536 ->
  args dir = e0 :: rest ->
  let alignment := Expr.value (fst (eval a (Some e0))) in
  pc a + alignment <= 65536 ->
  fst (assemble_align_directive a dir) = 0 ->
  let a' := snd (assemble_align_directive a dir) in
  0 < alignment /\
  (pc a') mod alignment = 0 /\
  pc a <= pc a' < pc a + alignment.
Proof.
  intros Hpc Hargs. cbv zeta.
  unfold assemble_align_directive. rewrite Hargs.
  destruct (eval_keeps_pc a (Some e0)) as (Hpc1 & _ & _).
  destruct (eval a (Some e0)) as [r a1]. cbn [fst snd] in *.
  intros Hfit.
  destruct (negb (defined r)); [cbn [fst]; intros Hbad; discriminate Hbad|].
  destruct (Z.leb_spec (Expr.value r) 0) as [Hneg|Hposv]; cbn [orb];
    [cbn [fst]; intros Hbad; discriminate Hbad|].
  destruct (Z.ltb_spec 65536 (Expr.value r)) as [Hbig|Hsmall];
    [cbn [fst]; intros Hbad; discriminate Hbad|].
  set (a2 := if negb (Z.land (Expr.value r) (Expr.value r - 1) =? 0)
             then assembler_warning a1 "!align value %d is not a power of 2" else a1).
  assert (Hpc2 : pc a2 = pc a).
  { unfold a2. destruct (negb _); [|exact Hpc1].
    destruct (warning_keeps_pc a1 "!align value %d is not a power of 2") as (H & _).
    congruence. }
  rewrite Hpc2.
  set (t := match rest with
            | e1 :: _ => _
            | [] => _
            end).
  assert (Ht : pc (snd t) = pc a).
  { unfold t. destruct rest as [|e1 rest']; [exact Hpc2|].
    destruct (eval_keeps_pc a2 (Some e1)) as (Hpc3 & _ & _).
    destruct (eval a2 (Some e1)) as [r3 a3]. cbn [snd] in *. congruence. }
  destruct t as [[bad fill_value] a3]. cbn [snd] in Ht.
  destruct bad; [cbn [fst]; intros Hbad; discriminate Hbad|].
  rewrite Z.rem_mod_nonneg by lia.
  pose proof (Z.mod_pos_bound (pc a) (Expr.value r) Hposv) as Hrem.
  pose proof (Z.div_mod (pc a) (Expr.value r) ltac:(lia)) as Hdm.
  set (m := pc a mod Expr.value r) in *.
  set (padding := if m =? 0 then 0 else Expr.value r - m).
  assert (Hpad : 0 <= padding < Expr.value r /\ (pc a + padding) mod Expr.value r = 0).
  { unfold padding. destruct (Z.eqb_spec m 0) as [Hz|Hnz].
    - split; [lia|]. rewrite Z.add_0_r. exact Hz.
    - split; [lia|].
      replace (pc a + (Expr.value r - m))
        with ((pc a / Expr.value r + 1) * Expr.value r) by lia.
      apply Z_mod_mult. }
  destruct Hpad as [Hrange Hmult].
  assert (Hnew : to_uint16 (pc a + padding) = pc a + padding)
    by (apply to_uint16_id; lia).
  destruct (pass a3 =? 2); cbn [fst snd]; intros _; (split; [exact Hposv|]).
  - rewrite emit_repeat_pc by lia. rewrite Ht, Hnew. split; [exact Hmult|lia].
  - unfold assembler_advance_pc. cbn [pc set_pc set_real_pc]. rewrite Ht, Hnew.
    split; [exact Hmult|lia].
Qed.

Lemma align_reaches_boundary_witness :
  let a := set_pc Programs.fresh 4099 in
  let dir := mkDirective "align" [EXPR_NUMBER 256] None in
  (0 <= pc a < 65536 /\ args dir = [EXPR_NUMBER 256] /\
   pc a + Expr.value (fst (eval a (Some (EXPR_NUMBER 256)))) <= 65536 /\
   fst (assemble_align_directive a dir) = 0) /\
  0 < Expr.value (fst (eval a (Some (EXPR_NUMBER 256)))) /\
  pc (snd (assemble_align_directive a dir))
    mod Expr.value (fst (eval a (Some (EXPR_NUMBER 256)))) = 0 /\
  pc a <= pc (snd (assemble_align_directive a dir))
       < pc a + Expr.value (fst (eval a (Some (EXPR_NUMBER 256)))).
Proof.
  cbv zeta.
  split; [repeat split; try reflexivity; vm_compute; first [discriminate|reflexivity]|].
  apply (align_reaches_boundary (set_pc Programs.fresh 4099)
           (mkDirective "align" [EXPR_NUMBER 256] None) (EXPR_NUMBER 256) []);
    try reflexivity; vm_compute; first [discriminate|split; [discriminate|reflexivity]].
Defined.

(** ** Diagnostics, the symbol store under statements, [!pseudopc], [!if] *)

Section StateFacts.

Lemma emit_bytes_in_pseudopc bs : forall a,
  in_pseudopc (assembler_emit_bytes a bs) = in_pseudopc a.
Proof.
  unfold assembler_emit_bytes.
  induction bs as [|b bs IH]; intros a; cbn [fold_left]; [reflexivity|].
  rewrite IH. apply emit_byte_in_pseudopc.
Qed.

End StateFacts.

(** X17: the error counter saturates.  From a state whose count is within
    the cap, any run of [assembler_error] calls leaves the count at the
    smaller of the cap and the count plus the number of calls; one
    diagnostic is issued for each counted error and none after the cap;
    the image, the PC and the symbols are not touched. *)
Theorem error_count_saturates (a : Assembler) (msgs : list string) :
  errors a <= max_errors a ->
  let a' := fold_left assembler_error msgs a in
  errors a' = Z.min (max_errors a) (errors a + Z.of_nat (length msgs)) /\
  max_errors a' = max_errors a /\
  Z.of_nat (length (diagnostics a')) = Z.of_nat (length (diagnostics a)) + (errors a' - errors a) /\
  memory a' = memory a /\ pc a' = pc a /\ symbols a' = symbols a.
Proof.
  revert a. induction msgs as [|m msgs IH]; intros a Hle; cbn [fold_left length].
  - cbv zeta. repeat split; lia.
  - cbv zeta in IH |- *.
    assert (Hstep : errors (assembler_error a m) = Z.min (max_errors a) (errors a + 1) /\
                    max_errors (assembler_error a m) = max_errors a /\
                    Z.of_nat (length (diagnostics (assembler_error a m)))
                    = Z.of_nat (length (diagnostics a))
                      + (errors (assembler_error a m) - errors a) /\
                    memory (assembler_error a m) = memory a /\
                    pc (assembler_error a m) = pc a /\
                    symbols (assembler_error a m) = symbols a).
    { unfold assembler_error, report.
      destruct (Z.leb_spec (max_errors a) (errors a)) as [Hcap|Hroom]; simpl.
      - repeat split; lia.
      - rewrite length_app. simpl. repeat split; lia. }
    destruct Hstep as (He & Hm & Hd & Hmem & Hpc & Hsym).
    destruct (IH (assembler_error a m)) as (He' & Hm' & Hd' & Hmem' & Hpc' & Hsym');
      [lia|].
    rewrite He', Hm', Hmem', Hpc', Hsym'.
    repeat split; try assumption; lia.
Qed.

Lemma error_count_saturates_witness :
  let a := assembler_create 2049 2 5 in
  let msgs := ["first"; "second"; "third"]%string in
  errors a <= max_errors a /\
  errors (fold_left assembler_error msgs a) = 2 /\
  length (diagnostics (fold_left assembler_error msgs a)) = 2%nat.
Proof.
  cbv zeta. split; [vm_compute; discriminate|].
  pose proof (error_count_saturates (assembler_create 2049 2 5)
                ["first"; "second"; "third"]%string) as H.
  cbv zeta in H. destruct H as (He & _); [vm_compute; discriminate|].
  split; [rewrite He; reflexivity|reflexivity].
Defined.

(** X18: instructions and directives never define a symbol: after
    [assembler_assemble_instruction] and after
    [assembler_assemble_directive], for every directive name, the symbol
    store and the pass number are those before the call.  Symbols change
    only through labels and assignments. *)
Theorem instructions_and_directives_keep_symbols
    (a : Assembler) (info : InstructionInfo) (dir : DirectiveInfo) :
  symbols (snd (fst (assembler_assemble_instruction a info))) = symbols a /\
  pass (snd (fst (assembler_assemble_instruction a info))) = pass a /\
  symbols (snd (assembler_assemble_directive a dir)) = symbols a /\
  pass (snd (assembler_assemble_directive a dir)) = pass a.
Proof.
  destruct (frame_instruction a info) as [Hp Hs].
  destruct (frame_directive a dir) as [Hp' Hs'].
  repeat split; assumption.
Qed.

(** X19: code inside [!pseudopc] is stored where the real PC stands.  From
    a state outside a pseudo-PC block, after [assembler_pseudopc_start],
    a run of emissions and [assembler_pseudopc_end]: both calls return 0,
    the PC counts from the pseudo address inside the block, the bytes lie
    in the image from the PC before the block, and the PC after the block
    is the PC before it advanced by the length of the run. *)
Theorem pseudopc_round_trip (a : Assembler) (addr : Z) (bs : list Z) :
  in_pseudopc a = false ->
  0 <= pc a < 65536 ->
  pc a + Z.of_nat (length bs) <= 65536 ->
  let a1 := snd (assembler_pseudopc_start a addr) in
  let a2 := assembler_emit_bytes a1 bs in
  let a3 := snd (assembler_pseudopc_end a2) in
  fst (assembler_pseudopc_start a addr) = 0 /\
  in_pseudopc a1 = true /\ pc a1 = to_uint16 addr /\
  pc a2 = to_uint16 (addr + Z.of_nat (length bs)) /\
  image a2 (pc a) (length bs) = map to_uint8 bs /\
  fst (assembler_pseudopc_end a2) = 0 /\
  in_pseudopc a3 = false /\
  pc a3 = to_uint16 (pc a + Z.of_nat (length bs)).
Proof.
  intros Hout Hpc Hfit. cbv zeta.
  unfold assembler_pseudopc_start. rewrite Hout. cbn [fst snd].
  set (a1 := set_pc (set_in_pseudopc (set_real_pc a (pc a)) true) (to_uint16 addr)).
  assert (Hin1 : in_pseudopc a1 = true) by reflexivity.
  assert (Hreal1 : real_pc a1 = pc a) by reflexivity.
  assert (Hpc1 : pc a1 = to_uint16 addr) by reflexivity.
  assert (Hoa : output_addr a1 = pc a).
  { unfold output_addr. rewrite Hin1, Hreal1. apply to_uint16_id. exact Hpc. }
  assert (Himg : image (assembler_emit_bytes a1 bs) (pc a) (length bs) = map to_uint8 bs).
  { destruct (emit_bytes_memory bs a1) as [_ Hrun]; [rewrite Hoa; exact Hfit|].
    rewrite Hoa in Hrun. unfold image. apply map_seq_nth. exact Hrun. }
  assert (Hpc2 : pc (assembler_emit_bytes a1 bs) = to_uint16 (addr + Z.of_nat (length bs))).
  { rewrite emit_bytes_pc by (rewrite Hpc1; apply to_uint16_range).
    rewrite Hpc1. apply to_uint16_add_l. }
  assert (Hreal2 : real_pc (assembler_emit_bytes a1 bs)
                   = to_uint16 (pc a + Z.of_nat (length bs))).
  { rewrite emit_bytes_real_pc by (rewrite Hreal1; exact Hpc). rewrite Hreal1. reflexivity. }
  assert (Hin2 : in_pseudopc (assembler_emit_bytes a1 bs) = true).
  { rewrite emit_bytes_in_pseudopc. exact Hin1. }
  unfold assembler_pseudopc_end. rewrite Hin2. cbn [negb fst snd].
  split; [reflexivity|]. split; [reflexivity|]. split; [reflexivity|].
  split; [exact Hpc2|]. split; [exact Himg|]. split; [reflexivity|].
  split; [reflexivity|]. cbn [pc set_in_pseudopc set_pc]. exact Hreal2.
Qed.

Lemma pseudopc_round_trip_witness :
  let a := set_pc Programs.fresh 2049 in
  let bs := [120; 76; 0; 192] in
  (in_pseudopc a = false /\ 0 <= pc a < 65536 /\ pc a + Z.of_nat (length bs) <= 65536) /\
  let a2 := assembler_emit_bytes (snd (assembler_pseudopc_start a 49152)) bs in
  pc a2 = to_uint16 (49152 + Z.of_nat (length bs)) /\
  image a2 (pc a) (length bs) = map to_uint8 bs /\
  pc (snd (assembler_pseudopc_end a2)) = to_uint16 (pc a + Z.of_nat (length bs)).
Proof.
  cbv zeta.
  split; [repeat split; try reflexivity; vm_compute; first [discriminate|reflexivity]|].
  pose proof (pseudopc_round_trip (set_pc Programs.fresh 2049) 49152 [120; 76; 0; 192]) as H.
  cbv zeta in H.
  destruct H as (_ & _ & _ & H2 & Himg & _ & _ & H3);
    [reflexivity|vm_compute; split; [discriminate|reflexivity]|vm_compute; discriminate|].
  split; [exact H2|]. split; [exact Himg|exact H3].
Defined.

(** X20: of the two branches of an [!if] at most one is assembled, and
    none inside a skipped block.  Below the nesting limit, [!if] makes the
    code active exactly when the surrounding code is active and the
    condition is not 0; [!else] makes it active exactly when the
    surrounding code is active and the condition is 0; a second [!else] is
    refused; [!endif] gives back the stack as it was before the [!if]. *)
Theorem cond_if_else_endif (a : Assembler) (max_depth condition : Z) :
  Z.of_nat (length (cond_stack a)) < max_depth ->
  let a1 := snd (assembler_cond_if a max_depth condition) in
  let a2 := snd (assembler_cond_else a1) in
  let a3 := snd (assembler_cond_endif a2) in
  fst (assembler_cond_if a max_depth condition) = 0 /\
  assembler_is_active a1 = assembler_is_active a && negb (condition =? 0) /\
  fst (assembler_cond_else a1) = 0 /\
  assembler_is_active a2 = assembler_is_active a && (condition =? 0) /\
  fst (assembler_cond_else a2) = -1 /\
  fst (assembler_cond_endif a2) = 0 /\
  cond_stack a3 = cond_stack a.
Proof.
  intros Hdepth. cbv zeta. unfold assembler_cond_if.
  destruct (Z.leb_spec max_depth (Z.of_nat (length (cond_stack a)))) as [Hdeep|_]; [lia|].
  cbn [fst snd]. unfold assembler_cond_else at 1 2 3. cbn.
  unfold assembler_cond_else, assembler_cond_endif, assembler_is_active. cbn.
  destruct (match cond_stack a with [] => true | entry :: _ => active entry end);
    destruct (condition =? 0); cbn; repeat split; reflexivity.
Qed.

Lemma cond_if_else_endif_witness :
  let a := Programs.fresh in
  Z.of_nat (length (cond_stack a)) < 32 /\
  assembler_is_active (snd (assembler_cond_if a 32 0)) = false /\
  assembler_is_active (snd (assembler_cond_else (snd (assembler_cond_if a 32 0)))) = true /\
  cond_stack (snd (assembler_cond_endif
                     (snd (assembler_cond_else (snd (assembler_cond_if a 32 0))))))
  = cond_stack a.
Proof.
  cbv zeta. split; [vm_compute; reflexivity|].
  pose proof (cond_if_else_endif Programs.fresh 32 0) as H. cbv zeta in H.
  destruct H as (_ & H1 & _ & H2 & _ & _ & H3); [vm_compute; reflexivity|].
  split; [exact H1|]. split; [exact H2|exact H3].
Defined.

(** ** Pass 2 and the line records; labels *)

Section LineRecords.

(** What identifies a line record: its address, its zone, and the line
    number and label of its statement. *)
Lemma statement_kept a st :
  let st' := snd (assembler_assemble_statement a st) in
  sline st' = sline st /\ label st' = label st.
Proof.
  cbv zeta. unfold assembler_assemble_statement.
  destruct (body st) as [| |info|dir|assign|call|msg]; cbn [snd]; try (split; reflexivity).
  - destruct (assembler_assemble_instruction _ info) as [[r a2] info']. split; reflexivity.
  - destruct (assembler_assemble_directive _ dir) as [r a2]. split; reflexivity.
  - destruct (assemble_assignment _ assign) as [r a2]. split; reflexivity.
Qed.

Lemma pass2_line_record a l :
  let l' := snd (pass2_line a l) in
  laddress l' = laddress l /\ zone l' = zone l /\
  sline (stmt l') = sline (stmt l) /\ label (stmt l') = label (stmt l).
Proof.
  cbv zeta. unfold pass2_line, pass2_assemble.
  pose proof (statement_kept (pass2_redefine (pass2_restore_pc a l) l) (stmt l)) as Hst.
  cbv zeta in Hst.
  destruct (assembler_assemble_statement _ (stmt l)) as [[r a3] st']. cbn [snd] in Hst.
  destruct (_ && _); [|destruct (_ <? _)]; destruct (body st');
    cbn [snd laddress zone stmt]; repeat split; apply Hst.
Qed.

Lemma pass2_loop_records ls : forall a,
  Forall2 (fun l' l => laddress l' = laddress l /\ zone l' = zone l /\
                       sline (stmt l') = sline (stmt l) /\ label (stmt l') = label (stmt l))
          (snd (pass2_loop a ls)) ls.
Proof.
  induction ls as [|l ls IH]; intros a; cbn [pass2_loop]; [constructor|].
  pose proof (pass2_line_record a l) as Hl. cbv zeta in Hl.
  destruct (pass2_line a l) as [a1 l']. cbn [snd] in Hl.
  destruct (max_errors a1 <=? errors a1).
  - constructor; [exact Hl|]. clear. induction ls; constructor; auto.
  - specialize (IH a1). destruct (pass2_loop a1 ls) as [a2 done]. constructor; assumption.
Qed.

End LineRecords.

(** X21: pass 2 never moves a line.  The line records after
    [assembler_pass2] are those of pass 1, one for one and in the same
    order, each with the address and the zone pass 1 stored and with the
    line number and the label of its statement, also when pass 2 stops
    early at the error cap. *)
Theorem pass2_keeps_line_records (a : Assembler) :
  Forall2 (fun l' l => laddress l' = laddress l /\ zone l' = zone l /\
                       sline (stmt l') = sline (stmt l) /\ label (stmt l') = label (stmt l))
          (lines (assembler_pass2 a)) (lines a) /\
  length (lines (assembler_pass2 a)) = length (lines a).
Proof.
  assert (H : Forall2 (fun l' l => laddress l' = laddress l /\ zone l' = zone l /\
                         sline (stmt l') = sline (stmt l) /\ label (stmt l') = label (stmt l))
                      (lines (assembler_pass2 a)) (lines a)).
  { unfold assembler_pass2.
    pose proof (pass2_loop_records (lines (pass2_init a)) (pass2_init a)) as H.
    destruct (pass2_loop (pass2_init a) (lines (pass2_init a))) as [a3 ls]. exact H. }
  split; [exact H|]. eapply Forall2_length. exact H.
Qed.

Section Labels.

Lemma dot_name_not_anonymous nm :
  starts_with_dot nm = true ->
  String.prefix "__anon_fwd_" nm = false /\ String.prefix "__anon_back_" nm = false.
Proof.
  destruct nm as [|c nm]; [discriminate|]. cbn [starts_with_dot].
  intros Hc. apply Ascii.eqb_eq in Hc. subst c. split; reflexivity.
Qed.

Lemma mangled_names_agree nm z :
  starts_with_dot nm = true ->
  z <> Some EmptyString ->
  mangle_local_name nm z
  = match z with
    | Some zn => (zn ++ "." ++ string_drop 1 nm)%string
    | None => ("_global." ++ string_drop 1 nm)%string
    end.
Proof.
  intros _ Hz. unfold mangle_local_name.
  destruct z as [[|c zn]|]; [congruence|reflexivity|reflexivity].
Qed.

End Labels.

(** X22: a local label can be referenced once it is defined.  In pass 1,
    after [define_label] for a label [.name] in a zone (or in no zone),
    with no constant of the mangled name in the way, the expression
    [.name] evaluated in the same zone is defined and has the PC of the
    definition as its value: [define_label] of the driver and
    [mangle_local_name] of the evaluator build the same name. *)
Theorem local_label_round_trip (a : Assembler) (l : LabelInfo) :
  table_ok (symbols a) = true ->
  is_anon_fwd l = false ->
  is_anon_back l = false ->
  is_local l = true ->
  starts_with_dot (lname l) = true ->
  current_zone a <> Some EmptyString ->
  match symbol_lookup (symbols a) (mangle_local_name (lname l) (current_zone a)) with
  | Some old => has_flag (flags old) SYM_CONSTANT = false
  | None => True
  end ->
  let a' := define_label a l in
  let r := fst (eval a' (Some (EXPR_SYMBOL (lname l)))) in
  defined r = true /\ Expr.value r = pc a /\
  pc a' = pc a /\ current_zone a' = current_zone a.
Proof.
  intros Hok Hfwd Hback Hlocal Hdot Hzone Hfree. cbv zeta.
  destruct (dot_name_not_anonymous (lname l) Hdot) as [Hnf Hnb].
  pose proof (mangled_names_agree (lname l) (current_zone a) Hdot Hzone) as Hname.
  unfold define_label. rewrite Hfwd, Hback, Hlocal, Hdot.
  rewrite <- Hname.
  set (mangled := mangle_local_name (lname l) (current_zone a)) in *.
  set (fl := if assembler_is_zeropage (pc a) then Z.lor SYM_DEFINED SYM_ZEROPAGE
             else SYM_DEFINED).
  assert (Hsym : exists sym,
            symbol_lookup (snd (symbol_define (symbols a) mangled (pc a) fl
                                  (current_file a) (current_line a))) mangled = Some sym /\
            Symbols.value sym = pc a /\ has_flag (flags sym) SYM_DEFINED = true).
  { destruct (symbol_lookup (symbols a) mangled) as [old|] eqn:Hl.
    - destruct (symbol_define_update (symbols a) mangled (pc a) fl (current_file a)
                  (current_line a) old Hok Hl (or_introl Hfree)) as (_ & Hl' & _).
      exists (updated old (pc a) fl). split; [exact Hl'|]. split; [reflexivity|].
      change SYM_DEFINED with (2 ^ 0). rewrite has_flag_testbit by lia.
      rewrite updated_bit by lia. apply orb_true_r.
    - destruct (symbol_define_new (symbols a) mangled (pc a) fl (current_file a)
                  (current_line a) Hok Hl) as (_ & Hl' & _).
      eexists. split; [exact Hl'|]. split; [reflexivity|]. simpl.
      change SYM_DEFINED with (2 ^ 0) at 2. rewrite has_flag_testbit by lia.
      rewrite testbit_uint8 by lia. rewrite Z.lor_spec. apply orb_true_r. }
  destruct Hsym as (sym & Hl' & Hv & Hd).
  unfold define_symbol, eval, expr_eval_opt. cbn [expr_eval].
  unfold eval_symbol. rewrite Hnf, Hnb, Hdot.
  cbn [symbols current_zone set_symbols pc]. fold mangled. rewrite Hl', Hd.
  cbn [fst defined Expr.value]. repeat split; try reflexivity. exact Hv.
Qed.

Lemma local_label_round_trip_witness :
  let a := set_current_zone (set_pc Programs.fresh 4096) (Some "main"%string) in
  let l := mkLabel ".loop" true false false in
  (table_ok (symbols a) = true /\ is_local l = true /\ starts_with_dot (lname l) = true /\
   current_zone a <> Some EmptyString) /\
  defined (fst (eval (define_label a l) (Some (EXPR_SYMBOL (lname l))))) = true /\
  Expr.value (fst (eval (define_label a l) (Some (EXPR_SYMBOL (lname l))))) = pc a /\
  pc (define_label a l) = pc a /\ current_zone (define_label a l) = current_zone a.
Proof.
  cbv zeta.
  split; [split; [vm_compute; reflexivity|repeat split; try reflexivity; discriminate]|].
  apply (local_label_round_trip
           (set_current_zone (set_pc Programs.fresh 4096) (Some "main"%string))
           (mkLabel ".loop" true false false));
    [vm_compute; reflexivity|reflexivity|reflexivity|reflexivity|reflexivity
    |discriminate|vm_compute; exact I].
Defined.

(** ** Skipped blocks, [-] runs, [!byte] and [!word] *)

(** X23: a skipped block leaves no trace.  While the innermost [!if] is
    inactive, pass 1 reads on over any lines that are not themselves
    conditional directives (instructions, labels, assignments, data
    directives, even [!source], [!macro] and [!for], and lines that do not
    parse): it stores no line record, defines no symbol and no anonymous
    label, does not move the PC, and reports no error. *)
Theorem inactive_lines_skipped
    (a : Assembler) (max_depth parser_pc : Z) (src : list SourceLine) :
  assembler_is_active a = false ->
  Forall (fun l => match lbody l with
                   | LINE_DIRECTIVE dir =>
                       name_in (dname dir) ["if"; "else"; "endif"; "ifdef"; "ifndef"]%string
                       = false
                   | _ => True
                   end) src ->
  exists a', pass1_loop a max_depth parser_pc src = Some a' /\
             lines a' = lines a /\ symbols a' = symbols a /\ pc a' = pc a /\
             errors a' = errors a /\ memory a' = memory a /\
             cond_stack a' = cond_stack a /\ anon_labels a' = anon_labels a.
Proof.
  intros Hoff Hsrc. revert a parser_pc Hoff.
  induction Hsrc as [|l src Hl Hrest IH]; intros a parser_pc Hoff; cbn [pass1_loop].
  - exists a. repeat split.
  - assert (Hcond : is_conditional_directive (parser_parse_line (symbols a) parser_pc 1 l)
                    = false).
    { unfold is_conditional_directive, parser_parse_line. cbn [body].
      destruct (lbody l) as [| |mn o|dir|assign|msg]; try reflexivity; [|exact Hl].
      unfold parse_instruction.
      destruct (match expr o with Some ex => _ | None => _ end) as [v known].
      set (md := detect_addressing_mode _ _ _ _ _ _ _ _).
      generalize (opcode_find mn md) (opcode_find mn ADDR_ABSOLUTE).
      intros [op|] [op2|]; try reflexivity;
        destruct (negb known && (1 =? 1)); reflexivity. }
    rewrite Hcond.
    set (a0 := set_current_line a (sline (parser_parse_line (symbols a) parser_pc 1 l))).
    assert (Hoff0 : assembler_is_active a0 = false) by exact Hoff.
    rewrite Hoff0. cbn [negb].
    destruct (IH a0 (pc a) Hoff0) as (a' & Hrun & Hrec).
    exists a'. split; [exact Hrun|exact Hrec].
Qed.

Lemma inactive_lines_skipped_witness :
  let a := snd (assembler_cond_if Programs.fresh 32 0) in
  let src := [ Programs.labelled "start" (Programs.instr 2 "lda" (Programs.immediate (EXPR_NUMBER 1)));
               Programs.assign 3 "x" (EXPR_NUMBER 5);
               mkLine (LINE_DIRECTIVE (mkDirective "source" [] (Some "lib.asm"%string))) 4 None;
               mkLine (LINE_ERROR None) 5 None ] in
  assembler_is_active a = false /\
  exists a', pass1_loop a 32 2049 src = Some a' /\
             lines a' = lines a /\ symbols a' = symbols a /\ pc a' = pc a /\
             errors a' = errors a /\ memory a' = memory a /\
             cond_stack a' = cond_stack a /\ anon_labels a' = anon_labels a.
Proof.
  cbv zeta. split; [vm_compute; reflexivity|].
  apply (inactive_lines_skipped (snd (assembler_cond_if Programs.fresh 32 0)) 32 2049);
    [vm_compute; reflexivity|].
  repeat (constructor; [first [exact I|reflexivity]|]). constructor.
Defined.

Section DataDirectives.

Lemma byte_loop_pc es : forall a,
  0 <= pc a < 65536 ->
  fst (byte_loop a es) = 0 ->
  pc (snd (byte_loop a es)) = to_uint16 (pc a + Z.of_nat (length es)).
Proof.
  induction es as [|e es IH]; intros a Hpc; cbn [byte_loop length].
  - intros _. cbn [snd]. rewrite Z.add_0_r, to_uint16_id by exact Hpc. reflexivity.
  - destruct (eval_keeps_pc a (Some e)) as (Hpc1 & _ & _).
    destruct (eval a (Some e)) as [r a1]. cbn [snd] in Hpc1.
    destruct (_ && _); [cbn [fst]; intros Hbad; discriminate Hbad|].
    destruct (pass a1 =? 2).
    + set (a2 := if _ || _ then assembler_warning a1 _ else a1).
      assert (Hpc2 : pc a2 = pc a).
      { unfold a2. destruct (_ || _); [|exact Hpc1].
        destruct (warning_keeps_pc a1 "byte value $%X truncated") as (H & _). congruence. }
      intros Hret. rewrite IH; [|rewrite emit_byte_pc; apply to_uint16_range|exact Hret].
      rewrite emit_byte_pc, Hpc2, to_uint16_add_l. f_equal. lia.
    + intros Hret. rewrite IH; [|apply to_uint16_range|exact Hret].
      unfold assembler_advance_pc. cbn [pc set_pc set_real_pc].
      rewrite Hpc1, to_uint16_add_l. f_equal. lia.
Qed.

Lemma word_loop_pc es : forall a,
  0 <= pc a < 65536 ->
  fst (word_loop a es) = 0 ->
  pc (snd (word_loop a es)) = to_uint16 (pc a + 2 * Z.of_nat (length es)).
Proof.
  induction es as [|e es IH]; intros a Hpc; cbn [word_loop length].
  - intros _. cbn [snd]. rewrite Z.add_0_r, to_uint16_id by exact Hpc. reflexivity.
  - destruct (eval_keeps_pc a (Some e)) as (Hpc1 & _ & _).
    destruct (eval a (Some e)) as [r a1]. cbn [snd] in Hpc1.
    destruct (_ && _); [cbn [fst]; intros Hbad; discriminate Hbad|].
    destruct (pass a1 =? 2).
    + intros Hret. rewrite IH; [|rewrite emit_word_pc; apply to_uint16_range|exact Hret].
      rewrite emit_word_pc, Hpc1, to_uint16_add_l. f_equal. lia.
    + intros Hret. rewrite IH; [|apply to_uint16_range|exact Hret].
      unfold assembler_advance_pc. cbn [pc set_pc set_real_pc].
      rewrite Hpc1, to_uint16_add_l. f_equal. lia.
Qed.

End DataDirectives.

(** X24: [!byte] and [!word] take the same room in both passes: a call
    that returns 0 leaves the PC advanced by one byte per argument for
    [!byte] and by two per argument for [!word], whether the pass counts
    or emits, and whether or not a value was truncated with a warning. *)
Theorem byte_word_directive_sizes (a : Assembler) (dir : DirectiveInfo) :
  0 <= pc a < 65536 ->
  (fst (assemble_byte_directive a dir) = 0 ->
   pc (snd (assemble_byte_directive a dir))
   = to_uint16 (pc a + Z.of_nat (length (args dir)))) /\
  (fst (assemble_word_directive a dir) = 0 ->
   pc (snd (assemble_word_directive a dir))
   = to_uint16 (pc a + 2 * Z.of_nat (length (args dir)))).
Proof.
  intros Hpc. unfold assemble_byte_directive, assemble_word_directive.
  split; [apply byte_loop_pc|apply word_loop_pc]; exact Hpc.
Qed.

Lemma byte_word_directive_sizes_witness :
  let a := set_pass (set_pc Programs.fresh 65535) 2 in
  let dir := mkDirective "byte" [EXPR_NUMBER 1; EXPR_NUMBER 300; EXPR_NUMBER 3] None in
  (0 <= pc a < 65536 /\ fst (assemble_byte_directive a dir) = 0 /\
   fst (assemble_word_directive a dir) = 0) /\
  pc (snd (assemble_byte_directive a dir)) = to_uint16 (pc a + Z.of_nat (length (args dir))) /\
  pc (snd (assemble_word_directive a dir))
  = to_uint16 (pc a + 2 * Z.of_nat (length (args dir))).
Proof.
  cbv zeta.
  pose proof (byte_word_directive_sizes (set_pass (set_pc Programs.fresh 65535) 2)
                (mkDirective "byte" [EXPR_NUMBER 1; EXPR_NUMBER 300; EXPR_NUMBER 3] None))
    as H.
  destruct H as [Hb Hw]; [vm_compute; split; [discriminate|reflexivity]|].
  split; [split; [vm_compute; split; [discriminate|reflexivity]
                 |split; vm_compute; reflexivity]|].
  split; [apply Hb|apply Hw]; vm_compute; reflexivity.
Defined.

(** ** Text conversions, [-] runs, and the BASIC stub *)

Section Conversions.

Import Readings.

Lemma forall_range_spec p n : forall v,
  forall_range n v p = true ->
  forall x, v <= x < v + Z.of_nat n -> p x = true.
Proof.
  induction n as [|n IH]; intros v Hall x Hx; [lia|].
  cbn [forall_range] in Hall. apply andb_true_iff in Hall as [Hv Hrest].
  destruct (Z.eq_dec x v) as [->|Hne]; [exact Hv|].
  apply (IH (v + 1) Hrest). lia.
Qed.

Lemma decimal_digits_of_address :
  forall_range (Z.to_nat 64536) 1000
    (fun v => Nat.eqb (length (snprintf_d 6 v)) (if 10000 <=? v then 5 else 4)) = true.
Proof. vm_compute. reflexivity. Qed.

Lemma byte_cases (p : Z -> bool) :
  forall_range 256 0 p = true -> forall c, 0 <= c < 256 -> p c = true.
Proof. intros Hall c Hc. apply (forall_range_spec p 256 0 Hall). lia. Qed.



End Conversions.

(** X25: the text conversions fold case.  For every byte,
    [ascii_to_petscii] returns a byte and is idempotent, and
    [ascii_to_screencode] returns a code below 128; a lower-case letter is
    converted like its upper-case letter by both, to the letter itself in
    PETSCII and to its position in the alphabet as a screen code. *)
Theorem text_conversions_fold_case (c : Z) :
  0 <= c < 256 ->
  0 <= ascii_to_petscii c < 256 /\
  ascii_to_petscii (ascii_to_petscii c) = ascii_to_petscii c /\
  0 <= ascii_to_screencode c < 128 /\
  (97 <= c <= 122 ->
   ascii_to_petscii c = c - 32 /\ ascii_to_petscii (c - 32) = c - 32 /\
   ascii_to_screencode c = c - 96 /\ ascii_to_screencode (c - 32) = c - 96).
Proof.
  intros Hc.
  assert (Hall : Readings.forall_range 256 0
            (fun c => (0 <=? ascii_to_petscii c) && (ascii_to_petscii c <? 256)
                      && (ascii_to_petscii (ascii_to_petscii c) =? ascii_to_petscii c)
                      && (0 <=? ascii_to_screencode c) && (ascii_to_screencode c <? 128)
                      && (negb ((97 <=? c) && (c <=? 122))
                          || ((ascii_to_petscii c =? c - 32)
                              && (ascii_to_petscii (c - 32) =? c - 32)
                              && (ascii_to_screencode c =? c - 96)
                              && (ascii_to_screencode (c - 32) =? c - 96)))) = true)
    by (vm_compute; reflexivity).
  pose proof (byte_cases _ Hall c Hc) as H. cbv beta in H.
  repeat (apply andb_true_iff in H; destruct H as [H ?]).
  repeat split; try lia.
  all: try (intros; match goal with
                    | Hor : negb _ || _ = true |- _ =>
                        apply orb_true_iff in Hor; destruct Hor as [Hor|Hor];
                        [apply negb_true_iff, andb_false_iff in Hor; lia|]
                    end;
            repeat (apply andb_true_iff in Hor; destruct Hor as [Hor ?]); lia).
Qed.

Lemma text_conversions_fold_case_witness :
  0 <= 104 < 256 /\
  0 <= ascii_to_petscii 104 < 256 /\
  ascii_to_petscii (ascii_to_petscii 104) = ascii_to_petscii 104 /\
  0 <= ascii_to_screencode 104 < 128 /\
  (97 <= 104 <= 122 ->
   ascii_to_petscii 104 = 104 - 32 /\ ascii_to_petscii (104 - 32) = 104 - 32 /\
   ascii_to_screencode 104 = 104 - 96 /\ ascii_to_screencode (104 - 32) = 104 - 96).
Proof. split; [lia|]. apply (text_conversions_fold_case 104). lia. Defined.



(** X27: from the origin 988 on, the BASIC stub takes the same room in
    both passes.  For [!basic] without arguments at a PC from 988 to 65522
    the default SYS address has four or five digits, the call returns 0, and
    the PC afterwards is the PC before plus 12 (SYS address below 10000) or
    plus 13, whether the pass counts the bytes or emits them. *)
Theorem basic_stub_same_size (a : Assembler) (dir : DirectiveInfo) :
  args dir = [] ->
  988 <= pc a <= 65522 ->
  fst (assemble_basic_directive a dir) = 0 /\
  pc (snd (assemble_basic_directive a dir))
  = to_uint16 (pc a + (if pc a + 12 <? 10000 then 12 else 13)).
Proof.
  intros Hargs Hpc. unfold assemble_basic_directive. rewrite Hargs.
  cbn [negb andb basic_sys_addr_loop]. change (4 <=? 5) with true. cbv iota.
  assert (Hdigits : forall v, 1000 <= v <= 65535 ->
            length (snprintf_d 6 v) = if 10000 <=? v then 5%nat else 4%nat).
  { intros v Hv.
    pose proof (forall_range_spec _ _ _ decimal_digits_of_address v ltac:(lia)) as H.
    cbv beta in H. apply Nat.eqb_eq in H. exact H. }
  destruct (Z.leb_spec 10000 (pc a + (2 + 2 + 1 + 1 + 2) + 4)) as [Hbig|Hsmall].
  - (* five digits *)
    change (5 =? 4) with false. cbv iota. change (4 + 1 <=? 5) with true. cbv iota.
    destruct (Z.leb_spec 10000 (pc a + (2 + 2 + 1 + 1 + 2) + (4 + 1))) as [_|Hno]; [|lia].
    change (5 =? 4 + 1) with true. cbv iota.
    destruct (Z.leb_spec 10000 (pc a + (2 + 2 + 1 + 1 + 2) + (4 + 1))) as [_|Hno]; [|lia].
    destruct (Z.ltb_spec (pc a + 12) 10000) as [Hno|_]; [lia|].
    destruct (pass a =? 2); cbn [fst snd]; (split; [reflexivity|]).
    + rewrite !emit_byte_pc, emit_bytes_pc by (rewrite emit_byte_pc; apply to_uint16_range).
      rewrite Hdigits by lia.
      destruct (Z.leb_spec 10000 (pc a + (2 + 2 + 1 + 1 + 2) + (4 + 1))) as [_|Hno]; [|lia].
      rewrite !emit_byte_pc.
      change (Z.of_nat 5) with 5. change (Z.of_nat 4) with 4.
      repeat match goal with
             | |- context [to_uint16 ?x] => rewrite (to_uint16_id x) by lia
             end.
      lia.
    + unfold assembler_advance_pc. cbn [pc set_pc set_real_pc]. f_equal.
  - (* four digits *)
    change (4 =? 4) with true. cbv iota.
    destruct (Z.leb_spec 10000 (pc a + (2 + 2 + 1 + 1 + 2) + 4)) as [Hno|_]; [lia|].
    destruct (Z.ltb_spec (pc a + 12) 10000) as [_|Hno]; [|lia].
    destruct (pass a =? 2); cbn [fst snd]; (split; [reflexivity|]).
    + rewrite !emit_byte_pc, emit_bytes_pc by (rewrite emit_byte_pc; apply to_uint16_range).
      rewrite Hdigits by lia.
      destruct (Z.leb_spec 10000 (pc a + (2 + 2 + 1 + 1 + 2) + 4)) as [Hno|_]; [lia|].
      rewrite !emit_byte_pc.
      change (Z.of_nat 5) with 5. change (Z.of_nat 4) with 4.
      repeat match goal with
             | |- context [to_uint16 ?x] => rewrite (to_uint16_id x) by lia
             end.
      lia.
    + unfold assembler_advance_pc. cbn [pc set_pc set_real_pc]. f_equal.
Qed.

Lemma basic_stub_same_size_witness :
  let a := set_pass (set_pc Programs.fresh 2049) 2 in
  let dir := mkDirective "basic" [] None in
  (args dir = [] /\ 988 <= pc a <= 65522) /\
  fst (assemble_basic_directive a dir) = 0 /\
  pc (snd (assemble_basic_directive a dir))
  = to_uint16 (pc a + (if pc a + 12 <? 10000 then 12 else 13)).
Proof.
  cbv zeta. split; [split; [reflexivity|vm_compute; split; discriminate]|].
  apply (basic_stub_same_size (set_pass (set_pc Programs.fresh 2049) 2)
           (mkDirective "basic" [] None));
    [reflexivity|vm_compute; split; discriminate].
Defined.

(** ** String literals; the bounds of the image *)

Section StringLiterals.

Lemma string_loop_plain cs : forall rest buf used,
  forallb (fun c => negb (Ascii.eqb c NUL || Ascii.eqb c DQUOTE || Ascii.eqb c LF
                          || Ascii.eqb c BACKSLASH)) cs = true ->
  string_loop (cs ++ DQUOTE :: rest) buf used = (Some (buf ++ cs), (used + length cs)%nat).
Proof.
  induction cs as [|c cs IH]; intros rest buf used Hcs.
  - cbn [app string_loop length]. change (Ascii.eqb DQUOTE NUL) with false.
    change (Ascii.eqb DQUOTE DQUOTE) with true. cbn [orb].
    rewrite app_nil_r, Nat.add_0_r. reflexivity.
  - cbn [forallb] in Hcs. apply andb_true_iff in Hcs as [Hc Hcs].
    apply negb_true_iff in Hc.
    apply orb_false_iff in Hc as [Hc Hbs]. apply orb_false_iff in Hc as [Hc Hlf].
    apply orb_false_iff in Hc as [Hnul Hdq].
    cbn [app string_loop length]. rewrite Hnul, Hdq, Hlf, Hbs. cbn [orb].
    rewrite (IH rest (buf ++ [c]) (S used) Hcs), <- app_assoc. f_equal. lia.
Qed.

Lemma lexer_next_quote pre ws suf ls ln :
  forallb is_blank ws = true ->
  let src := pre ++ ws ++ DQUOTE :: suf in
  lexer_next (mkLexer src (length pre) ls ln)
  = parse_string (mkLexer src (S (length pre + length ws)) ls ln)
                 (length pre + length ws).
Proof.
  intros Hws. cbv zeta. unfold lexer_next.
  rewrite (skip_whitespace_blanks pre ws DQUOTE suf ls ln Hws eq_refl eq_refl).
  replace (pre ++ ws ++ DQUOTE :: suf) with ((pre ++ ws) ++ DQUOTE :: suf)
    by (rewrite <- app_assoc; reflexivity).
  rewrite <- length_app.
  unfold is_at_end, advance. rewrite peek_at. cbn [source current].
  rewrite char_at_app. reflexivity.
Qed.

End StringLiterals.

(** X28: a string literal without escapes is read whole.  After any
    blanks, a double quote, characters that are neither NUL, a double
    quote, a line feed nor a backslash, and the closing quote become one
    [TOK_STRING] token: its text includes both quotes, its string value is
    the characters between them, and the lexer stops behind the closing
    quote. *)
Theorem lexer_string_literal
    (pre ws cs rest : list ascii) (ls : nat) (ln : Z) :
  forallb is_blank ws = true ->
  forallb (fun c => negb (Ascii.eqb c NUL || Ascii.eqb c DQUOTE || Ascii.eqb c LF
                          || Ascii.eqb c BACKSLASH)) cs = true ->
  let src := pre ++ ws ++ DQUOTE :: cs ++ DQUOTE :: rest in
  let (tok, lex') := lexer_next (mkLexer src (length pre) ls ln) in
  tok_type tok = TOK_STRING /\
  tok_string tok = Some cs /\
  token_text src tok = DQUOTE :: cs ++ [DQUOTE] /\
  remaining lex' = rest.
Proof.
  intros Hws Hcs. cbv zeta.
  rewrite (lexer_next_quote pre ws (cs ++ DQUOTE :: rest) ls ln Hws).
  set (P := pre ++ ws).
  assert (Hsrc : pre ++ ws ++ DQUOTE :: cs ++ DQUOTE :: rest
                 = (P ++ [DQUOTE]) ++ cs ++ DQUOTE :: rest)
    by (unfold P; rewrite <- !app_assoc; reflexivity).
  assert (Hlen : S (length pre + length ws) = length (P ++ [DQUOTE]))
    by (unfold P; rewrite !length_app; simpl; lia).
  assert (Hstart : (length pre + length ws)%nat = length P)
    by (unfold P; rewrite length_app; reflexivity).
  rewrite Hsrc, Hlen, Hstart.
  unfold parse_string. rewrite remaining_at.
  rewrite (string_loop_plain cs rest [] 0 Hcs). cbn [app Nat.add].
  unfold set_current. cbn [source current line_start Lexer.line].
  set (src := (P ++ [DQUOTE]) ++ cs ++ DQUOTE :: rest).
  assert (Hq : src = ((P ++ [DQUOTE]) ++ cs) ++ DQUOTE :: rest)
    by (unfold src; rewrite <- !app_assoc; reflexivity).
  assert (Hpos : (length (P ++ [DQUOTE]) + length cs)%nat = length ((P ++ [DQUOTE]) ++ cs))
    by (rewrite (length_app _ cs); reflexivity).
  assert (Hpeek : peek (mkLexer src (length (P ++ [DQUOTE]) + length cs) ls ln) = DQUOTE)
    by (rewrite Hq, Hpos; apply peek_at).
  unfold is_at_end. fold (peek (mkLexer src (length (P ++ [DQUOTE]) + length cs) ls ln)).
  rewrite Hpeek. change (Ascii.eqb DQUOTE NUL) with false.
  change (Ascii.eqb DQUOTE LF) with false. cbn [orb].
  unfold advance, set_current. cbn [snd source current line_start Lexer.line].
  split; [reflexivity|]. split; [reflexivity|]. split.
  - change (token_text src (with_string ?t ?b)) with (token_text src t).
    unfold src.
    replace ((P ++ [DQUOTE]) ++ cs ++ DQUOTE :: rest)
      with (P ++ (DQUOTE :: cs ++ [DQUOTE]) ++ rest)
      by (rewrite <- !app_assoc; cbn [app]; rewrite <- !app_assoc; reflexivity).
    replace (S (length (P ++ [DQUOTE]) + length cs))
      with (length P + length (DQUOTE :: cs ++ [DQUOTE]))%nat
      by (rewrite !length_app; simpl; rewrite length_app; simpl; lia).
    apply token_text_at.
  - unfold src.
    replace ((P ++ [DQUOTE]) ++ cs ++ DQUOTE :: rest)
      with ((((P ++ [DQUOTE]) ++ cs) ++ [DQUOTE]) ++ rest)
      by (rewrite <- !app_assoc; reflexivity).
    replace (S (length (P ++ [DQUOTE]) + length cs))
      with (length (((P ++ [DQUOTE]) ++ cs) ++ [DQUOTE]))
      by (rewrite !length_app; simpl; lia).
    apply remaining_at.
Qed.

Lemma lexer_string_literal_witness :
  let src := src_of "!text" ++ src_of " " ++ DQUOTE :: src_of "HELLO, WORLD"
             ++ DQUOTE :: src_of ",0" in
  (forallb is_blank (src_of " ") = true /\
   forallb (fun c => negb (Ascii.eqb c NUL || Ascii.eqb c DQUOTE || Ascii.eqb c LF
                           || Ascii.eqb c BACKSLASH)) (src_of "HELLO, WORLD") = true) /\
  let (tok, lex') := lexer_next (mkLexer src 5 0 1) in
  tok_type tok = TOK_STRING /\
  tok_string tok = Some (src_of "HELLO, WORLD") /\
  token_text src tok = DQUOTE :: src_of "HELLO, WORLD" ++ [DQUOTE] /\
  remaining lex' = src_of ",0".
Proof.
  cbv zeta. split; [split; reflexivity|].
  exact (lexer_string_literal (src_of "!text") (src_of " ") (src_of "HELLO, WORLD")
           (src_of ",0") 0 1 eq_refl eq_refl).
Defined.

(** X29: the bounds enclose what was written.  If every written cell lies
    between [lowest_addr] and [highest_addr], this still holds after any
    run of emissions, whose cells are all added to the written set; no
    cell is ever removed from it and the bounds only widen.  The state
    [assembler_create] builds satisfies the premise, so the range the
    output is cut from always covers all emitted bytes. *)
Theorem written_within_bounds (a : Assembler) (bs : list Z) :
  (forall k, k ∈ written a -> lowest_addr a <= k <= highest_addr a) ->
  let a' := assembler_emit_bytes a bs in
  (forall k, k ∈ written a' -> lowest_addr a' <= k <= highest_addr a') /\
  written a ⊆ written a' /\
  lowest_addr a' <= lowest_addr a /\ highest_addr a <= highest_addr a'.
Proof.
  cbv zeta. unfold assembler_emit_bytes. revert a.
  induction bs as [|b bs IH]; intros a Hinv; cbn [fold_left].
  - split; [exact Hinv|]. split; [intros k Hk; exact Hk|lia].
  - destruct (emit_byte_bounds a b) as [Hlo Hhi].
    destruct (IH (assembler_emit_byte a b)) as (Hinv' & Hsub & Hlo' & Hhi').
    { intros k Hk. rewrite emit_byte_written in Hk. rewrite Hlo, Hhi.
      apply elem_of_union in Hk as [Hk|Hk].
      - apply elem_of_singleton in Hk. subst k. lia.
      - specialize (Hinv k Hk). lia. }
    split; [exact Hinv'|]. split.
    + intros k Hk. apply Hsub. rewrite emit_byte_written.
      apply elem_of_union_r. exact Hk.
    + rewrite Hlo in Hlo'. rewrite Hhi in Hhi'. lia.
Qed.

Lemma written_within_bounds_witness :
  let a := set_pc (assembler_create 2049 100 100) 4096 in
  let a' := assembler_emit_bytes a [169; 0; 96] in
  (forall k, k ∈ written a -> lowest_addr a <= k <= highest_addr a) /\
  (forall k, k ∈ written a' -> lowest_addr a' <= k <= highest_addr a') /\
  written a ⊆ written a' /\
  lowest_addr a' <= lowest_addr a /\ highest_addr a <= highest_addr a'.
Proof.
  cbv zeta.
  assert (H0 : forall k, k ∈ written (set_pc (assembler_create 2049 100 100) 4096) ->
                 lowest_addr (set_pc (assembler_create 2049 100 100) 4096) <= k
                 <= highest_addr (set_pc (assembler_create 2049 100 100) 4096)).
  { intros k Hk. cbn in Hk. apply elem_of_empty in Hk. destruct Hk. }
  split; [exact H0|].
  exact (written_within_bounds (set_pc (assembler_create 2049 100 100) 4096) [169; 0; 96] H0).
Defined.
